(** * trapmux: configuration assembly, reload and trap dispatch

    A shallow embedding of the configuration assembler ([getConfig] and the
    functions it calls), the reload entry point ([handleSIGHUP]) and the trap
    path ([trapHandler], [processTrap]) of the trapmux SNMP trap multiplexer.

    Layout: Go helper functions and the gosnmp constants; a small regular
    expression matcher for [ipRe]; the configuration records; the assembler;
    the dispatcher; then the lemmas. *)

From Stdlib Require Import ZArith String Ascii List Bool Lia DecimalString.
From Stdlib Require Import Sorting.Sorted.
From Stdlib Require DecimalZ.
From stdpp Require Import base option list gmap strings relations.

(** ** Go values used throughout *)

(** A Go [error] is identified with the message [fmt.Errorf] built for it. *)
Definition error : Type := string.

(** The result of a Go function returning [error]: the updated value it was
    writing to when it returned [nil], or the error. *)
Inductive result (A : Type) : Type :=
| Ok (a : A)
| Err (e : error).
Arguments Ok {A} a.
Arguments Err {A} e.

Definition bind {A B : Type} (r : result A) (k : A -> result B) : result B :=
  match r with
  | Ok a => k a
  | Err e => Err e
  end.

Notation "x <- r ;; k" := (bind r (fun x => k))
  (at level 100, r at next level, right associativity, only parsing).

Definition isOk {A : Type} (r : result A) : bool :=
  match r with Ok _ => true | Err _ => false end.

(** [%v] of a Go [int]. *)
Definition fmt_int (z : Z) : string := NilZero.string_of_int (Z.to_int z).

(** Package [strings], on byte strings. *)
Module GoStrings.

Definition isUpper (c : ascii) : bool :=
  let n := nat_of_ascii c in (65 <=? n)%nat && (n <=? 90)%nat.

Definition lowerByte (c : ascii) : ascii :=
  if isUpper c then ascii_of_nat (nat_of_ascii c + 32) else c.

(** [strings.ToLower] on the ASCII letters: bytes above 127 are left as they
    are.  On text that is ASCII ([isASCII]) this is what Go computes.  Outside
    ASCII, Go maps two runes to ASCII letters (U+0130 to i and U+212A to k)
    and the others to runes outside ASCII, so a comparison of the result with
    a name made of ASCII digits and the letters v and c, as the version tokens
    are, comes out the same for every text; a comparison with a name that
    holds an i or a k, as those of [validateSnmpV3Args] do, is stated for
    ASCII text. *)
Fixpoint ToLower (s : string) : string :=
  match s with
  | EmptyString => EmptyString
  | String c s' => String (lowerByte c) (ToLower s')
  end.

(** Every byte of the text is below 128. *)
Fixpoint isASCII (s : string) : bool :=
  match s with
  | EmptyString => true
  | String c s' => (nat_of_ascii c <? 128)%nat && isASCII s'
  end.

(** [strings.HasPrefix(s, prefix)]. *)
Definition HasPrefix (s prefix : string) : bool := String.prefix prefix s.

(** [strings.Contains(s, substr)]. *)
Fixpoint Contains (s substr : string) : bool :=
  String.prefix substr s ||
  match s with
  | EmptyString => false
  | String _ s' => Contains s' substr
  end.

(** The slice expression [s[n:]]. *)
Fixpoint sliceFrom (n : nat) (s : string) : string :=
  match n, s with
  | O, _ => s
  | S n', String _ s' => sliceFrom n' s'
  | S _, EmptyString => EmptyString
  end.

End GoStrings.

(** Package gosnmp is a dependency of the daemon, not part of it.  These are
    the constants the configuration code compares with, as gosnmp declares
    them: the version numbers and the message flags are those of the SNMP
    message format (authentication is bit 1, privacy bit 2), and the protocol
    enumerations start at 1 with [NoAuth] and [NoPriv], 0 being "not set". *)
Module g.

(** [SnmpVersion] *)
Definition Version1 : Z := 0.
Definition Version2c : Z := 1.
Definition Version3 : Z := 3.

(** [SnmpV3MsgFlags] *)
Definition NoAuthNoPriv : Z := 0.
Definition AuthNoPriv : Z := 1.
Definition AuthPriv : Z := 3.

(** [SnmpV3AuthProtocol] *)
Definition NoAuth : Z := 1.
Definition MD5 : Z := 2.
Definition SHA : Z := 3.

(** [SnmpV3PrivProtocol] *)
Definition NoPriv : Z := 1.
Definition DES : Z := 2.
Definition AES : Z := 3.

(** The fields of [SnmpPacket] the trap handler reads.  The variable
    bindings are opaque to the engine. *)
Record SnmpPacket : Type := {
  Version : Z;
  Variables : list string;
  Enterprise : string;
  AgentAddress : string;
  GenericTrap : Z;
  SpecificTrap : Z;
  Timestamp : Z;
}.

End g.

(** The trap record handed to the filters and to the plugins. *)
Module pluginMeta.

(** Modelled from the spec: the declaration of [Trap] is not among the
    sources.  The fields are those the composite literal in [trapHandler]
    sets ([Data.AgentAddress] is [Data_AgentAddress]) and the [Dropped] flag
    [processTrap] reads and sets. *)
Record Trap : Type := {
  Data_Variables : list string;
  Data_Enterprise : string;
  Data_AgentAddress : string;
  Data_GenericTrap : Z;
  Data_SpecificTrap : Z;
  Data_Timestamp : Z;
  SrcIP : string;
  SnmpVersion : Z;
  Hostname : string;
  TrapNumber : Z;
  Dropped : bool;
}.

Definition set_Dropped (b : bool) (t : Trap) : Trap :=
  {| Data_Variables := Data_Variables t; Data_Enterprise := Data_Enterprise t;
     Data_AgentAddress := Data_AgentAddress t; Data_GenericTrap := Data_GenericTrap t;
     Data_SpecificTrap := Data_SpecificTrap t; Data_Timestamp := Data_Timestamp t;
     SrcIP := SrcIP t; SnmpVersion := SnmpVersion t; Hostname := Hostname t;
     TrapNumber := TrapNumber t; Dropped := b |}.

(** Modelled from the spec: the counter identifiers are declared outside the
    sources; these are the ones [trapHandler] and [processTrap] pass to
    [counterInc]. *)
Inductive Counter : Type :=
| TrapCount
| V1Traps
| V2cTraps
| V3Traps
| IgnoredTraps
| HandledTraps
| DroppedTraps.

#[global] Instance Counter_eq_dec : EqDecision Counter.
Proof. solve_decision. Defined.

End pluginMeta.

(** ** Regular expressions: the fragment [ipRe] is written in *)

Module Regexp.

Inductive regexp : Type :=
| reDigit                                   (* \d *)
| reChar (c : ascii)                        (* a literal byte, here \. *)
| reCat (r1 r2 : regexp)                    (* r1 r2 *)
| reRepeat (lo hi : nat) (r : regexp).      (* r{lo,hi} *)

Definition isDigit (c : ascii) : bool :=
  let n := nat_of_ascii c in (48 <=? n)%nat && (n <=? 57)%nat.

(** The words of a regular expression. *)
Inductive matches : regexp -> string -> Prop :=
| matches_digit c :
    isDigit c = true -> matches reDigit (String c EmptyString)
| matches_char c :
    matches (reChar c) (String c EmptyString)
| matches_cat r1 r2 w1 w2 :
    matches r1 w1 -> matches r2 w2 -> matches (reCat r1 r2) (w1 +:+ w2)
| matches_repeat_done hi r :
    matches (reRepeat 0 hi r) EmptyString
| matches_repeat_more lo hi r w1 w2 :
    matches r w1 -> matches (reRepeat (Nat.pred lo) hi r) w2 ->
    matches (reRepeat lo (S hi) r) (w1 +:+ w2).

(** Between [lo] and [hi] rounds of [f], each on what the round before left. *)
Fixpoint repeatRun (f : string -> list string) (lo hi : nat) (s : string)
  : list string :=
  (if (lo =? 0)%nat then [s] else []) ++
  match hi with
  | O => []
  | S hi' => flat_map (repeatRun f (Nat.pred lo) hi') (f s)
  end.

(** [run r s]: every rest of [s] after a prefix that [r] matches. *)
Fixpoint run (r : regexp) (s : string) : list string :=
  match r with
  | reDigit =>
      match s with
      | String c s' => if isDigit c then [s'] else []
      | EmptyString => []
      end
  | reChar a =>
      match s with
      | String c s' => if Ascii.eqb c a then [s'] else []
      | EmptyString => []
      end
  | reCat r1 r2 => flat_map (run r2) (run r1 s)
  | reRepeat lo hi r1 => repeatRun (run r1) lo hi s
  end.

(** [MatchString] of the pattern [^r$]: without the multi-line flag the two
    anchors pin the match to the whole text. *)
Definition MatchWhole (r : regexp) (s : string) : bool :=
  existsb (String.eqb EmptyString) (run r s).

End Regexp.

(** [var ipRe = regexp.MustCompile(`^(?:\d{1,3}\.){3}\d{1,3}$`)] *)
Definition ipRe : Regexp.regexp :=
  Regexp.reCat
    (Regexp.reRepeat 3 3
       (Regexp.reCat (Regexp.reRepeat 1 3 Regexp.reDigit) (Regexp.reChar ".")))
    (Regexp.reRepeat 1 3 Regexp.reDigit).

Definition ipRe_MatchString (s : string) : bool := Regexp.MatchWhole ipRe s.

(** ** The configuration records

    The struct declarations are not among the sources.  Each record below
    holds the fields the functions of the configuration file and of the trap
    handler read or write, under the names they use for them; nested
    anonymous structs are flattened ([General.PluginPath] is
    [General_PluginPath]). *)

(** Handles of loaded plugins (the interface values [filter.plugin] and
    [config.plugin] hold). *)
Definition ActionPlugin : Type := nat.
Definition MetricPlugin : Type := nat.

(** Modelled from the spec: the constants of [filterObj.filterItem], which
    field of the trap a matcher looks at (spec, data model: version,
    source_ip, agent_ip, generic_type, specific_type, enterprise_oid). *)
Inductive filterItem : Type :=
| filterByVersion
| filterBySrcIP
| filterByAgentAddr
| filterByGenericType
| filterBySpecificType
| filterByOid.

(** Their values: the line-oriented parser [processFilterLine] stores the
    column index of the field as [filterItem]. *)
Definition filterItemCode (i : filterItem) : Z :=
  match i with
  | filterByVersion => 0
  | filterBySrcIP => 1
  | filterByAgentAddr => 2
  | filterByGenericType => 3
  | filterBySpecificType => 4
  | filterByOid => 5
  end.

(** Modelled from the spec: the constants of [filterObj.filterType], how the
    matcher compares. *)
Inductive parseType : Type :=
| parseTypeAny
| parseTypeString
| parseTypeInt
| parseTypeRegex
| parseTypeCIDR
| parseTypeIPSet.

(** Modelled from the spec: [filterObj.filterValue] is an [interface{}];
    these are the dynamic types the assembler stores in it.  A compiled
    regular expression and a parsed network are identified with the text they
    were built from. *)
Inductive filterValue : Type :=
| valNil
| valVersion (v : Z)
| valInt (n : Z)
| valString (s : string)
| valRegexp (expr : string)
| valNetwork (cidr : string).

(** Modelled from the spec: a matcher, the tagged record [{field, kind,
    value}]. *)
Record filterObj : Type := {
  filterItem_ : filterItem;
  filterType : parseType;
  filterValue_ : filterValue;
}.

(** Modelled from the spec: the constants of [trapmuxFilter.actionType] the
    sources name. *)
Inductive actionKind : Type :=
| actionBreak
| actionNat
| actionPlugin.

(** Modelled from the spec: a filter record, with the fields of a filter
    stanza and the unexported fields the assembler fills in. *)
Record trapmuxFilter : Type := {
  SnmpVersions : list string;
  SourceIp : string;
  AgentAddress : string;
  GenericType : Z;
  SpecificType : Z;
  EnterpriseOid : string;
  ActionName : string;
  ActionArg : string;
  ActionArgs : gmap string string;
  BreakAfter : bool;
  (* not exported: never set by the decoder *)
  matchAll : bool;
  matchers : list filterObj;
  actionType : actionKind;
  plugin : option ActionPlugin;
}.

Definition set_matchAll (b : bool) (f : trapmuxFilter) : trapmuxFilter :=
  {| SnmpVersions := SnmpVersions f; SourceIp := SourceIp f;
     AgentAddress := AgentAddress f; GenericType := GenericType f;
     SpecificType := SpecificType f; EnterpriseOid := EnterpriseOid f;
     ActionName := ActionName f; ActionArg := ActionArg f;
     ActionArgs := ActionArgs f; BreakAfter := BreakAfter f;
     matchAll := b; matchers := matchers f;
     actionType := actionType f; plugin := plugin f |}.

Definition set_matchers (ms : list filterObj) (f : trapmuxFilter) : trapmuxFilter :=
  {| SnmpVersions := SnmpVersions f; SourceIp := SourceIp f;
     AgentAddress := AgentAddress f; GenericType := GenericType f;
     SpecificType := SpecificType f; EnterpriseOid := EnterpriseOid f;
     ActionName := ActionName f; ActionArg := ActionArg f;
     ActionArgs := ActionArgs f; BreakAfter := BreakAfter f;
     matchAll := matchAll f; matchers := ms;
     actionType := actionType f; plugin := plugin f |}.

Definition set_actionType (k : actionKind) (f : trapmuxFilter) : trapmuxFilter :=
  {| SnmpVersions := SnmpVersions f; SourceIp := SourceIp f;
     AgentAddress := AgentAddress f; GenericType := GenericType f;
     SpecificType := SpecificType f; EnterpriseOid := EnterpriseOid f;
     ActionName := ActionName f; ActionArg := ActionArg f;
     ActionArgs := ActionArgs f; BreakAfter := BreakAfter f;
     matchAll := matchAll f; matchers := matchers f;
     actionType := k; plugin := plugin f |}.

Definition set_ActionArg (a : string) (f : trapmuxFilter) : trapmuxFilter :=
  {| SnmpVersions := SnmpVersions f; SourceIp := SourceIp f;
     AgentAddress := AgentAddress f; GenericType := GenericType f;
     SpecificType := SpecificType f; EnterpriseOid := EnterpriseOid f;
     ActionName := ActionName f; ActionArg := a;
     ActionArgs := ActionArgs f; BreakAfter := BreakAfter f;
     matchAll := matchAll f; matchers := matchers f;
     actionType := actionType f; plugin := plugin f |}.

Definition set_ActionArgs (m : gmap string string) (f : trapmuxFilter) : trapmuxFilter :=
  {| SnmpVersions := SnmpVersions f; SourceIp := SourceIp f;
     AgentAddress := AgentAddress f; GenericType := GenericType f;
     SpecificType := SpecificType f; EnterpriseOid := EnterpriseOid f;
     ActionName := ActionName f; ActionArg := ActionArg f;
     ActionArgs := m; BreakAfter := BreakAfter f;
     matchAll := matchAll f; matchers := matchers f;
     actionType := actionType f; plugin := plugin f |}.

Definition set_plugin (p : option ActionPlugin) (f : trapmuxFilter) : trapmuxFilter :=
  {| SnmpVersions := SnmpVersions f; SourceIp := SourceIp f;
     AgentAddress := AgentAddress f; GenericType := GenericType f;
     SpecificType := SpecificType f; EnterpriseOid := EnterpriseOid f;
     ActionName := ActionName f; ActionArg := ActionArg f;
     ActionArgs := ActionArgs f; BreakAfter := BreakAfter f;
     matchAll := matchAll f; matchers := matchers f;
     actionType := actionType f; plugin := p |}.

(** [type IpSet map[string]bool] *)
Abbreviation IpSet := (gmap string bool).

(** Modelled from the spec: the listener section, each setting as text
    ([_str]) and in its usable form. *)
Record trapListenerConfig : Type := {
  Hostname : string;
  ListenAddr : string;
  ListenPort : string;
  IgnoreVersions_str : list string;
  IgnoreVersions : list Z;
  MsgFlags_str : string;
  MsgFlags : Z;
  AuthProto_str : string;
  AuthProto : Z;
  AuthPassword : string;
  PrivacyProto_str : string;
  PrivacyProto : Z;
  PrivacyPassword : string;
}.

(** Modelled from the spec: an entry of [Reporting].  The handle
    [addReportingPlugins] loads is kept in its loop variable and is no field
    here. *)
Record reporterConfig : Type := {
  PluginName : string;
  Args : gmap string string;
}.

(** Modelled from the spec: the configuration, the unit [getConfig]
    publishes. *)
Record trapmuxConfig : Type := {
  teConfigured : bool;
  General_PluginPath : string;
  General_Hostname : string;
  TrapReceiverSettings : trapListenerConfig;
  Logging_Level : string;
  (* one association list per stanza, in the order [range] visits its keys *)
  IpSets_str : list (list (string * list string));
  IpSets : gmap string IpSet;
  Filters : list trapmuxFilter;
  PluginErrorActions : list trapmuxFilter;
  Reporting : list reporterConfig;
}.

Definition set_TrapReceiverSettings (t : trapListenerConfig) (c : trapmuxConfig)
  : trapmuxConfig :=
  {| teConfigured := teConfigured c; General_PluginPath := General_PluginPath c;
     General_Hostname := General_Hostname c; TrapReceiverSettings := t;
     Logging_Level := Logging_Level c; IpSets_str := IpSets_str c;
     IpSets := IpSets c; Filters := Filters c;
     PluginErrorActions := PluginErrorActions c; Reporting := Reporting c |}.

Definition set_Logging_Level (l : string) (c : trapmuxConfig) : trapmuxConfig :=
  {| teConfigured := teConfigured c; General_PluginPath := General_PluginPath c;
     General_Hostname := General_Hostname c;
     TrapReceiverSettings := TrapReceiverSettings c;
     Logging_Level := l; IpSets_str := IpSets_str c;
     IpSets := IpSets c; Filters := Filters c;
     PluginErrorActions := PluginErrorActions c; Reporting := Reporting c |}.

Definition set_IpSets (m : gmap string IpSet) (c : trapmuxConfig) : trapmuxConfig :=
  {| teConfigured := teConfigured c; General_PluginPath := General_PluginPath c;
     General_Hostname := General_Hostname c;
     TrapReceiverSettings := TrapReceiverSettings c;
     Logging_Level := Logging_Level c; IpSets_str := IpSets_str c;
     IpSets := m; Filters := Filters c;
     PluginErrorActions := PluginErrorActions c; Reporting := Reporting c |}.

Definition set_Filters (fs : list trapmuxFilter) (c : trapmuxConfig) : trapmuxConfig :=
  {| teConfigured := teConfigured c; General_PluginPath := General_PluginPath c;
     General_Hostname := General_Hostname c;
     TrapReceiverSettings := TrapReceiverSettings c;
     Logging_Level := Logging_Level c; IpSets_str := IpSets_str c;
     IpSets := IpSets c; Filters := fs;
     PluginErrorActions := PluginErrorActions c; Reporting := Reporting c |}.

Definition set_PluginErrorActions (fs : list trapmuxFilter) (c : trapmuxConfig)
  : trapmuxConfig :=
  {| teConfigured := teConfigured c; General_PluginPath := General_PluginPath c;
     General_Hostname := General_Hostname c;
     TrapReceiverSettings := TrapReceiverSettings c;
     Logging_Level := Logging_Level c; IpSets_str := IpSets_str c;
     IpSets := IpSets c; Filters := Filters c;
     PluginErrorActions := fs; Reporting := Reporting c |}.

Definition set_Reporting (rs : list reporterConfig) (c : trapmuxConfig)
  : trapmuxConfig :=
  {| teConfigured := teConfigured c; General_PluginPath := General_PluginPath c;
     General_Hostname := General_Hostname c;
     TrapReceiverSettings := TrapReceiverSettings c;
     Logging_Level := Logging_Level c; IpSets_str := IpSets_str c;
     IpSets := IpSets c; Filters := Filters c;
     PluginErrorActions := PluginErrorActions c; Reporting := rs |}.

Definition set_teConfigured (b : bool) (c : trapmuxConfig) : trapmuxConfig :=
  {| teConfigured := b; General_PluginPath := General_PluginPath c;
     General_Hostname := General_Hostname c;
     TrapReceiverSettings := TrapReceiverSettings c;
     Logging_Level := Logging_Level c; IpSets_str := IpSets_str c;
     IpSets := IpSets c; Filters := Filters c;
     PluginErrorActions := PluginErrorActions c; Reporting := Reporting c |}.

(** [type trapmuxCommandLine struct] *)
Record trapmuxCommandLine : Type := {
  configFile : string;
  configFormat : string;
  bindAddr : string;
  listenPort : string;
  debugMode : bool;
}.

Definition set_ListenAddr (a : string) (t : trapListenerConfig) : trapListenerConfig :=
  {| Hostname := Hostname t; ListenAddr := a; ListenPort := ListenPort t;
     IgnoreVersions_str := IgnoreVersions_str t; IgnoreVersions := IgnoreVersions t;
     MsgFlags_str := MsgFlags_str t; MsgFlags := MsgFlags t;
     AuthProto_str := AuthProto_str t; AuthProto := AuthProto t;
     AuthPassword := AuthPassword t;
     PrivacyProto_str := PrivacyProto_str t; PrivacyProto := PrivacyProto t;
     PrivacyPassword := PrivacyPassword t |}.

Definition set_ListenPort (a : string) (t : trapListenerConfig) : trapListenerConfig :=
  {| Hostname := Hostname t; ListenAddr := ListenAddr t; ListenPort := a;
     IgnoreVersions_str := IgnoreVersions_str t; IgnoreVersions := IgnoreVersions t;
     MsgFlags_str := MsgFlags_str t; MsgFlags := MsgFlags t;
     AuthProto_str := AuthProto_str t; AuthProto := AuthProto t;
     AuthPassword := AuthPassword t;
     PrivacyProto_str := PrivacyProto_str t; PrivacyProto := PrivacyProto t;
     PrivacyPassword := PrivacyPassword t |}.

Definition set_Hostname (a : string) (t : trapListenerConfig) : trapListenerConfig :=
  {| Hostname := a; ListenAddr := ListenAddr t; ListenPort := ListenPort t;
     IgnoreVersions_str := IgnoreVersions_str t; IgnoreVersions := IgnoreVersions t;
     MsgFlags_str := MsgFlags_str t; MsgFlags := MsgFlags t;
     AuthProto_str := AuthProto_str t; AuthProto := AuthProto t;
     AuthPassword := AuthPassword t;
     PrivacyProto_str := PrivacyProto_str t; PrivacyProto := PrivacyProto t;
     PrivacyPassword := PrivacyPassword t |}.

Definition set_IgnoreVersions (vs : list Z) (t : trapListenerConfig) : trapListenerConfig :=
  {| Hostname := Hostname t; ListenAddr := ListenAddr t; ListenPort := ListenPort t;
     IgnoreVersions_str := IgnoreVersions_str t; IgnoreVersions := vs;
     MsgFlags_str := MsgFlags_str t; MsgFlags := MsgFlags t;
     AuthProto_str := AuthProto_str t; AuthProto := AuthProto t;
     AuthPassword := AuthPassword t;
     PrivacyProto_str := PrivacyProto_str t; PrivacyProto := PrivacyProto t;
     PrivacyPassword := PrivacyPassword t |}.

(** The fields [validateSnmpV3Args] assigns, all at once. *)
Definition set_v3 (flags auth : Z) (authPw : string) (priv : Z) (privPw : string)
  (t : trapListenerConfig) : trapListenerConfig :=
  {| Hostname := Hostname t; ListenAddr := ListenAddr t; ListenPort := ListenPort t;
     IgnoreVersions_str := IgnoreVersions_str t; IgnoreVersions := IgnoreVersions t;
     MsgFlags_str := MsgFlags_str t; MsgFlags := flags;
     AuthProto_str := AuthProto_str t; AuthProto := auth;
     AuthPassword := authPw;
     PrivacyProto_str := PrivacyProto_str t; PrivacyProto := priv;
     PrivacyPassword := privPw |}.

(** ** What the assembler calls outside this file

    The loader of the document, the environment, the secret store, the
    regular expression and network parsers and the plugin host are given by
    their results: an [Env] describes calls that return.  A call that panics
    inside a plugin or a library (as [Configure] of the forwarding plugin does
    on a port that is no number) ends the process, since nothing recovers it;
    such a run has no result here, and what is stated about [getConfig] is
    stated about the runs in which these calls return. *)
Record Env : Type := {
  (** the global [teCmdLine], as [processCommandLine] left it *)
  teCmdLine : trapmuxCommandLine;
  (** [os.Getenv] *)
  Getenv : string -> string;
  (** [os.Hostname()] *)
  os_Hostname : result string;
  (** reading the file or URL and [json.Unmarshal] into the new configuration *)
  Unmarshal : string -> result trapmuxConfig;
  (** [pluginMeta.GetSecret] *)
  GetSecret : string -> result string;
  (** [pluginMeta.MergeSecrets], which rewrites the map it is given *)
  MergeSecrets : gmap string string -> gmap string string;
  (** [regexp.Compile]: the error, if the expression does not compile *)
  regexp_Compile : string -> option error;
  (** [newNetwork]: the error, if the text is no network *)
  newNetwork : string -> option error;
  (** [pluginLoader.LoadActionPlugin(pluginPathExpr, name)] *)
  LoadActionPlugin : string -> string -> result ActionPlugin;
  (** [plugin.Configure(&mainLog, args)] of an action plugin *)
  Configure : ActionPlugin -> gmap string string -> option error;
  (** [plugin.Close()] of an action plugin *)
  Close : ActionPlugin -> option error;
  (** [pluginLoader.LoadMetricPlugin(pluginPathExpr, name)] *)
  LoadMetricPlugin : string -> string -> result MetricPlugin;
  (** [plugin.Configure(&mainLog, args, counters)] of a metric plugin *)
  ConfigureMetric : MetricPlugin -> gmap string string -> option error;
}.

Definition oneOf (s : string) (cases : list string) : bool :=
  existsb (String.eqb s) cases.

Definition nonEmpty (s : string) : bool := negb (String.eqb s EmptyString).

(** ** The assembler *)

(** The fields [encoding/json] cannot reach keep the zero value they have in
    [var newConfig trapmuxConfig]. *)
Definition zeroUnexportedFilter (f : trapmuxFilter) : trapmuxFilter :=
  set_plugin None (set_actionType actionBreak (set_matchers [] (set_matchAll false f))).

Definition zeroUnexported (c : trapmuxConfig) : trapmuxConfig :=
  set_teConfigured false
    (set_PluginErrorActions (map zeroUnexportedFilter (PluginErrorActions c))
       (set_Filters (map zeroUnexportedFilter (Filters c)) c)).

(** [loadConfig]: reading the document (the file, or the body of an http
    response whose [ContentLength] is known) and decoding it are one call of
    [Unmarshal]; the error of either is its error. *)
Definition loadConfig (E : Env) (config_file : string) : result trapmuxConfig :=
  c <- Unmarshal E config_file ;; Ok (zeroUnexported c).

Definition applyCliOverrides (E : Env) (newConfig : trapmuxConfig) : trapmuxConfig :=
  let t := TrapReceiverSettings newConfig in
  let listenAddr := Getenv E "TRAPMUX_LISTEN_ADDRESS" in
  let t :=
    if nonEmpty listenAddr then set_ListenAddr listenAddr t
    else if nonEmpty (bindAddr (teCmdLine E)) then set_ListenAddr (bindAddr (teCmdLine E)) t
    else t in
  let listenPort_ := Getenv E "TRAPMUX_LISTEN_PORT" in
  let t :=
    if nonEmpty listenPort_ then set_ListenPort listenPort_ t
    else if nonEmpty (listenPort (teCmdLine E)) then set_ListenPort (listenPort (teCmdLine E)) t
    else t in
  let level := if debugMode (teCmdLine E) then "debug"%string else Logging_Level newConfig in
  let hostname := Getenv E "TRAPMUX_HOSTNAME" in
  let t :=
    if nonEmpty hostname then set_Hostname hostname t
    else if String.eqb (Hostname t) EmptyString then
      match os_Hostname E with
      | Err _ => set_Hostname "_undefined" t
      | Ok myName => set_Hostname myName t
      end
    else t in
  set_TrapReceiverSettings t (set_Logging_Level level newConfig).

Fixpoint validateIgnoreVersions_loop (candidates : list string)
  (ignorev1 ignorev2c ignorev3 : bool) (ignoreVersions : list Z) : result (list Z) :=
  match candidates with
  | [] => Ok ignoreVersions
  | candidate :: rest =>
      let lc := GoStrings.ToLower candidate in
      if oneOf lc ["v1"; "1"]%string then
        if negb ignorev1
        then validateIgnoreVersions_loop rest true ignorev2c ignorev3
               (ignoreVersions ++ [g.Version1])
        else validateIgnoreVersions_loop rest ignorev1 ignorev2c ignorev3 ignoreVersions
      else if oneOf lc ["v2c"; "2c"; "2"]%string then
        if negb ignorev2c
        then validateIgnoreVersions_loop rest ignorev1 true ignorev3
               (ignoreVersions ++ [g.Version2c])
        else validateIgnoreVersions_loop rest ignorev1 ignorev2c ignorev3 ignoreVersions
      else if oneOf lc ["v3"; "3"]%string then
        if negb ignorev3
        then validateIgnoreVersions_loop rest ignorev1 ignorev2c true
               (ignoreVersions ++ [g.Version3])
        else validateIgnoreVersions_loop rest ignorev1 ignorev2c ignorev3 ignoreVersions
      else
        Err ("unsupported or invalid value (" +:+ candidate +:+
             ") for general:ignore_version")
  end.

Definition validateIgnoreVersions (newConfig : trapmuxConfig) : result trapmuxConfig :=
  let t := TrapReceiverSettings newConfig in
  vs <- validateIgnoreVersions_loop (IgnoreVersions_str t) false false false
          (IgnoreVersions t) ;;
  if (2 <? length vs)%nat
  then Err "all three SNMP versions are ignored -- there will be no traps to process"
  else Ok (set_TrapReceiverSettings (set_IgnoreVersions vs t) newConfig).

Definition validateSnmpV3Args (E : Env) (params : trapListenerConfig)
  : result trapListenerConfig :=
  msgFlags <-
    (let lc := GoStrings.ToLower (MsgFlags_str params) in
     if oneOf lc ["noauthnopriv"; ""]%string then Ok g.NoAuthNoPriv
     else if oneOf lc ["authnopriv"]%string then Ok g.AuthNoPriv
     else if oneOf lc ["authpriv"]%string then Ok g.AuthPriv
     else Err ("unsupported or invalid value (" +:+ MsgFlags_str params +:+
               ") for snmpv3:msg_flags")) ;;
  authProto <-
    (let lc := GoStrings.ToLower (AuthProto_str params) in
     if oneOf lc ["noauth"; ""]%string then Ok g.NoAuth
     else if oneOf lc ["sha"]%string then Ok g.SHA
     else if oneOf lc ["md5"]%string then Ok g.MD5
     else Err ("invalid value for snmpv3:auth_protocol: " +:+ AuthProto_str params)) ;;
  authPassword <-
    match GetSecret E (AuthPassword params) with
    | Ok plaintext => Ok plaintext
    | Err _ => Err ("unable to decode secret for auth password: " +:+ AuthPassword params)
    end ;;
  privacyProto <-
    (let lc := GoStrings.ToLower (PrivacyProto_str params) in
     if oneOf lc ["nopriv"; ""]%string then Ok g.NoPriv
     else if oneOf lc ["aes"]%string then Ok g.AES
     else if oneOf lc ["des"]%string then Ok g.DES
     else Err ("invalid value for snmpv3:privacy_protocol: " +:+ PrivacyProto_str params)) ;;
  privacyPassword <-
    match GetSecret E (PrivacyPassword params) with
    | Ok plaintext => Ok plaintext
    | Err _ => Err ("unable to decode secret for privacy password: " +:+
                    PrivacyPassword params)
    end ;;
  if (Z.land msgFlags g.AuthPriv =? 1)%Z && (authProto <? 2)%Z then
    Err "v3 config error: no auth protocol set when snmpv3:msg_flags specifies an Auth mode"
  else if (msgFlags =? g.AuthPriv)%Z && (privacyProto <? 2)%Z then
    Err "v3 config error: no privacy protocol mode set when snmpv3:msg_flags specifies an AuthPriv mode"
  else Ok (set_v3 msgFlags authProto authPassword privacyProto privacyPassword params).

(** The innermost loop of [addIpSets], over the addresses of one set. *)
Fixpoint addIpSets_ips (ipsName : string) (ips : list string)
  (ipSets : gmap string IpSet) : result (gmap string IpSet) :=
  match ips with
  | [] => Ok ipSets
  | ip :: rest =>
      if ipRe_MatchString ip then
        addIpSets_ips ipsName rest
          (<[ipsName := <[ip := true]> (default ∅ (ipSets !! ipsName))]> ipSets)
      else
        Err ("invalid IP address (" +:+ ip +:+ ") in ipset: " +:+ ipsName)
  end.

(** The loop over the sets of one stanza. *)
Fixpoint addIpSets_stanza (stanza : list (string * list string))
  (ipSets : gmap string IpSet) : result (gmap string IpSet) :=
  match stanza with
  | [] => Ok ipSets
  | (ipsName, ips) :: rest =>
      m <- addIpSets_ips ipsName ips (<[ipsName := ∅]> ipSets) ;;
      addIpSets_stanza rest m
  end.

(** The loop over the stanzas. *)
Fixpoint addIpSets_stanzas (stanzas : list (list (string * list string)))
  (ipSets : gmap string IpSet) : result (gmap string IpSet) :=
  match stanzas with
  | [] => Ok ipSets
  | stanza :: rest =>
      m <- addIpSets_stanza stanza ipSets ;;
      addIpSets_stanzas rest m
  end.

Definition addIpSets (newConfig : trapmuxConfig) : result trapmuxConfig :=
  m <- addIpSets_stanzas (IpSets_str newConfig) (IpSets newConfig) ;;
  Ok (set_IpSets m newConfig).

Definition versionOfToken (lc : string) : option Z :=
  if oneOf lc ["v1"; "1"]%string then Some g.Version1
  else if oneOf lc ["v2c"; "2c"; "2"]%string then Some g.Version2c
  else if oneOf lc ["v3"; "3"]%string then Some g.Version3
  else None.

Definition appendMatcher (fObj : filterObj) (filter : trapmuxFilter) : trapmuxFilter :=
  set_matchers (matchers filter ++ [fObj]) filter.

(** The loop of [addSnmpFilterObj] over [filter.SnmpVersions]. *)
Fixpoint addSnmpFilterObj_loop (candidates : list string) (filter : trapmuxFilter)
  (lineNumber : Z) : result trapmuxFilter :=
  match candidates with
  | [] => Ok filter
  | candidate :: rest =>
      match versionOfToken (GoStrings.ToLower candidate) with
      | Some v =>
          let fObj := {| filterItem_ := filterByVersion; filterType := parseTypeInt;
                         filterValue_ := valVersion v |} in
          addSnmpFilterObj_loop rest
            (appendMatcher fObj (set_matchAll false filter)) lineNumber
      | None =>
          Err ("unsupported or invalid SNMP version (" +:+ candidate +:+
               ") on line " +:+ fmt_int lineNumber)
      end
  end.

Definition addSnmpFilterObj (filter : trapmuxFilter) (lineNumber : Z)
  : result trapmuxFilter :=
  addSnmpFilterObj_loop (SnmpVersions filter) filter lineNumber.

Definition addIpFilterObj (E : Env) (filter : trapmuxFilter) (source : filterItem)
  (networkEntry : string) (ipSets : gmap string IpSet) (lineNumber : Z)
  : result trapmuxFilter :=
  if String.eqb networkEntry EmptyString then Ok filter
  else
    let filter := set_matchAll false filter in
    let where_ := (fmt_int (filterItemCode source) +:+ " on line " +:+
                   fmt_int lineNumber)%string in
    fObj <-
      (if GoStrings.HasPrefix networkEntry "ipset:" then
         let ipSetName := GoStrings.sliceFrom 6 networkEntry in
         match ipSets !! ipSetName with
         | Some _ =>
             Ok {| filterItem_ := source; filterType := parseTypeIPSet;
                   filterValue_ := valString ipSetName |}
         | None =>
             Err ("invalid IP set name specified on for " +:+ where_ +:+ ": " +:+
                  networkEntry)
         end
       else if GoStrings.HasPrefix networkEntry "/" then
         match regexp_Compile E (GoStrings.sliceFrom 1 networkEntry) with
         | None =>
             Ok {| filterItem_ := source; filterType := parseTypeRegex;
                   filterValue_ := valRegexp (GoStrings.sliceFrom 1 networkEntry) |}
         | Some err =>
             Err ("unable to compile regular expressions for IP for " +:+ where_ +:+
                  ": " +:+ networkEntry +:+ ": " +:+ err)
         end
       else if GoStrings.Contains networkEntry "/" then
         match newNetwork E networkEntry with
         | None =>
             Ok {| filterItem_ := source; filterType := parseTypeCIDR;
                   filterValue_ := valNetwork networkEntry |}
         | Some _ =>
             Err ("invalid IP/CIDR for " +:+ fmt_int (filterItemCode source) +:+
                  " at line " +:+ fmt_int lineNumber +:+ ": " +:+ networkEntry)
         end
       else
         Ok {| filterItem_ := source; filterType := parseTypeString;
               filterValue_ := valString networkEntry |}) ;;
    Ok (appendMatcher fObj filter).

Definition addTrapTypeFilterObj (filter : trapmuxFilter) (source : filterItem)
  (trapTypeEntry : Z) (lineNumber : Z) : result trapmuxFilter :=
  (* -1 means to match everything *)
  if (trapTypeEntry =? -1)%Z then Ok filter
  else
    let filter := set_matchAll false filter in
    let fObj := {| filterItem_ := source; filterType := parseTypeInt;
                   filterValue_ := valInt trapTypeEntry |} in
    Ok (appendMatcher fObj filter).

Definition addOidFilterObj (E : Env) (filter : trapmuxFilter) (oid : string)
  (lineNumber : Z) : result trapmuxFilter :=
  if String.eqb oid EmptyString then Ok filter
  else
    let filter := set_matchAll false filter in
    match regexp_Compile E oid with
    | Some err =>
        Err ("unable to compile regular expression at line " +:+ fmt_int lineNumber +:+
             " for OID: " +:+ oid +:+ ": " +:+ err)
    | None =>
        let fObj := {| filterItem_ := filterByOid; filterType := parseTypeRegex;
                       filterValue_ := valRegexp oid |} in
        Ok (appendMatcher fObj filter)
    end.

Definition addFilterObjs (E : Env) (filter : trapmuxFilter)
  (ipSets : gmap string IpSet) (lineNumber : Z) : result trapmuxFilter :=
  (* If we find something that is specifies a condition, then reset *)
  let filter := set_matchAll true filter in
  filter <- addSnmpFilterObj filter lineNumber ;;
  filter <- addIpFilterObj E filter filterBySrcIP (SourceIp filter) ipSets lineNumber ;;
  filter <- addIpFilterObj E filter filterByAgentAddr (AgentAddress filter) ipSets
              lineNumber ;;
  filter <- addTrapTypeFilterObj filter filterByGenericType (GenericType filter)
              lineNumber ;;
  filter <- addTrapTypeFilterObj filter filterBySpecificType (SpecificType filter)
              lineNumber ;;
  addOidFilterObj E filter (EnterpriseOid filter) lineNumber.

Definition setAction (E : Env) (filter : trapmuxFilter) (pluginPathExpr : string)
  (lineNumber : Z) : result trapmuxFilter :=
  if oneOf (ActionName filter) ["break"; "drop"]%string then
    Ok (set_actionType actionBreak filter)
  else if oneOf (ActionName filter) ["nat"]%string then
    let filter := set_actionType actionNat filter in
    let filter := set_ActionArg (default EmptyString (ActionArgs filter !! "natIp"%string))
                    filter in
    if String.eqb (ActionArg filter) EmptyString
    then Err ("missing NAT argument at line " +:+ fmt_int lineNumber)
    else Ok filter
  else
    let filter := set_actionType actionPlugin filter in
    match LoadActionPlugin E pluginPathExpr (ActionName filter) with
    | Err err =>
        Err ("unable to load plugin " +:+ ActionName filter +:+ " at line " +:+
             fmt_int lineNumber +:+ ": " +:+ err)
    | Ok p =>
        let filter := set_plugin (Some p) filter in
        let filter := set_ActionArgs (MergeSecrets E (ActionArgs filter)) filter in
        match Configure E p (ActionArgs filter) with
        | Some err =>
            Err ("unable to configure plugin " +:+ ActionName filter +:+ " at line " +:+
                 fmt_int lineNumber +:+ ": " +:+ err)
        | None => Ok filter
        end
    end.

(** The loop shared by [addFilters] and [addPluginErrorActions]: entry [i] is
    given its matchers, then its action. *)
Fixpoint bindFilters (E : Env) (ipSets : gmap string IpSet) (pluginPath : string)
  (i : nat) (filters : list trapmuxFilter) : result (list trapmuxFilter) :=
  match filters with
  | [] => Ok []
  | f :: rest =>
      f <- addFilterObjs E f ipSets (Z.of_nat i) ;;
      f <- setAction E f pluginPath (Z.of_nat i) ;;
      rest <- bindFilters E ipSets pluginPath (S i) rest ;;
      Ok (f :: rest)
  end.

Definition addFilters (E : Env) (newConfig : trapmuxConfig) : result trapmuxConfig :=
  fs <- bindFilters E (IpSets newConfig) (General_PluginPath newConfig) 0
          (Filters newConfig) ;;
  Ok (set_Filters fs newConfig).

Definition addPluginErrorActions (E : Env) (newConfig : trapmuxConfig)
  : result trapmuxConfig :=
  fs <- bindFilters E (IpSets newConfig) (General_PluginPath newConfig) 0
          (PluginErrorActions newConfig) ;;
  Ok (set_PluginErrorActions fs newConfig).

(** ** The process: the global configuration pointer and what the daemon does

    The observable actions of the daemon are kept in a trace, oldest first. *)

Inductive logLevel : Type :=
| levelDebug
| levelInfo
| levelWarn
| levelFatal.

Inductive Event : Type :=
(** a line written through [mainLog], with the error attached by [.Err] *)
| EvLog (level : logLevel) (msg : string) (err : option error)
(** [f.plugin.Close()] on the action plugin with this handle *)
| EvClose (p : ActionPlugin)
(** [reporter.plugin.Inc(counter)] on entry [reporter] of [teConfig.Reporting] *)
| EvInc (reporter : nat) (counter : pluginMeta.Counter)
(** [filterDef.isFilterMatch(trap)] evaluated for entry [i] of [teConfig.Filters] *)
| EvIsFilterMatch (i : nat)
(** [filterDef.processAction(trap)] for entry [i] of [teConfig.Filters] *)
| EvProcessAction (i : nat) (failed : bool)
(** [go pluginErrorFilters.processAction(trap)] for entry [j] of
    [teConfig.PluginErrorActions] *)
| EvGo (j : nat)
(** the body of that goroutine, once it runs *)
| EvErrorAction (j : nat) (failed : bool)
(** [processTrap(&trap)] entered with this record *)
| EvProcessTrap (trap : pluginMeta.Trap).

Record Process : Type := {
  (** [var teConfig *trapmuxConfig]: [None] is the nil pointer *)
  teConfig : option trapmuxConfig;
  (** [var totalTraps int] *)
  totalTraps : Z;
  trace : list Event;
}.

Definition emit (evs : list Event) (st : Process) : Process :=
  {| teConfig := teConfig st; totalTraps := totalTraps st; trace := trace st ++ evs |}.

Definition set_teConfig (c : option trapmuxConfig) (st : Process) : Process :=
  {| teConfig := c; totalTraps := totalTraps st; trace := trace st |}.

Definition set_totalTraps (n : Z) (st : Process) : Process :=
  {| teConfig := teConfig st; totalTraps := n; trace := trace st |}.

(** How a call ends: it returns, or the process ends under it. *)
Inductive outcome (A : Type) : Type :=
| Done (a : A)
| Failed (e : error)              (* [return err] *)
| Exited (e : error)              (* [mainLog.Fatal()...Msg]: zerolog logs, then [os.Exit(1)] *)
| Panicked.                       (* a nil dereference *)
Arguments Done {A} a.
Arguments Failed {A} e.
Arguments Exited {A} e.
Arguments Panicked {A}.

(** The loop of [addReportingPlugins].  It reads the plugin path through the
    global [teConfig], the configuration in force, not through [newConfig]. *)
Fixpoint addReportingPlugins_loop (E : Env) (te : option trapmuxConfig) (i : nat)
  (reporting : list reporterConfig) : outcome (list reporterConfig) :=
  match reporting with
  | [] => Done []
  | config :: rest =>
      match te with
      | None => Panicked
      | Some cur =>
          match LoadMetricPlugin E (General_PluginPath cur) (PluginName config) with
          | Err err => Exited err
          | Ok p =>
              let args := MergeSecrets E (Args config) in
              match ConfigureMetric E p args with
              | Some err =>
                  Failed ("unable to configure plugin " +:+ PluginName config +:+
                          " at line " +:+ fmt_int (Z.of_nat i) +:+ ": " +:+ err)
              | None =>
                  match addReportingPlugins_loop E te (S i) rest with
                  | Done rest' =>
                      Done ({| PluginName := PluginName config; Args := args |} :: rest')
                  | Failed e => Failed e
                  | Exited e => Exited e
                  | Panicked => Panicked
                  end
              end
          end
      end
  end.

Definition addReportingPlugins (E : Env) (te : option trapmuxConfig)
  (newConfig : trapmuxConfig) : outcome trapmuxConfig :=
  match addReportingPlugins_loop E te 0 (Reporting newConfig) with
  | Done rs => Done (set_Reporting rs newConfig)
  | Failed e => Failed e
  | Exited e => Exited e
  | Panicked => Panicked
  end.

(** [closeHandles], over [teConfig.Filters]: the calls made and whether the
    loop came to its end (a plugin filter without a handle is a nil
    dereference). *)
Fixpoint closeHandles_loop (E : Env) (filters : list trapmuxFilter)
  : list Event * bool :=
  match filters with
  | [] => ([], true)
  | f :: rest =>
      match actionType f with
      | actionPlugin =>
          match plugin f with
          | None => ([], false)
          | Some p =>
              let warn :=
                match Close E p with
                | Some err => [EvLog levelWarn "Unable to perform close operation" (Some err)]
                | None => []
                end in
              let '(evs, finished) := closeHandles_loop E rest in
              (EvClose p :: warn ++ evs, finished)
          end
      | _ => closeHandles_loop E rest
      end
  end.

Definition closeHandles (E : Env) (cur : trapmuxConfig) : list Event * bool :=
  closeHandles_loop E (Filters cur).

Definition isReconfigure (st : Process) : bool :=
  match teConfig st with
  | Some cur => teConfigured cur
  | None => false
  end.

(** [getConfig]: how the call ends ([Done tt] is [return nil]) and the process
    it leaves. *)
Definition getConfig (E : Env) (st : Process) : outcome unit * Process :=
  let operation := if isReconfigure st then "Reloading"%string else "Loading"%string in
  let st := emit [EvLog levelInfo (operation +:+ " configuration for trapmux") None] st in
  match loadConfig E (configFile (teCmdLine E)) with
  | Err err => (Failed err, st)
  | Ok newConfig =>
  let newConfig := applyCliOverrides E newConfig in
  match validateIgnoreVersions newConfig with
  | Err err => (Failed err, st)
  | Ok newConfig =>
  match validateSnmpV3Args E (TrapReceiverSettings newConfig) with
  | Err err => (Failed err, st)
  | Ok params =>
  let newConfig := set_TrapReceiverSettings params newConfig in
  match addIpSets newConfig with
  | Err err => (Failed err, st)
  | Ok newConfig =>
  match addFilters E newConfig with
  | Err err => (Failed err, st)
  | Ok newConfig =>
  match addPluginErrorActions E newConfig with
  | Err err => (Failed err, st)
  | Ok newConfig =>
  match addReportingPlugins E (teConfig st) newConfig with
  | Failed err => (Failed err, st)
  | Exited err =>
      (Exited err,
       emit [EvLog levelFatal "Unable to load metric reporting plugin" (Some err)] st)
  | Panicked => (Panicked, st)
  | Done newConfig =>
      (* If this is a reconfigure, close the old handles here *)
      let '(closed, finished) :=
        match teConfig st with
        | Some cur => if teConfigured cur then closeHandles E cur else ([], true)
        | None => ([], true)
        end in
      let st := emit closed st in
      if finished then
        (* Set our global config pointer to this configuration *)
        (Done tt, set_teConfig (Some (set_teConfigured true newConfig)) st)
      else (Panicked, st)
  end end end end end end end.

(** The line [handleSIGHUP] logs when [getConfig] returns an error: the
    message holds a line feed. *)
Definition notChanged (err : error) : Event :=
  EvLog levelInfo
    (String.append "Error parsing configuration"
       (String (ascii_of_nat 10) "Configuration was not changed"))
    (Some err).

(** One turn of the loop of [handleSIGHUP]: a signal was received. *)
Definition handleSIGHUP (E : Env) (st : Process) : outcome unit * Process :=
  match getConfig E st with
  | (Failed err, st') => (Done tt, emit [notChanged err] st')
  | r => r
  end.

(** ** The trap path *)

(** Go's [int] and [uint] are 64 bits wide on the platforms the daemon is
    built for; [totalTraps++] wraps, and [uint(totalTraps)] keeps the bits. *)
Definition wrapInt (z : Z) : Z := ((z + 2 ^ 63) mod 2 ^ 64 - 2 ^ 63)%Z.
Definition toUint (z : Z) : Z := (z mod 2 ^ 64)%Z.

(** [counterInc]: one [Inc] per entry of [teConfig.Reporting], in order. *)
Definition counterInc (cur : trapmuxConfig) (counter : pluginMeta.Counter)
  : list Event :=
  map (fun reporter => EvInc reporter counter) (seq 0 (length (Reporting cur))).

(** Modelled from the spec: [isIgnoredVersion] is not among the sources; the
    listener adapter tests "version ∈ ignored set", the set being the list
    [validateIgnoreVersions] built. *)
Definition isIgnoredVersion (cur : trapmuxConfig) (ver : Z) : bool :=
  existsb (Z.eqb ver) (IgnoreVersions (TrapReceiverSettings cur)).

Section Dispatch.

(** The two methods of a filter that live in the filter file:
    [isFilterMatch] reads the trap, [processAction] may rewrite it and
    returns the error of the action, if any. *)
Variable isFilterMatch : trapmuxFilter -> pluginMeta.Trap -> bool.
Variable processAction :
  trapmuxFilter -> pluginMeta.Trap -> pluginMeta.Trap * option error.

(** The goroutines [go pluginErrorFilters.processAction(trap)] starts: one
    per entry of [teConfig.PluginErrorActions], in order. *)
Definition spawnErrorActions (cur : trapmuxConfig) : list Event :=
  map EvGo (seq 0 (length (PluginErrorActions cur))).

(** One turn of the loop of [processTrap], for entry [i]: the trap as the
    turn leaves it and what the turn did. *)
Definition processTrap_turn (cur : trapmuxConfig) (i : nat)
  (filterDef : trapmuxFilter) (trap : pluginMeta.Trap)
  : pluginMeta.Trap * list Event :=
  if pluginMeta.Dropped trap then (trap, [])
  else
    let evalMatch := if matchAll filterDef then [] else [EvIsFilterMatch i] in
    if matchAll filterDef || isFilterMatch filterDef trap then
      match actionType filterDef with
      | actionBreak =>
          (pluginMeta.set_Dropped true trap,
           evalMatch ++ counterInc cur pluginMeta.DroppedTraps)
      | _ =>
          let '(trap, err) := processAction filterDef trap in
          let acted :=
            EvProcessAction i (bool_decide (is_Some err)) ::
            match err with
            | Some _ => spawnErrorActions cur
            | None => []
            end in
          if BreakAfter filterDef then
            (pluginMeta.set_Dropped true trap,
             evalMatch ++ acted ++ counterInc cur pluginMeta.DroppedTraps)
          else (trap, evalMatch ++ acted)
      end
    else (trap, evalMatch).

Fixpoint processTrap_loop (cur : trapmuxConfig) (i : nat)
  (filters : list trapmuxFilter) (trap : pluginMeta.Trap)
  : pluginMeta.Trap * list Event :=
  match filters with
  | [] => (trap, [])
  | filterDef :: rest =>
      let '(trap, evs) := processTrap_turn cur i filterDef trap in
      let '(trap, evs') := processTrap_loop cur (S i) rest trap in
      (trap, evs ++ evs')
  end.

(** [processTrap], as the goroutine of the handler runs it. *)
Definition processTrap (cur : trapmuxConfig) (trap : pluginMeta.Trap)
  : pluginMeta.Trap * list Event :=
  processTrap_loop cur 0 (Filters cur) trap.

(** The body of the goroutine started for entry [j]: the action runs on the
    trap the dispatch works on, and what it returns is dropped. *)
Definition errorAction (cur : trapmuxConfig) (j : nat) (trap : pluginMeta.Trap)
  : pluginMeta.Trap * list Event :=
  match PluginErrorActions cur !! j with
  | Some f =>
      let '(trap, err) := processAction f trap in
      (trap, [EvErrorAction j (bool_decide (is_Some err))])
  | None => (trap, [])
  end.

(** A dispatch with its goroutines: the turns of the loop still to come,
    the goroutines started and not yet run, the trap they all share. *)
Record Dispatch : Type := {
  turns : list (nat * trapmuxFilter);
  started : list nat;
  shared : pluginMeta.Trap;
  done : list Event;
}.

Definition goroutinesOf (evs : list Event) : list nat :=
  omap (fun e => match e with EvGo j => Some j | _ => None end) evs.

(** Either the loop takes its next turn, or any one of the started
    goroutines runs. *)
Inductive step (cur : trapmuxConfig) : Dispatch -> Dispatch -> Prop :=
| step_turn i filterDef rest gs trap evs trap' evs' :
    processTrap_turn cur i filterDef trap = (trap', evs') ->
    step cur
      {| turns := (i, filterDef) :: rest; started := gs; shared := trap; done := evs |}
      {| turns := rest; started := gs ++ goroutinesOf evs'; shared := trap';
         done := evs ++ evs' |}
| step_goroutine ts gs1 j gs2 trap evs trap' evs' :
    errorAction cur j trap = (trap', evs') ->
    step cur
      {| turns := ts; started := gs1 ++ j :: gs2; shared := trap; done := evs |}
      {| turns := ts; started := gs1 ++ gs2; shared := trap'; done := evs ++ evs' |}.

Definition dispatchOf (cur : trapmuxConfig) (trap : pluginMeta.Trap) : Dispatch :=
  {| turns := combine (seq 0 (length (Filters cur))) (Filters cur); started := [];
     shared := trap; done := [] |}.

Definition finished (d : Dispatch) : Prop := turns d = [] /\ started d = [].

(** [trapHandler], called by the listener with the configuration [teConfig]
    points to. *)
Definition trapHandler (cur : trapmuxConfig) (p : g.SnmpPacket) (addr : string)
  (st : Process) : Process :=
  (* Count every trap received *)
  let st := emit (counterInc cur pluginMeta.TrapCount) st in
  let st := set_totalTraps (wrapInt (totalTraps st + 1)) st in
  let st :=
    emit (if (g.Version p =? g.Version1)%Z then counterInc cur pluginMeta.V1Traps
          else if (g.Version p =? g.Version2c)%Z then counterInc cur pluginMeta.V2cTraps
          else if (g.Version p =? g.Version3)%Z then counterInc cur pluginMeta.V3Traps
          else []) st in
  (* First thing to do is check for ignored versions *)
  if isIgnoredVersion cur (g.Version p) then
    emit (counterInc cur pluginMeta.IgnoredTraps) st
  else
    (* Also keep track of traps we handle *)
    let st := emit (counterInc cur pluginMeta.HandledTraps) st in
    let trap :=
      {| pluginMeta.Data_Variables := g.Variables p;
         pluginMeta.Data_Enterprise := g.Enterprise p;
         pluginMeta.Data_AgentAddress := g.AgentAddress p;
         pluginMeta.Data_GenericTrap := g.GenericTrap p;
         pluginMeta.Data_SpecificTrap := g.SpecificTrap p;
         pluginMeta.Data_Timestamp := g.Timestamp p;
         pluginMeta.SrcIP := addr;
         pluginMeta.SnmpVersion := g.Version p;
         pluginMeta.Hostname := General_Hostname cur;
         pluginMeta.TrapNumber := toUint (totalTraps st);
         pluginMeta.Dropped := false |} in
    let st :=
      if String.eqb (Logging_Level cur) "debug"
      then emit [EvLog levelDebug "Raw trap info" None] st
      else st in
    emit (EvProcessTrap trap :: snd (processTrap cur trap)) st.

(** The listener calls the handler once per packet, in the order of arrival. *)
Fixpoint deliver (cur : trapmuxConfig) (packets : list (g.SnmpPacket * string))
  (st : Process) : Process :=
  match packets with
  | [] => st
  | (p, addr) :: rest => deliver cur rest (trapHandler cur p addr st)
  end.

End Dispatch.

(** The sequence numbers of the traps handed to [processTrap], in order. *)
Definition trapNumbers (evs : list Event) : list Z :=
  omap (fun e => match e with
                 | EvProcessTrap t => Some (pluginMeta.TrapNumber t)
                 | _ => None
                 end) evs.

(** The process as the Go runtime starts it. *)
Definition startOfProcess : Process :=
  {| teConfig := None; totalTraps := 0; trace := [] |}.

(** How often [Inc(counter)] reached reporter [r]. *)
Definition isInc (r : nat) (counter : pluginMeta.Counter) (e : Event) : bool :=
  match e with
  | EvInc r' c' => (r' =? r)%nat && bool_decide (c' = counter)
  | _ => false
  end.

Definition counterValue (r : nat) (counter : pluginMeta.Counter) (evs : list Event) : nat :=
  length (List.filter (isInc r counter) evs).

(** The addresses a configuration lists: [ip] stands under [name] in some
    stanza of [ipsets]. *)
Definition listedAddress (c : trapmuxConfig) (name ip : string) : Prop :=
  exists stanza ips,
    In stanza (IpSets_str c) /\ In (name, ips) stanza /\ In ip ips.

(** The versions a list of [ignore_versions] entries names. *)
Definition ignoredBy (tokens : list string) (v : Z) : Prop :=
  exists candidate,
    In candidate tokens /\ versionOfToken (GoStrings.ToLower candidate) = Some v.

(** ** Zero values and sample inputs *)

(** The zero values of the records, as [var newConfig trapmuxConfig] has them. *)
Definition zeroListenerConfig : trapListenerConfig :=
  {| Hostname := ""; ListenAddr := ""; ListenPort := "";
     IgnoreVersions_str := []; IgnoreVersions := [];
     MsgFlags_str := ""; MsgFlags := 0;
     AuthProto_str := ""; AuthProto := 0; AuthPassword := "";
     PrivacyProto_str := ""; PrivacyProto := 0; PrivacyPassword := "" |}.

Definition zeroConfig : trapmuxConfig :=
  {| teConfigured := false; General_PluginPath := ""; General_Hostname := "";
     TrapReceiverSettings := zeroListenerConfig; Logging_Level := "";
     IpSets_str := []; IpSets := ∅; Filters := []; PluginErrorActions := [];
     Reporting := [] |}.

Definition zeroFilter : trapmuxFilter :=
  {| SnmpVersions := []; SourceIp := ""; AgentAddress := "";
     GenericType := 0; SpecificType := 0; EnterpriseOid := "";
     ActionName := ""; ActionArg := ""; ActionArgs := ∅; BreakAfter := false;
     matchAll := false; matchers := []; actionType := actionBreak; plugin := None |}.

(** A listener section that ignores v1 (named twice) and v2c. *)
Definition ignoreV1V2c : trapmuxConfig :=
  set_TrapReceiverSettings
    {| Hostname := "mux"; ListenAddr := "0.0.0.0"; ListenPort := "162";
       IgnoreVersions_str := ["V1"; "2c"; "v1"]; IgnoreVersions := [];
       MsgFlags_str := ""; MsgFlags := 0;
       AuthProto_str := ""; AuthProto := 0; AuthPassword := "";
       PrivacyProto_str := ""; PrivacyProto := 0; PrivacyPassword := "" |}
    zeroConfig.

Definition allVersions : list Z := [g.Version1; g.Version2c; g.Version3].

(** What the three flags of the loop remember about the list built so far. *)
Definition flagsAgree (ignorev1 ignorev2c ignorev3 : bool) (vs : list Z) : Prop :=
  NoDup vs /\ incl vs allVersions /\
  (ignorev1 = true <-> In g.Version1 vs) /\
  (ignorev2c = true <-> In g.Version2c vs) /\
  (ignorev3 = true <-> In g.Version3 vs).

(** The filter [f] with the matchers [new] appended by the assembler. *)
Definition withMatchers (f : trapmuxFilter) (new : list filterObj) : trapmuxFilter :=
  set_matchers (matchers f ++ new)
    (set_matchAll (match new with [] => matchAll f | _ => false end) f).

(** An ipset matcher names a set of the registry. *)
Definition ipsetResolved (ipSets : gmap string IpSet) (m : filterObj) : Prop :=
  filterType m = parseTypeIPSet ->
  exists name, filterValue_ m = valString name /\ is_Some (ipSets !! name).

(** How many matchers the fields of a filter stanza call for: one per listed
    version and one per field that is not a wildcard. *)
Definition wanted (f : trapmuxFilter) : nat :=
  length (SnmpVersions f)
  + (if String.eqb (SourceIp f) EmptyString then 0 else 1)
  + (if String.eqb (AgentAddress f) EmptyString then 0 else 1)
  + (if (GenericType f =? -1)%Z then 0 else 1)
  + (if (SpecificType f =? -1)%Z then 0 else 1)
  + (if String.eqb (EnterpriseOid f) EmptyString then 0 else 1).

(** What binding leaves of a stanza [f] in the filter [f'] built from it. *)
Definition boundFrom (ipSets : gmap string IpSet) (f f' : trapmuxFilter) : Prop :=
  (exists new,
      matchers f' = matchers f ++ new /\
      matchAll f' = match new with [] => true | _ => false end /\
      length new = wanted f /\
      Forall (ipsetResolved ipSets) new) /\
  (GoStrings.HasPrefix (SourceIp f) "ipset:" = true ->
   is_Some (ipSets !! GoStrings.sliceFrom 6 (SourceIp f))) /\
  (GoStrings.HasPrefix (AgentAddress f) "ipset:" = true ->
   is_Some (ipSets !! GoStrings.sliceFrom 6 (AgentAddress f))) /\
  (actionType f' = actionPlugin -> is_Some (plugin f')).


(** A document with one IP set, three filters and one plugin-error filter, and
    the surroundings in which it loads: every secret resolves, every
    expression compiles, every plugin loads and configures. *)
Definition wildcardFilter (action : string) (breakAfter : bool) : trapmuxFilter :=
  {| SnmpVersions := []; SourceIp := ""; AgentAddress := "";
     GenericType := -1; SpecificType := -1; EnterpriseOid := "";
     ActionName := action; ActionArg := ""; ActionArgs := ∅; BreakAfter := breakAfter;
     matchAll := false; matchers := []; actionType := actionBreak; plugin := None |}.

Definition trustedLogFilter : trapmuxFilter :=
  {| SnmpVersions := []; SourceIp := "ipset:trusted"; AgentAddress := "";
     GenericType := -1; SpecificType := -1; EnterpriseOid := "";
     ActionName := "log"; ActionArg := ""; ActionArgs := ∅; BreakAfter := true;
     matchAll := false; matchers := []; actionType := actionBreak; plugin := None |}.

Definition dropV1Filter : trapmuxFilter :=
  {| SnmpVersions := ["v1"]; SourceIp := ""; AgentAddress := "";
     GenericType := -1; SpecificType := -1; EnterpriseOid := "";
     ActionName := "drop"; ActionArg := ""; ActionArgs := ∅; BreakAfter := false;
     matchAll := false; matchers := []; actionType := actionBreak; plugin := None |}.

Definition trustedDocument : trapmuxConfig :=
  {| teConfigured := false; General_PluginPath := "/opt/trapmux/plugins";
     General_Hostname := "mux";
     TrapReceiverSettings :=
       {| Hostname := "mux"; ListenAddr := "0.0.0.0"; ListenPort := "162";
          IgnoreVersions_str := ["v3"]; IgnoreVersions := [];
          MsgFlags_str := "AuthNoPriv"; MsgFlags := 0;
          AuthProto_str := "SHA"; AuthProto := 0; AuthPassword := "secret";
          PrivacyProto_str := ""; PrivacyProto := 0; PrivacyPassword := "" |};
     Logging_Level := "info";
     IpSets_str := [[("trusted"%string, ["1.2.3.4"; "5.6.7.8"]%string)]];
     IpSets := ∅;
     Filters := [trustedLogFilter; dropV1Filter; wildcardFilter "forward" false];
     PluginErrorActions := [wildcardFilter "notify" false];
     Reporting := [] |}.

Definition sampleCommandLine : trapmuxCommandLine :=
  {| configFile := "/opt/trapmux/etc/trapmux.yml"; configFormat := "";
     bindAddr := ""; listenPort := ""; debugMode := false |}.

Definition envServing (document : trapmuxConfig) : Env :=
  {| teCmdLine := sampleCommandLine;
     Getenv := fun _ => EmptyString;
     os_Hostname := Ok "mux"%string;
     Unmarshal := fun _ => Ok document;
     GetSecret := fun s => Ok s;
     MergeSecrets := fun args => args;
     regexp_Compile := fun _ => None;
     newNetwork := fun _ => None;
     LoadActionPlugin := fun _ name => Ok (String.length name);
     Configure := fun _ _ => None;
     Close := fun _ => None;
     LoadMetricPlugin := fun _ name => Ok (String.length name);
     ConfigureMetric := fun _ _ => None |}.

Definition sampleEnv : Env := envServing trustedDocument.

(** The daemon after its first, successful [getConfig]. *)
Definition running : Process := snd (getConfig sampleEnv startOfProcess).

(** The document of [trustedDocument] with a malformed address in its set. *)
Definition brokenDocument : trapmuxConfig :=
  {| teConfigured := false; General_PluginPath := General_PluginPath trustedDocument;
     General_Hostname := General_Hostname trustedDocument;
     TrapReceiverSettings := TrapReceiverSettings trustedDocument;
     Logging_Level := Logging_Level trustedDocument;
     IpSets_str := [[("trusted"%string, ["1.2.3.4"; "1.2.3"]%string)]];
     IpSets := ∅;
     Filters := Filters trustedDocument;
     PluginErrorActions := PluginErrorActions trustedDocument;
     Reporting := [] |}.

(** A listener section asking for authentication and privacy ([AuthPriv])
    while naming no authentication protocol. *)
Definition authPrivWithoutAuth : trapListenerConfig :=
  {| Hostname := "mux"; ListenAddr := "0.0.0.0"; ListenPort := "162";
     IgnoreVersions_str := []; IgnoreVersions := [];
     MsgFlags_str := "AuthPriv"; MsgFlags := 0;
     AuthProto_str := "NoAuth"; AuthProto := 0; AuthPassword := "";
     PrivacyProto_str := "AES"; PrivacyProto := 0; PrivacyPassword := "secret" |}.

(** The handles [closeHandles] calls [Close] on, and the handles the filters
    of a list hold. *)
Definition closedHandles (evs : list Event) : list ActionPlugin :=
  omap (fun e => match e with EvClose p => Some p | _ => None end) evs.

Definition boundPlugins (filters : list trapmuxFilter) : list ActionPlugin :=
  omap (fun f => match actionType f with
                 | actionPlugin => plugin f
                 | _ => None
                 end) filters.

(** The place in the order of arrival of each packet that is not ignored,
    counting from [received] packets already seen. *)
Fixpoint handledPositions (cur : trapmuxConfig) (packets : list (g.SnmpPacket * string))
  (received : Z) : list Z :=
  match packets with
  | [] => []
  | (p, _) :: rest =>
      (if isIgnoredVersion cur (g.Version p) then [] else [(received + 1)%Z]) ++
      handledPositions cur rest (received + 1)
  end.

(** How often the action of a filter failed, and how often the goroutine of
    the plugin-error filter [j] ran. *)
Definition isFailure (e : Event) : bool :=
  match e with EvProcessAction _ true => true | _ => false end.

Definition isErrorAction (j : nat) (e : Event) : bool :=
  match e with EvErrorAction j' _ => (j' =? j)%nat | _ => false end.

Definition failures (evs : list Event) : nat := length (List.filter isFailure evs).

Definition errorActionsRun (j : nat) (evs : list Event) : nat :=
  length (List.filter (isErrorAction j) evs).

(** Sample filter methods: every filter without [matchAll] matches, and the
    action of the forwarder fails. *)
Definition alwaysMatch (f : trapmuxFilter) (trap : pluginMeta.Trap) : bool := true.

Definition forwardFails (f : trapmuxFilter) (trap : pluginMeta.Trap)
  : pluginMeta.Trap * option error :=
  (trap, if String.eqb (ActionName f) "forward" then Some "timeout"%string else None).

Definition samplePacket (version : Z) : g.SnmpPacket * string :=
  ({| g.Version := version; g.Variables := []; g.Enterprise := "1.3.6.1.4.1.9.1.1";
      g.AgentAddress := "192.168.1.5"; g.GenericTrap := 6; g.SpecificTrap := 1;
      g.Timestamp := 0 |}, "10.0.0.1"%string).

Definition sampleTrap : pluginMeta.Trap :=
  {| pluginMeta.Data_Variables := []; pluginMeta.Data_Enterprise := "1.3.6.1.4.1.9.1.1";
     pluginMeta.Data_AgentAddress := "192.168.1.5";
     pluginMeta.Data_GenericTrap := 6; pluginMeta.Data_SpecificTrap := 1;
     pluginMeta.Data_Timestamp := 0; pluginMeta.SrcIP := "10.0.0.1";
     pluginMeta.SnmpVersion := g.Version2c; pluginMeta.Hostname := "mux";
     pluginMeta.TrapNumber := 1; pluginMeta.Dropped := false |}.

(** The configuration [running] has in force, and the same with its filter
    list reversed (the forwarder first). *)
Definition runningConfig : trapmuxConfig := default zeroConfig (teConfig running).

Definition forwardFirst : trapmuxConfig :=
  set_Filters (rev (Filters runningConfig)) runningConfig.

(** How many goroutines for the plugin-error filter [j] wait to run. *)
Definition waiting (j : nat) (gs : list nat) : nat :=
  length (List.filter (fun k => (k =? j)%nat) gs).

(** The goroutines of the plugin-error filter [j] that ran and those that
    still wait add up to one per failed action. *)
Definition balanced (cur : trapmuxConfig) (j : nat) (d : Dispatch) : Prop :=
  errorActionsRun j (done d) + waiting j (started d) = failures (done d) /\
  Forall (fun k => k < length (PluginErrorActions cur)) (started d).

(** A bound on the steps a dispatch has left. *)
Definition remaining (cur : trapmuxConfig) (d : Dispatch) : nat :=
  S (length (PluginErrorActions cur)) * length (turns d) + length (started d).

(** One to three decimal digits. *)
Definition octetText (w : string) : Prop :=
  (exists c1, w = String c1 EmptyString /\ Regexp.isDigit c1 = true) \/
  (exists c1 c2,
      w = String c1 (String c2 EmptyString) /\
      Regexp.isDigit c1 = true /\ Regexp.isDigit c2 = true) \/
  (exists c1 c2 c3,
      w = String c1 (String c2 (String c3 EmptyString)) /\
      Regexp.isDigit c1 = true /\ Regexp.isDigit c2 = true /\ Regexp.isDigit c3 = true).

(** The words of the dotted-quad pattern, spelled out: four groups of one to
    three digits, separated by dots.  The value of a group is not bounded. *)
Definition dottedQuad (s : string) : Prop :=
  exists a b c d,
    s = (a +:+ ".") +:+ (b +:+ ".") +:+ (c +:+ ".") +:+ d /\
    octetText a /\ octetText b /\ octetText c /\ octetText d.

(** The errors [closeHandles] logged at warn level. *)
Definition closeWarnings (evs : list Event) : list error :=
  omap (fun e => match e with EvLog levelWarn _ (Some err) => Some err | _ => None end) evs.

(** An environment in which closing the plugin with handle 3 fails. *)
Definition envCloseFails : Env :=
  {| teCmdLine := sampleCommandLine;
     Getenv := Getenv sampleEnv;
     os_Hostname := os_Hostname sampleEnv;
     Unmarshal := Unmarshal sampleEnv;
     GetSecret := GetSecret sampleEnv;
     MergeSecrets := MergeSecrets sampleEnv;
     regexp_Compile := regexp_Compile sampleEnv;
     newNetwork := newNetwork sampleEnv;
     LoadActionPlugin := LoadActionPlugin sampleEnv;
     Configure := Configure sampleEnv;
     Close := fun p => if (p =? 3)%nat then Some "file already closed"%string else None;
     LoadMetricPlugin := LoadMetricPlugin sampleEnv;
     ConfigureMetric := ConfigureMetric sampleEnv |}.

(** The step of the invariant [flagsAgree] when the loop appends a version
    whose flag was still false. *)
Ltac flags_step :=
  intros (Hnd & Hincl & H1 & H2 & H3); unfold flagsAgree;
  split;
  [ apply NoDup_app; split; [assumption|]; split; [|apply NoDup_singleton];
    intros y Hy Hy'; apply list_elem_of_In in Hy; apply list_elem_of_In in Hy';
    destruct Hy' as [<-|[]]; revert Hy;
    first [rewrite <- H1 | rewrite <- H2 | rewrite <- H3]; discriminate |];
  split; [apply incl_app; [assumption | intros x [<-|[]]; unfold allVersions; simpl; auto] |];
  rewrite !in_app_iff; simpl; unfold g.Version1, g.Version2c, g.Version3 in *;
  repeat split; intros; try tauto;
  try (match goal with H : _ \/ _ |- _ => destruct H as [?|[?|[]]] end; try tauto; try discriminate).

(** ** Settings with several sources *)

(** The first text of a list that is not empty; the empty text if there is
    none. *)
Fixpoint firstNonEmpty (candidates : list string) : string :=
  match candidates with
  | [] => EmptyString
  | s :: rest => if nonEmpty s then s else firstNonEmpty rest
  end.

(** What [os.Hostname()] contributes in [applyCliOverrides]. *)
Definition systemHostname (E : Env) : string :=
  match os_Hostname E with
  | Ok myName => myName
  | Err _ => "_undefined"%string
  end.

(** An environment with the listener variables set, and a command line that
    names an address, a port and debug mode. *)
Definition overridingCommandLine : trapmuxCommandLine :=
  {| configFile := "/opt/trapmux/etc/trapmux.yml"; configFormat := "";
     bindAddr := "127.0.0.1"; listenPort := "1162"; debugMode := true |}.

Definition envOverriding : Env :=
  {| teCmdLine := overridingCommandLine;
     Getenv := fun name =>
       if String.eqb name "TRAPMUX_LISTEN_PORT" then "10162"%string else EmptyString;
     os_Hostname := Err "no hostname"%string;
     Unmarshal := Unmarshal sampleEnv;
     GetSecret := GetSecret sampleEnv;
     MergeSecrets := MergeSecrets sampleEnv;
     regexp_Compile := regexp_Compile sampleEnv;
     newNetwork := newNetwork sampleEnv;
     LoadActionPlugin := LoadActionPlugin sampleEnv;
     Configure := Configure sampleEnv;
     Close := Close sampleEnv;
     LoadMetricPlugin := LoadMetricPlugin sampleEnv;
     ConfigureMetric := ConfigureMetric sampleEnv |}.

(** ** The registry of IP sets *)

(** The addresses listed under [name] at the place where the document names
    it last, if it names it at all. *)
Fixpoint lastListing (name : string) (entries : list (string * list string))
  : option (list string) :=
  match entries with
  | [] => None
  | (ipsName, ips) :: rest =>
      match lastListing name rest with
      | Some later => Some later
      | None => if String.eqb ipsName name then Some ips else None
      end
  end.

(** The set [addIpSets] fills for a list of addresses, starting from [start]. *)
Definition membersFrom (start : IpSet) (ips : list string) : IpSet :=
  foldl (fun s ip => <[ip := true]> s) start ips.

(** A document that lists the set [lab] twice, in two stanzas. *)
Definition listedTwice : trapmuxConfig :=
  {| teConfigured := false; General_PluginPath := ""; General_Hostname := "";
     TrapReceiverSettings := zeroListenerConfig; Logging_Level := "";
     IpSets_str := [[("lab"%string, ["10.0.0.1"; "10.0.0.2"]%string)];
                    [("lab"%string, ["10.0.0.3"]%string)]];
     IpSets := ∅; Filters := []; PluginErrorActions := []; Reporting := [] |}.

(** ** What binding leaves in a filter *)

(** The action [setAction] chose for the stanza [filter], as it stands in the
    filter [built] from it: the kind follows the name, a [nat] filter holds
    its target, a plugin filter holds the handle [LoadActionPlugin] returned
    for the name, configured with the arguments after [MergeSecrets]. *)
Definition actionBound (E : Env) (pluginPathExpr : string)
  (filter built : trapmuxFilter) : Prop :=
  ActionName built = ActionName filter /\
  match actionType built with
  | actionBreak => In (ActionName filter) ["break"; "drop"]%string
  | actionNat =>
      ActionName filter = "nat"%string /\
      ActionArgs filter !! "natIp"%string = Some (ActionArg built) /\
      ActionArg built <> EmptyString
  | actionPlugin =>
      ~ In (ActionName filter) ["break"; "drop"; "nat"]%string /\
      exists p,
        plugin built = Some p /\
        LoadActionPlugin E pluginPathExpr (ActionName filter) = Ok p /\
        ActionArgs built = MergeSecrets E (ActionArgs filter) /\
        Configure E p (ActionArgs built) = None
  end.

(** A matcher whose value has the dynamic type its kind announces: what the
    type assertions of the matching code rely on. *)
Definition matcherOk (E : Env) (ipSets : gmap string IpSet) (m : filterObj) : Prop :=
  match filterItem_ m with
  | filterByVersion =>
      filterType m = parseTypeInt /\
      exists v, filterValue_ m = valVersion v /\ In v allVersions
  | filterBySrcIP | filterByAgentAddr =>
      match filterType m with
      | parseTypeIPSet =>
          exists name, filterValue_ m = valString name /\ is_Some (ipSets !! name)
      | parseTypeRegex =>
          exists expr, filterValue_ m = valRegexp expr /\ regexp_Compile E expr = None
      | parseTypeCIDR =>
          exists cidr, filterValue_ m = valNetwork cidr /\ newNetwork E cidr = None
      | parseTypeString =>
          exists address, filterValue_ m = valString address
      | _ => False
      end
  | filterByGenericType | filterBySpecificType =>
      filterType m = parseTypeInt /\
      exists n, filterValue_ m = valInt n /\ n <> (-1)%Z
  | filterByOid =>
      filterType m = parseTypeRegex /\
      exists expr, filterValue_ m = valRegexp expr /\ regexp_Compile E expr = None
  end.

(** A stanza that rewrites the agent address. *)
Definition natFilter : trapmuxFilter :=
  {| SnmpVersions := ["2c"]; SourceIp := "/^10\."; AgentAddress := "192.168.0.0/16";
     GenericType := 6; SpecificType := -1; EnterpriseOid := "^1\.3\.6\.1\.4\.1\.9";
     ActionName := "nat"; ActionArg := "";
     ActionArgs := {["natIp"%string := "172.16.0.1"%string]}; BreakAfter := false;
     matchAll := false; matchers := []; actionType := actionBreak; plugin := None |}.

(** The document of [trustedDocument] with that stanza put first. *)
Definition natDocument : trapmuxConfig :=
  set_Filters (natFilter :: Filters trustedDocument) trustedDocument.

(** A stanza naming an SNMP version that does not exist. *)
Definition v9Filter : trapmuxFilter :=
  {| SnmpVersions := ["v9"]; SourceIp := ""; AgentAddress := "";
     GenericType := -1; SpecificType := -1; EnterpriseOid := "";
     ActionName := "drop"; ActionArg := ""; ActionArgs := ∅; BreakAfter := false;
     matchAll := false; matchers := []; actionType := actionBreak; plugin := None |}.

(** ** The log-rotation signal *)

(** What [handleSIGUSR2] does on a signal: the lines it logs and the calls
    [f.plugin.(pluginLoader.ActionPlugin).SigUsr2()] it makes. *)
Inductive SignalEvent : Type :=
| SigLog (level : logLevel) (msg : string) (err : option error)
| SigUsr2 (p : ActionPlugin).

Section Signals.

(** [SigUsr2()] of an action plugin: the error it returns, if any. *)
Variable plugin_SigUsr2 : ActionPlugin -> option error.

(** The loop of [handleSIGUSR2] over [teConfig.Filters]: what it did and
    whether it came to its end (the type assertion on the nil interface of a
    plugin filter without a handle panics). *)
Fixpoint handleSIGUSR2_loop (filters : list trapmuxFilter) : list SignalEvent * bool :=
  match filters with
  | [] => ([], true)
  | f :: rest =>
      match actionType f with
      | actionPlugin =>
          match plugin f with
          | None => ([], false)
          | Some p =>
              let warn :=
                match plugin_SigUsr2 p with
                | Some err => [SigLog levelWarn "Issue handling action" (Some err)]
                | None => []
                end in
              let '(evs, finished) := handleSIGUSR2_loop rest in
              (SigUsr2 p :: warn ++ evs, finished)
          end
      | _ => handleSIGUSR2_loop rest
      end
  end.

(** One turn of the loop of [handleSIGUSR2]: a signal was received. *)
Definition handleSIGUSR2 (st : Process) : outcome unit * list SignalEvent :=
  let got := SigLog levelInfo "Got SIGUSR2" None in
  match teConfig st with
  | None => (Panicked, [got])
  | Some cur =>
      let '(evs, finished) := handleSIGUSR2_loop (Filters cur) in
      (if finished then Done tt else Panicked, got :: evs)
  end.

End Signals.

(** The handles a signal reached, and the errors logged for it. *)
Definition signalledHandles (evs : list SignalEvent) : list ActionPlugin :=
  omap (fun e => match e with SigUsr2 p => Some p | _ => None end) evs.

Definition signalWarnings (evs : list SignalEvent) : list error :=
  omap (fun e => match e with SigLog levelWarn _ (Some err) => Some err | _ => None end) evs.

(** A plugin host in which the plugin with handle 7 cannot rotate its log. *)
Definition rotateFails (p : ActionPlugin) : option error :=
  if (p =? 7)%nat then Some "read-only file system"%string else None.

(** ** A document with a reporting section *)

Definition reportingDocument : trapmuxConfig :=
  set_Reporting [{| PluginName := "prometheus"; Args := ∅ |}] trustedDocument.

(** ** Counting packets *)

(** How many of the packets satisfy [P]. *)
Definition countPackets (P : g.SnmpPacket -> bool)
  (packets : list (g.SnmpPacket * string)) : nat :=
  length (List.filter (fun pa => P (fst pa)) packets).

(** A configuration with two reporters, ignoring v3, whose only filter drops
    everything. *)
Definition dropAll : trapmuxConfig :=
  {| teConfigured := true; General_PluginPath := ""; General_Hostname := "mux";
     TrapReceiverSettings := set_IgnoreVersions [g.Version3] zeroListenerConfig;
     Logging_Level := "info"; IpSets_str := []; IpSets := ∅;
     Filters := [set_matchAll true (wildcardFilter "drop" false)];
     PluginErrorActions := [];
     Reporting := [{| PluginName := "prometheus"; Args := ∅ |};
                   {| PluginName := "statsd"; Args := ∅ |}] |}.

(** ** Package [strconv] *)

Module strconv.

(** The value of a text of decimal digits, continuing from [acc]; nothing if
    a byte is no digit. *)
Fixpoint digitsValue (acc : Z) (s : string) : option Z :=
  match s with
  | EmptyString => Some acc
  | String c rest =>
      if Regexp.isDigit c
      then digitsValue (acc * 10 + (Z.of_nat (nat_of_ascii c) - 48)) rest
      else None
  end.

(** [strconv.Atoi]: an optional sign and at least one decimal digit, the
    value within the 64 bits of [int]; [None] is any of its errors. *)
Definition Atoi (s : string) : option Z :=
  let '(negative, digits) :=
    match s with
    | String "-"%char rest => (true, rest)
    | String "+"%char rest => (false, rest)
    | _ => (false, s)
    end in
  match digits with
  | EmptyString => None
  | _ =>
      match digitsValue 0 digits with
      | Some n =>
          let z := if negative then (- n)%Z else n in
          if ((- 2 ^ 63 <=? z) && (z <=? 2 ^ 63 - 1))%Z then Some z else None
      | None => None
      end
  end.

End strconv.

(** ** The capture plugin *)

Module capture.

(** [type trapCapture struct], without the logger it keeps. *)
Record trapCapture : Type := {
  dir : string;
  fileExpr : string;
  fileFormat : string;
  counter : Z;
}.

Definition pluginName : string := "trap capture".

(** The keys of [validArgs]. *)
Definition validArgs : list string := ["dir"; "file_expr"; "format"]%string.

(** [validateArguments], over the keys of [actionArgs] in the order [range]
    visits them. *)
Fixpoint validateArguments (visit : list string) : option error :=
  match visit with
  | [] => None
  | key :: rest =>
      if oneOf key validArgs then validateArguments rest
      else Some ("Unrecognized option to " +:+ pluginName +:+ " plugin: " +:+ key)
  end.

(** [Configure]: the plugin as the call leaves it, the error it returns and
    the messages it logs. *)
Definition Configure (visit : list string) (a : trapCapture)
  (actionArgs : gmap string string) : trapCapture * option error * list string :=
  let started := "Initialization of plugin"%string in
  match validateArguments visit with
  | Some err => (a, Some err, [started])
  | None =>
      let lookup key := default EmptyString (actionArgs !! key) in
      let expr := lookup "file_expr"%string in
      let format := lookup "format"%string in
      ({| dir := lookup "dir"%string;
          (* If we don't get a file_expr, use a hard-coded name *)
          fileExpr := if String.eqb expr EmptyString then "captureFile" else expr;
          fileFormat := if String.eqb format EmptyString then "gob" else format;
          counter := counter a |},
       None, [started; "Added capture destination"%string])
  end.

Definition makeCaptureFilename (dir_ fileExpr_ format : string) (counter_ : Z) : string :=
  dir_ +:+ "/" +:+ fileExpr_ +:+ ("-" +:+ fmt_int counter_ +:+ "." +:+ format).

Section Saving.

(** [saveCaptureGob]: creating the file and encoding the trap into it. *)
Variable saveCaptureGob : string -> pluginMeta.Trap -> option error.

(** [ProcessTrap]: the plugin as the call leaves it, the error it returns and
    the file it wrote to, if it came to write. *)
Definition ProcessTrap (a : trapCapture) (trap : pluginMeta.Trap)
  : trapCapture * option error * option string :=
  let filename := makeCaptureFilename (dir a) (fileExpr a) (fileFormat a) (counter a) in
  if oneOf (fileFormat a) ["gob"; ""]%string then
    ({| dir := dir a; fileExpr := fileExpr a; fileFormat := fileFormat a;
        counter := wrapInt (counter a + 1) |},
     saveCaptureGob filename trap, Some filename)
  else
    (a, Some ("Unknown file format '" +:+ fileFormat a +:+ "'"), None).

(** The plugin called with one trap after the other: the files written to, in
    order, and the plugin at the end. *)
Fixpoint captureAll (a : trapCapture) (traps : list pluginMeta.Trap)
  : list string * trapCapture :=
  match traps with
  | [] => ([], a)
  | trap :: rest =>
      let '(a', _, written) := ProcessTrap a trap in
      let '(files, final) := captureAll a' rest in
      (match written with Some f => f :: files | None => files end, final)
  end.

End Saving.

(** The zero value [var ActionPlugin trapCapture]. *)
Definition ActionPlugin : trapCapture :=
  {| dir := ""; fileExpr := ""; fileFormat := ""; counter := 0 |}.

End capture.

(** ** The forwarding plugin *)

Module forward.

(** The fields of [g.GoSNMP] that [Configure] sets. *)
Record GoSNMP : Type := {
  Target : string;
  Port : Z;
  Transport : string;
  Community : string;
  Version : Z;
  Timeout_seconds : Z;
  Retries : Z;
  ExponentialTimeout : bool;
  MaxOids : Z;
}.

(** [type trapForwarder struct], without the logger it keeps; [None] is the
    nil pointer. *)
Record trapForwarder : Type := {
  destination : option GoSNMP;
}.

Section Connecting.

(** The constant [g.MaxOids]. *)
Variable g_MaxOids : Z.

(** [a.destination.Connect()] *)
Variable Connect : GoSNMP -> option error.

(** [Configure]: how the call ends and the plugin as it leaves it. *)
Definition Configure (a : trapForwarder) (actionArgs : gmap string string)
  : outcome unit * trapForwarder :=
  let hostname := default EmptyString (actionArgs !! "hostname"%string) in
  let port_str := default EmptyString (actionArgs !! "port"%string) in
  match strconv.Atoi port_str with
  | None => (Panicked, a)
  | Some port =>
      let target :=
        {| Target := hostname;
           (* uint16(port) *)
           Port := (port mod 2 ^ 16)%Z;
           Transport := "udp"; Community := ""; Version := g.Version1;
           Timeout_seconds := 2; Retries := 3; ExponentialTimeout := true;
           MaxOids := g_MaxOids |} in
      let a := {| destination := Some target |} in
      match Connect target with
      | Some err => (Failed err, a)
      | None => (Done tt, a)
      end
  end.

End Connecting.

End forward.

(** Arguments for the capture plugin, with a format it cannot write. *)
Definition captureAsJson : gmap string string :=
  {["dir"%string := "/var/spool/traps"%string; "format"%string := "json"%string]}.

Definition freshTrap (n : Z) : pluginMeta.Trap :=
  {| pluginMeta.Data_Variables := []; pluginMeta.Data_Enterprise := "";
     pluginMeta.Data_AgentAddress := ""; pluginMeta.Data_GenericTrap := 0;
     pluginMeta.Data_SpecificTrap := 0; pluginMeta.Data_Timestamp := 0;
     pluginMeta.SrcIP := ""; pluginMeta.SnmpVersion := g.Version2c;
     pluginMeta.Hostname := ""; pluginMeta.TrapNumber := n;
     pluginMeta.Dropped := false |}.

(** Arguments for the forwarding plugin with a port beyond 16 bits, and a
    destination that always connects. *)
Definition forwardBeyond : gmap string string :=
  {["hostname"%string := "nms.example.net"%string; "port"%string := "65698"%string]}.

Definition connects (target : forward.GoSNMP) : option error := None.

(** ** The daemon at work *)

(** Every plugin filter of the filter list holds a handle. *)
Definition handlesBound (cur : trapmuxConfig) : Prop :=
  Forall (fun f => actionType f = actionPlugin -> is_Some (plugin f)) (Filters cur).

(** [teConfig] designates a configuration that [getConfig] published. *)
Definition serving (st : Process) : Prop :=
  exists cur, teConfig st = Some cur /\ teConfigured cur = true /\ handlesBound cur.

(** What the daemon does once [main] has loaded a configuration: it reloads
    on SIGHUP, whatever the document then holds, and it hands each packet to
    [trapHandler] under the configuration in force.  A reload that ends the
    process is no step. *)
Inductive daemonStep : Process -> Process -> Prop :=
| daemon_reload (E : Env) (st st' : Process) :
    handleSIGHUP E st = (Done tt, st') -> daemonStep st st'
| daemon_trap (isFilterMatch : trapmuxFilter -> pluginMeta.Trap -> bool)
    (processAction : trapmuxFilter -> pluginMeta.Trap -> pluginMeta.Trap * option error)
    (cur : trapmuxConfig) (p : g.SnmpPacket) (addr : string) (st : Process) :
    teConfig st = Some cur ->
    daemonStep st (trapHandler isFilterMatch processAction cur p addr st).

(** The filters whose matchers a dispatch evaluated and those whose action it
    invoked, by position, in the order of the trace. *)
Definition evaluatedOn (evs : list Event) : list nat :=
  omap (fun e => match e with EvIsFilterMatch i => Some i | _ => None end) evs.

Definition actedOn (evs : list Event) : list nat :=
  omap (fun e => match e with EvProcessAction i _ => Some i | _ => None end) evs.

(** ** Package [strings], continued, and [strconv.ParseUint] *)

(** [strings.Join(elems, sep)] *)
Fixpoint strings_Join (elems : list string) (sep : string) : string :=
  match elems with
  | [] => EmptyString
  | [last] => last
  | first :: rest => first +:+ sep +:+ strings_Join rest sep
  end.

(** [strings.Split(s, sep)] for a separator of one byte. *)
Fixpoint strings_Split (s : string) (sep : ascii) : list string :=
  match s with
  | EmptyString => [EmptyString]
  | String c rest =>
      if Ascii.eqb c sep then EmptyString :: strings_Split rest sep
      else
        match strings_Split rest sep with
        | first :: others => String c first :: others
        | [] => [String c EmptyString]
        end
  end.

(** [strconv.ParseUint(s, 10, 16)]: at least one decimal digit and nothing
    else, the value within 16 bits; [None] is any of its errors. *)
Definition strconv_ParseUint16 (s : string) : option Z :=
  match s with
  | EmptyString => None
  | _ =>
      match strconv.digitsValue 0 s with
      | Some n => if (n <=? 65535)%Z then Some n else None
      | None => None
      end
  end.

(** ** The line-oriented configuration of trapex *)

Module trapex.

(** Modelled from the spec: the constants of [trapexFilter.actionType] are
    declared outside the sources; these are the ones [processFilterLine] and
    [closeTrapexHandles] name. *)
Inductive actionKind : Type :=
| actionBreak
| actionNat
| actionForward
| actionForwardBreak
| actionLog
| actionLogBreak
| actionCsv
| actionCsvBreak.

(** Modelled from the spec: what [trapexFilter.action] can point to, a
    [trapForwarder], a [trapLogger] or a [trapCsvLogger], each known by the
    argument its [initAction] was given. *)
Inductive actionHandle : Type :=
| forwarderOf (actionArg : string)
| loggerOf (actionArg : string)
| csvLoggerOf (actionArg : string).

(** Modelled from the spec: the declaration of [trapexFilter] is not among
    the sources; these are the fields [processFilterLine] sets. *)
Record trapexFilter : Type := {
  matchAll : bool;
  filterItems : list filterObj;
  actionType : actionKind;
  actionArg : string;
  action : option actionHandle;
}.

(** [type v3Params struct] *)
Record v3Params : Type := {
  MsgFlags : string;
  msgFlags : Z;
  Username : string;
  AuthProto : string;
  authProto : Z;
  AuthPassword : string;
  PrivacyProto : string;
  privacyProto : Z;
  PrivacyPassword : string;
}.

Definition set_msgFlags (v : Z) (c : v3Params) : v3Params :=
  {| MsgFlags := MsgFlags c; msgFlags := v; Username := Username c;
     AuthProto := AuthProto c; authProto := authProto c;
     AuthPassword := AuthPassword c; PrivacyProto := PrivacyProto c;
     privacyProto := privacyProto c; PrivacyPassword := PrivacyPassword c |}.

Definition set_Username (v : string) (c : v3Params) : v3Params :=
  {| MsgFlags := MsgFlags c; msgFlags := msgFlags c; Username := v;
     AuthProto := AuthProto c; authProto := authProto c;
     AuthPassword := AuthPassword c; PrivacyProto := PrivacyProto c;
     privacyProto := privacyProto c; PrivacyPassword := PrivacyPassword c |}.

Definition set_authProto (v : Z) (c : v3Params) : v3Params :=
  {| MsgFlags := MsgFlags c; msgFlags := msgFlags c; Username := Username c;
     AuthProto := AuthProto c; authProto := v; AuthPassword := AuthPassword c;
     PrivacyProto := PrivacyProto c; privacyProto := privacyProto c;
     PrivacyPassword := PrivacyPassword c |}.

Definition set_AuthPassword (v : string) (c : v3Params) : v3Params :=
  {| MsgFlags := MsgFlags c; msgFlags := msgFlags c; Username := Username c;
     AuthProto := AuthProto c; authProto := authProto c; AuthPassword := v;
     PrivacyProto := PrivacyProto c; privacyProto := privacyProto c;
     PrivacyPassword := PrivacyPassword c |}.

Definition set_privacyProto (v : Z) (c : v3Params) : v3Params :=
  {| MsgFlags := MsgFlags c; msgFlags := msgFlags c; Username := Username c;
     AuthProto := AuthProto c; authProto := authProto c;
     AuthPassword := AuthPassword c; PrivacyProto := PrivacyProto c; privacyProto := v;
     PrivacyPassword := PrivacyPassword c |}.

Definition set_PrivacyPassword (v : string) (c : v3Params) : v3Params :=
  {| MsgFlags := MsgFlags c; msgFlags := msgFlags c; Username := Username c;
     AuthProto := AuthProto c; authProto := authProto c;
     AuthPassword := AuthPassword c; PrivacyProto := PrivacyProto c;
     privacyProto := privacyProto c; PrivacyPassword := v |}.

(** [type trapexConfig struct], the anonymous structs [General] and [Logging]
    flattened. *)
Record trapexConfig : Type := {
  teConfigured : bool;
  runLogFile : string;
  configFile : string;
  General_Hostname : string;
  General_ListenAddr : string;
  General_ListenPort : string;
  General_IgnoreVersions : list string;
  General_ignoreVersions : list Z;
  General_PrometheusIp : string;
  General_PrometheusPort : string;
  General_PrometheusEndpoint : string;
  Logging_Level : string;
  Logging_LogMaxSize : Z;
  Logging_LogMaxBackups : Z;
  Logging_LogMaxAge : Z;
  Logging_LogCompress : bool;
  V3Params : v3Params;
  IpSets : list (list (string * list string));
  ipSets : gmap string (gmap string bool);
  RawFilters : list string;
  filters : list trapexFilter;
}.

Definition set_General_Hostname (v : string) (c : trapexConfig) : trapexConfig :=
  {| teConfigured := teConfigured c; runLogFile := runLogFile c;
     configFile := configFile c; General_Hostname := v;
     General_ListenAddr := General_ListenAddr c;
     General_ListenPort := General_ListenPort c;
     General_IgnoreVersions := General_IgnoreVersions c;
     General_ignoreVersions := General_ignoreVersions c;
     General_PrometheusIp := General_PrometheusIp c;
     General_PrometheusPort := General_PrometheusPort c;
     General_PrometheusEndpoint := General_PrometheusEndpoint c;
     Logging_Level := Logging_Level c; Logging_LogMaxSize := Logging_LogMaxSize c;
     Logging_LogMaxBackups := Logging_LogMaxBackups c;
     Logging_LogMaxAge := Logging_LogMaxAge c;
     Logging_LogCompress := Logging_LogCompress c; V3Params := V3Params c;
     IpSets := IpSets c; ipSets := ipSets c; RawFilters := RawFilters c;
     filters := filters c |}.

Definition set_General_ListenAddr (v : string) (c : trapexConfig) : trapexConfig :=
  {| teConfigured := teConfigured c; runLogFile := runLogFile c;
     configFile := configFile c; General_Hostname := General_Hostname c;
     General_ListenAddr := v; General_ListenPort := General_ListenPort c;
     General_IgnoreVersions := General_IgnoreVersions c;
     General_ignoreVersions := General_ignoreVersions c;
     General_PrometheusIp := General_PrometheusIp c;
     General_PrometheusPort := General_PrometheusPort c;
     General_PrometheusEndpoint := General_PrometheusEndpoint c;
     Logging_Level := Logging_Level c; Logging_LogMaxSize := Logging_LogMaxSize c;
     Logging_LogMaxBackups := Logging_LogMaxBackups c;
     Logging_LogMaxAge := Logging_LogMaxAge c;
     Logging_LogCompress := Logging_LogCompress c; V3Params := V3Params c;
     IpSets := IpSets c; ipSets := ipSets c; RawFilters := RawFilters c;
     filters := filters c |}.

Definition set_General_ListenPort (v : string) (c : trapexConfig) : trapexConfig :=
  {| teConfigured := teConfigured c; runLogFile := runLogFile c;
     configFile := configFile c; General_Hostname := General_Hostname c;
     General_ListenAddr := General_ListenAddr c; General_ListenPort := v;
     General_IgnoreVersions := General_IgnoreVersions c;
     General_ignoreVersions := General_ignoreVersions c;
     General_PrometheusIp := General_PrometheusIp c;
     General_PrometheusPort := General_PrometheusPort c;
     General_PrometheusEndpoint := General_PrometheusEndpoint c;
     Logging_Level := Logging_Level c; Logging_LogMaxSize := Logging_LogMaxSize c;
     Logging_LogMaxBackups := Logging_LogMaxBackups c;
     Logging_LogMaxAge := Logging_LogMaxAge c;
     Logging_LogCompress := Logging_LogCompress c; V3Params := V3Params c;
     IpSets := IpSets c; ipSets := ipSets c; RawFilters := RawFilters c;
     filters := filters c |}.

Definition set_General_ignoreVersions (v : list Z) (c : trapexConfig) : trapexConfig :=
  {| teConfigured := teConfigured c; runLogFile := runLogFile c;
     configFile := configFile c; General_Hostname := General_Hostname c;
     General_ListenAddr := General_ListenAddr c;
     General_ListenPort := General_ListenPort c;
     General_IgnoreVersions := General_IgnoreVersions c; General_ignoreVersions := v;
     General_PrometheusIp := General_PrometheusIp c;
     General_PrometheusPort := General_PrometheusPort c;
     General_PrometheusEndpoint := General_PrometheusEndpoint c;
     Logging_Level := Logging_Level c; Logging_LogMaxSize := Logging_LogMaxSize c;
     Logging_LogMaxBackups := Logging_LogMaxBackups c;
     Logging_LogMaxAge := Logging_LogMaxAge c;
     Logging_LogCompress := Logging_LogCompress c; V3Params := V3Params c;
     IpSets := IpSets c; ipSets := ipSets c; RawFilters := RawFilters c;
     filters := filters c |}.

Definition set_General_PrometheusIp (v : string) (c : trapexConfig) : trapexConfig :=
  {| teConfigured := teConfigured c; runLogFile := runLogFile c;
     configFile := configFile c; General_Hostname := General_Hostname c;
     General_ListenAddr := General_ListenAddr c;
     General_ListenPort := General_ListenPort c;
     General_IgnoreVersions := General_IgnoreVersions c;
     General_ignoreVersions := General_ignoreVersions c; General_PrometheusIp := v;
     General_PrometheusPort := General_PrometheusPort c;
     General_PrometheusEndpoint := General_PrometheusEndpoint c;
     Logging_Level := Logging_Level c; Logging_LogMaxSize := Logging_LogMaxSize c;
     Logging_LogMaxBackups := Logging_LogMaxBackups c;
     Logging_LogMaxAge := Logging_LogMaxAge c;
     Logging_LogCompress := Logging_LogCompress c; V3Params := V3Params c;
     IpSets := IpSets c; ipSets := ipSets c; RawFilters := RawFilters c;
     filters := filters c |}.

Definition set_General_PrometheusPort (v : string) (c : trapexConfig) : trapexConfig :=
  {| teConfigured := teConfigured c; runLogFile := runLogFile c;
     configFile := configFile c; General_Hostname := General_Hostname c;
     General_ListenAddr := General_ListenAddr c;
     General_ListenPort := General_ListenPort c;
     General_IgnoreVersions := General_IgnoreVersions c;
     General_ignoreVersions := General_ignoreVersions c;
     General_PrometheusIp := General_PrometheusIp c; General_PrometheusPort := v;
     General_PrometheusEndpoint := General_PrometheusEndpoint c;
     Logging_Level := Logging_Level c; Logging_LogMaxSize := Logging_LogMaxSize c;
     Logging_LogMaxBackups := Logging_LogMaxBackups c;
     Logging_LogMaxAge := Logging_LogMaxAge c;
     Logging_LogCompress := Logging_LogCompress c; V3Params := V3Params c;
     IpSets := IpSets c; ipSets := ipSets c; RawFilters := RawFilters c;
     filters := filters c |}.

Definition set_General_PrometheusEndpoint (v : string) (c : trapexConfig) : trapexConfig :=
  {| teConfigured := teConfigured c; runLogFile := runLogFile c;
     configFile := configFile c; General_Hostname := General_Hostname c;
     General_ListenAddr := General_ListenAddr c;
     General_ListenPort := General_ListenPort c;
     General_IgnoreVersions := General_IgnoreVersions c;
     General_ignoreVersions := General_ignoreVersions c;
     General_PrometheusIp := General_PrometheusIp c;
     General_PrometheusPort := General_PrometheusPort c;
     General_PrometheusEndpoint := v; Logging_Level := Logging_Level c;
     Logging_LogMaxSize := Logging_LogMaxSize c;
     Logging_LogMaxBackups := Logging_LogMaxBackups c;
     Logging_LogMaxAge := Logging_LogMaxAge c;
     Logging_LogCompress := Logging_LogCompress c; V3Params := V3Params c;
     IpSets := IpSets c; ipSets := ipSets c; RawFilters := RawFilters c;
     filters := filters c |}.

Definition set_Logging_Level (v : string) (c : trapexConfig) : trapexConfig :=
  {| teConfigured := teConfigured c; runLogFile := runLogFile c;
     configFile := configFile c; General_Hostname := General_Hostname c;
     General_ListenAddr := General_ListenAddr c;
     General_ListenPort := General_ListenPort c;
     General_IgnoreVersions := General_IgnoreVersions c;
     General_ignoreVersions := General_ignoreVersions c;
     General_PrometheusIp := General_PrometheusIp c;
     General_PrometheusPort := General_PrometheusPort c;
     General_PrometheusEndpoint := General_PrometheusEndpoint c; Logging_Level := v;
     Logging_LogMaxSize := Logging_LogMaxSize c;
     Logging_LogMaxBackups := Logging_LogMaxBackups c;
     Logging_LogMaxAge := Logging_LogMaxAge c;
     Logging_LogCompress := Logging_LogCompress c; V3Params := V3Params c;
     IpSets := IpSets c; ipSets := ipSets c; RawFilters := RawFilters c;
     filters := filters c |}.

Definition set_Logging_LogMaxSize (v : Z) (c : trapexConfig) : trapexConfig :=
  {| teConfigured := teConfigured c; runLogFile := runLogFile c;
     configFile := configFile c; General_Hostname := General_Hostname c;
     General_ListenAddr := General_ListenAddr c;
     General_ListenPort := General_ListenPort c;
     General_IgnoreVersions := General_IgnoreVersions c;
     General_ignoreVersions := General_ignoreVersions c;
     General_PrometheusIp := General_PrometheusIp c;
     General_PrometheusPort := General_PrometheusPort c;
     General_PrometheusEndpoint := General_PrometheusEndpoint c;
     Logging_Level := Logging_Level c; Logging_LogMaxSize := v;
     Logging_LogMaxBackups := Logging_LogMaxBackups c;
     Logging_LogMaxAge := Logging_LogMaxAge c;
     Logging_LogCompress := Logging_LogCompress c; V3Params := V3Params c;
     IpSets := IpSets c; ipSets := ipSets c; RawFilters := RawFilters c;
     filters := filters c |}.

Definition set_Logging_LogMaxBackups (v : Z) (c : trapexConfig) : trapexConfig :=
  {| teConfigured := teConfigured c; runLogFile := runLogFile c;
     configFile := configFile c; General_Hostname := General_Hostname c;
     General_ListenAddr := General_ListenAddr c;
     General_ListenPort := General_ListenPort c;
     General_IgnoreVersions := General_IgnoreVersions c;
     General_ignoreVersions := General_ignoreVersions c;
     General_PrometheusIp := General_PrometheusIp c;
     General_PrometheusPort := General_PrometheusPort c;
     General_PrometheusEndpoint := General_PrometheusEndpoint c;
     Logging_Level := Logging_Level c; Logging_LogMaxSize := Logging_LogMaxSize c;
     Logging_LogMaxBackups := v; Logging_LogMaxAge := Logging_LogMaxAge c;
     Logging_LogCompress := Logging_LogCompress c; V3Params := V3Params c;
     IpSets := IpSets c; ipSets := ipSets c; RawFilters := RawFilters c;
     filters := filters c |}.

Definition set_Logging_LogCompress (v : bool) (c : trapexConfig) : trapexConfig :=
  {| teConfigured := teConfigured c; runLogFile := runLogFile c;
     configFile := configFile c; General_Hostname := General_Hostname c;
     General_ListenAddr := General_ListenAddr c;
     General_ListenPort := General_ListenPort c;
     General_IgnoreVersions := General_IgnoreVersions c;
     General_ignoreVersions := General_ignoreVersions c;
     General_PrometheusIp := General_PrometheusIp c;
     General_PrometheusPort := General_PrometheusPort c;
     General_PrometheusEndpoint := General_PrometheusEndpoint c;
     Logging_Level := Logging_Level c; Logging_LogMaxSize := Logging_LogMaxSize c;
     Logging_LogMaxBackups := Logging_LogMaxBackups c;
     Logging_LogMaxAge := Logging_LogMaxAge c; Logging_LogCompress := v;
     V3Params := V3Params c; IpSets := IpSets c; ipSets := ipSets c;
     RawFilters := RawFilters c; filters := filters c |}.

Definition set_V3Params (v : v3Params) (c : trapexConfig) : trapexConfig :=
  {| teConfigured := teConfigured c; runLogFile := runLogFile c;
     configFile := configFile c; General_Hostname := General_Hostname c;
     General_ListenAddr := General_ListenAddr c;
     General_ListenPort := General_ListenPort c;
     General_IgnoreVersions := General_IgnoreVersions c;
     General_ignoreVersions := General_ignoreVersions c;
     General_PrometheusIp := General_PrometheusIp c;
     General_PrometheusPort := General_PrometheusPort c;
     General_PrometheusEndpoint := General_PrometheusEndpoint c;
     Logging_Level := Logging_Level c; Logging_LogMaxSize := Logging_LogMaxSize c;
     Logging_LogMaxBackups := Logging_LogMaxBackups c;
     Logging_LogMaxAge := Logging_LogMaxAge c;
     Logging_LogCompress := Logging_LogCompress c; V3Params := v; IpSets := IpSets c;
     ipSets := ipSets c; RawFilters := RawFilters c; filters := filters c |}.

Definition set_filters (v : list trapexFilter) (c : trapexConfig) : trapexConfig :=
  {| teConfigured := teConfigured c; runLogFile := runLogFile c;
     configFile := configFile c; General_Hostname := General_Hostname c;
     General_ListenAddr := General_ListenAddr c;
     General_ListenPort := General_ListenPort c;
     General_IgnoreVersions := General_IgnoreVersions c;
     General_ignoreVersions := General_ignoreVersions c;
     General_PrometheusIp := General_PrometheusIp c;
     General_PrometheusPort := General_PrometheusPort c;
     General_PrometheusEndpoint := General_PrometheusEndpoint c;
     Logging_Level := Logging_Level c; Logging_LogMaxSize := Logging_LogMaxSize c;
     Logging_LogMaxBackups := Logging_LogMaxBackups c;
     Logging_LogMaxAge := Logging_LogMaxAge c;
     Logging_LogCompress := Logging_LogCompress c; V3Params := V3Params c;
     IpSets := IpSets c; ipSets := ipSets c; RawFilters := RawFilters c;
     filters := v |}.


(** The field of the trap a column of a filter line stands for:
    [fObj.filterItem = i]. *)
Definition columnItem (i : nat) : filterItem :=
  match i with
  | 0 => filterByVersion
  | 1 => filterBySrcIP
  | 2 => filterByAgentAddr
  | 3 => filterByGenericType
  | 4 => filterBySpecificType
  | _ => filterByOid
  end.

(** [fObj := filterObj{}] *)
Definition zeroObj : filterObj :=
  {| filterItem_ := filterByVersion; filterType := parseTypeAny; filterValue_ := valNil |}.

Section Parser.

(** [regexp.Compile] and [newNetwork] are those of [E]. *)
Variable E : Env.

(** The text of the error [strconv.Atoi] or [strconv.ParseUint] returns for
    an input it rejects, by function name. *)
Variable NumError : string -> string -> string.

(** [initAction] of the three actions: the error it returns, if any. *)
Variable forwarder_initAction : string -> option error.
Variable logger_initAction : string -> trapexConfig -> option error.
Variable csvLogger_initAction : string -> trapexConfig -> option error.

(** The body of the loop over [f[:6]] for a column that is no [*]: the
    matcher [fObj] as the turn leaves it, or the error returned. *)
Definition filterColumn (i : nat) (fi : string) (fObj : filterObj) (lineNumber : Z)
  : result filterObj :=
  let item := columnItem i in
  if (i =? 0)%nat then
    match versionOfToken (GoStrings.ToLower fi) with
    | Some v =>
        Ok {| filterItem_ := item; filterType := parseTypeInt;
              filterValue_ := valVersion v |}
    | None =>
        Err ("unsupported or invalid SNMP version (" +:+ fi +:+ ") on line " +:+
             fmt_int lineNumber +:+ " for filter")
    end
  else if (i =? 1)%nat || (i =? 2)%nat then
    if GoStrings.HasPrefix fi "ipset:" then
      Ok {| filterItem_ := item; filterType := parseTypeIPSet;
            filterValue_ := filterValue_ fObj |}
    else if GoStrings.HasPrefix fi "/" then
      match regexp_Compile E (GoStrings.sliceFrom 1 fi) with
      | None =>
          Ok {| filterItem_ := item; filterType := parseTypeRegex;
                filterValue_ := valRegexp (GoStrings.sliceFrom 1 fi) |}
      | Some err =>
          Err ("unable to compile regexp for IP on line " +:+ fmt_int lineNumber +:+
               ": " +:+ fi +:+ ": " +:+ err)
      end
    else if GoStrings.Contains fi "/" then
      match newNetwork E fi with
      | None =>
          Ok {| filterItem_ := item; filterType := parseTypeCIDR;
                filterValue_ := valNetwork fi |}
      | Some _ =>
          Err ("invalid IP/CIDR at line " +:+ fmt_int lineNumber +:+ ": " +:+ fi)
      end
    else
      Ok {| filterItem_ := item; filterType := parseTypeString;
            filterValue_ := valString fi |}
  else if (2 <? i)%nat && (i <? 5)%nat then
    match strconv.Atoi fi with
    | Some val =>
        Ok {| filterItem_ := item; filterType := parseTypeInt;
              filterValue_ := valInt val |}
    | None =>
        Err ("invalid integer value at line " +:+ fmt_int lineNumber +:+ ": " +:+ fi +:+
             ": " +:+ NumError "Atoi" fi)
    end
  else
    match regexp_Compile E fi with
    | None =>
        Ok {| filterItem_ := item; filterType := parseTypeRegex;
              filterValue_ := valRegexp fi |}
    | Some err =>
        Err ("unable to compile regexp at line " +:+ fmt_int lineNumber +:+
             " for OID: " +:+ fi +:+ ": " +:+ err)
    end.

(** The loop over [f[:6]], from column [i] on: [fObj] is declared before the
    loop and keeps what the turn before left in it. *)
Fixpoint filterColumns (i : nat) (fields : list string) (fObj : filterObj)
  (items : list filterObj) (lineNumber : Z) : result (list filterObj) :=
  match fields with
  | [] => Ok items
  | fi :: rest =>
      if String.eqb fi "*" then filterColumns (S i) rest fObj items lineNumber
      else
        fObj <- filterColumn i fi fObj lineNumber ;;
        filterColumns (S i) rest fObj (items ++ [fObj]) lineNumber
  end.

(** The [switch action] of [processFilterLine]: the action type, the
    [actionArg] field and the action of the filter. *)
Definition filterAction (action_ actionArg_ : string) (breakAfter : bool)
  (newConfig : trapexConfig) (lineNumber : Z)
  : result (actionKind * string * option actionHandle) :=
  if oneOf action_ ["break"; "drop"]%string then Ok (actionBreak, EmptyString, None)
  else if String.eqb action_ "nat" then
    if String.eqb actionArg_ EmptyString
    then Err ("missing nat argument at line " +:+ fmt_int lineNumber)
    else Ok (actionNat, actionArg_, None)
  else if String.eqb action_ "forward" then
    match forwarder_initAction actionArg_ with
    | Some err => Err err
    | None =>
        Ok (if breakAfter then actionForwardBreak else actionForward, EmptyString,
            Some (forwarderOf actionArg_))
    end
  else if String.eqb action_ "log" then
    match logger_initAction actionArg_ newConfig with
    | Some err => Err err
    | None =>
        Ok (if breakAfter then actionLogBreak else actionLog, EmptyString,
            Some (loggerOf actionArg_))
    end
  else if String.eqb action_ "csv" then
    match csvLogger_initAction actionArg_ newConfig with
    | Some err => Err err
    | None =>
        Ok (if breakAfter then actionCsvBreak else actionCsv, EmptyString,
            Some (csvLoggerOf actionArg_))
    end
  else
    Err ("unknown action: " +:+ action_ +:+ " at line " +:+ fmt_int lineNumber).

(** [processFilterLine]: the configuration with the filter appended, or the
    error returned. *)
Definition processFilterLine (f : list string) (newConfig : trapexConfig)
  (lineNumber : Z) : result trapexConfig :=
  if (length f <? 7)%nat then
    Err ("not enough fields in filter line(" +:+ fmt_int lineNumber +:+ "): " +:+
         ("filter " +:+ strings_Join f " "))
  else
    criteria <-
      (if GoStrings.HasPrefix (strings_Join f " ") "* * * * * *" then Ok (true, [])
       else
         items <- filterColumns 0 (take 6 f) zeroObj [] lineNumber ;;
         Ok (false, items)) ;;
    let breakAfter := (8 <? length f)%nat && String.eqb (nth 8 f EmptyString) "break" in
    let action_ := nth 6 f EmptyString in
    let actionArg_ := if (7 <? length f)%nat then nth 7 f EmptyString else EmptyString in
    chosen <- filterAction action_ actionArg_ breakAfter newConfig lineNumber ;;
    let filter :=
      {| matchAll := fst criteria; filterItems := snd criteria;
         actionType := fst (fst chosen); actionArg := snd (fst chosen);
         action := snd chosen |} in
    Ok (set_filters (filters newConfig ++ [filter]) newConfig).

(** The loop of [processConfigLine] over the versions of an
    [ignoreVersions] line: the configuration as the loop leaves it. *)
Fixpoint ignoreVersions_loop (tokens : list string) (newConfig : trapexConfig)
  (lineNumber : Z) : outcome unit * trapexConfig :=
  match tokens with
  | [] => (Done tt, newConfig)
  | v :: rest =>
      match versionOfToken (GoStrings.ToLower v) with
      | Some version =>
          ignoreVersions_loop rest
            (set_General_ignoreVersions (General_ignoreVersions newConfig ++ [version])
               newConfig) lineNumber
      | None =>
          (Failed ("unsupported or invalid value (" +:+ v +:+
                   ") for ignoreVersion at line " +:+ fmt_int lineNumber), newConfig)
      end
  end.

(** [processConfigLine]: how the call ends ([Done tt] is [return nil]; an
    empty [f] is an index out of range) and the configuration it leaves. *)
Definition processConfigLine (f : list string) (newConfig : trapexConfig)
  (lineNumber : Z) : outcome unit * trapexConfig :=
  let flen := length f in
  let value := nth 1 f EmptyString in
  let missing name :=
    (Failed ("missing value for " +:+ name +:+ " at line " +:+ fmt_int lineNumber),
     newConfig) in
  let store (name : string) (updated : trapexConfig) :=
    if (flen <? 2)%nat then missing name else (Done tt, updated) in
  match f with
  | [] => (Panicked, newConfig)
  | option_ :: _ =>
      if String.eqb option_ "debug" then (Done tt, set_Logging_Level "debug" newConfig)
      else if String.eqb option_ "hostname" then
        store "hostname"%string (set_General_Hostname value newConfig)
      else if String.eqb option_ "listenAddress" then
        store "listenAddr"%string (set_General_ListenAddr value newConfig)
      else if String.eqb option_ "listenPort" then
        if (flen <? 2)%nat then missing "listenPort"%string
        else
          match strconv_ParseUint16 value with
          | None =>
              (Failed ("invalid listenPort value: " +:+ NumError "ParseUint" value +:+
                       " at line " +:+ fmt_int lineNumber), newConfig)
          | Some p =>
              if ((p <? 1) || (65535 <? p))%Z then
                (Failed ("invalid listenPort value: %!s(<nil>) at line " +:+
                         fmt_int lineNumber), newConfig)
              else (Done tt, set_General_ListenPort value newConfig)
          end
      else if String.eqb option_ "ignoreVersions" then
        if (flen <? 2)%nat then missing "ignoreVersions"%string
        else
          (* split on commas (if any) *)
          match ignoreVersions_loop (strings_Split value ","%char) newConfig lineNumber with
          | (Done _, updated) =>
              if (2 <? length (General_IgnoreVersions updated))%nat then
                (Failed ("All 3 SNMP versions are ignored at line " +:+ fmt_int lineNumber +:+
                         ". There will be no traps to process"), updated)
              else (Done tt, updated)
          | failed => failed
          end
      else if String.eqb option_ "v3msgFlags" then
        if (flen <? 2)%nat then missing "v3msgFlags"%string
        else
          let v3 := V3Params newConfig in
          if String.eqb value "NoAuthNoPriv" then
            (Done tt, set_V3Params (set_msgFlags g.NoAuthNoPriv v3) newConfig)
          else if String.eqb value "AuthNoPriv" then
            (Done tt, set_V3Params (set_msgFlags g.AuthNoPriv v3) newConfig)
          else if String.eqb value "AuthPriv" then
            (Done tt, set_V3Params (set_msgFlags g.AuthPriv v3) newConfig)
          else
            (Failed ("unsupported or invalid value (" +:+ value +:+
                     ") for v3msgFlags at line " +:+ fmt_int lineNumber), newConfig)
      else if String.eqb option_ "v3user" then
        store "v3user"%string
          (set_V3Params (set_Username value (V3Params newConfig)) newConfig)
      else if String.eqb option_ "v3authProtocol" then
        if (flen <? 2)%nat then missing "v3authProtocol"%string
        else
          let v3 := V3Params newConfig in
          if String.eqb value "SHA" then
            (Done tt, set_V3Params (set_authProto g.SHA v3) newConfig)
          else if String.eqb value "MD5" then
            (Done tt, set_V3Params (set_authProto g.MD5 v3) newConfig)
          else
            (Failed ("invalid value for v3authProtocol at line " +:+ fmt_int lineNumber),
             newConfig)
      else if String.eqb option_ "v3authPassword" then
        store "v3authPassword"%string
          (set_V3Params (set_AuthPassword value (V3Params newConfig)) newConfig)
      else if String.eqb option_ "v3privacyProtocol" then
        if (flen <? 2)%nat then missing "v3privacyProtocol"%string
        else
          let v3 := V3Params newConfig in
          if String.eqb value "AES" then
            (Done tt, set_V3Params (set_privacyProto g.AES v3) newConfig)
          else if String.eqb value "DES" then
            (Done tt, set_V3Params (set_privacyProto g.DES v3) newConfig)
          else
            (Failed ("invalid value for v3privacyProtocol at line " +:+
                     fmt_int lineNumber), newConfig)
      else if String.eqb option_ "v3privacyPassword" then
        store "v3privacyPassword"%string
          (set_V3Params (set_PrivacyPassword value (V3Params newConfig)) newConfig)
      else if String.eqb option_ "logfileMaxSize" then
        if (flen <? 2)%nat then missing "logfileMaxSize"%string
        else
          match strconv.Atoi value with
          | None =>
              (Failed ("invalid logfileMaxSize value: " +:+ NumError "Atoi" value +:+
                       " at line " +:+ fmt_int lineNumber), newConfig)
          | Some p =>
              if (p <? 1)%Z then
                (Failed ("invalid logfileMaxSize value: %!s(<nil>) at line " +:+
                         fmt_int lineNumber), newConfig)
              else (Done tt, set_Logging_LogMaxSize p newConfig)
          end
      else if String.eqb option_ "logfileMaxBackups" then
        if (flen <? 2)%nat then missing "logfileMaxBackups"%string
        else
          match strconv.Atoi value with
          | None =>
              (Failed ("invalid logfileMaxBackups value: " +:+ NumError "Atoi" value +:+
                       " at line " +:+ fmt_int lineNumber), newConfig)
          | Some p =>
              if (p <? 1)%Z then
                (Failed ("invalid logfileMaxBackups value: %!s(<nil>) at line " +:+
                         fmt_int lineNumber), newConfig)
              else (Done tt, set_Logging_LogMaxBackups p newConfig)
          end
      else if String.eqb option_ "compressRotatedLogs" then
        (Done tt, set_Logging_LogCompress true newConfig)
      else if String.eqb option_ "prometheus_ip" then
        store "prometheus_ip"%string (set_General_PrometheusIp value newConfig)
      else if String.eqb option_ "prometheus_port" then
        store "prometheus_port"%string (set_General_PrometheusPort value newConfig)
      else if String.eqb option_ "prometheus_endpoint" then
        store "prometheus_endpoint"%string (set_General_PrometheusEndpoint value newConfig)
      else
        (Failed ("Unknown/unsuppported configuration option: " +:+ option_ +:+
                 " at line " +:+ fmt_int lineNumber), newConfig)
  end.

End Parser.

(** [closeTrapexHandles], over [teConfig.filters]: the actions closed, in
    order, and whether the loop came to its end (a type assertion on an
    action of another type, or on nil, panics). *)
Fixpoint closeTrapexHandles_loop (filters_ : list trapexFilter)
  : list actionHandle * bool :=
  match filters_ with
  | [] => ([], true)
  | f :: rest =>
      let asserted (wanted : actionHandle -> bool) :=
        match action f with
        | Some a => if wanted a then Some a else None
        | None => None
        end in
      let isForwarder a := match a with forwarderOf _ => true | _ => false end in
      let isLogger a := match a with loggerOf _ => true | _ => false end in
      let isCsvLogger a := match a with csvLoggerOf _ => true | _ => false end in
      let closing :=
        match actionType f with
        | actionForward | actionForwardBreak => Some (asserted isForwarder)
        | actionLog | actionLogBreak => Some (asserted isLogger)
        | actionCsv | actionCsvBreak => Some (asserted isCsvLogger)
        | _ => None
        end in
      match closing with
      | None => closeTrapexHandles_loop rest
      | Some None => ([], false)
      | Some (Some a) =>
          let '(closed, finished) := closeTrapexHandles_loop rest in
          (a :: closed, finished)
      end
  end.

Definition closeTrapexHandles (cur : trapexConfig) : list actionHandle * bool :=
  closeTrapexHandles_loop (filters cur).

(** [var newConfig trapexConfig], before the defaults are set. *)
Definition zeroV3Params : v3Params :=
  {| MsgFlags := ""; msgFlags := 0; Username := ""; AuthProto := ""; authProto := 0;
     AuthPassword := ""; PrivacyProto := ""; privacyProto := 0; PrivacyPassword := "" |}.

Definition zeroConfig : trapexConfig :=
  {| teConfigured := false; runLogFile := ""; configFile := "";
     General_Hostname := ""; General_ListenAddr := ""; General_ListenPort := "";
     General_IgnoreVersions := []; General_ignoreVersions := [];
     General_PrometheusIp := ""; General_PrometheusPort := "";
     General_PrometheusEndpoint := "";
     Logging_Level := ""; Logging_LogMaxSize := 0; Logging_LogMaxBackups := 0;
     Logging_LogMaxAge := 0; Logging_LogCompress := false;
     V3Params := zeroV3Params; IpSets := []; ipSets := ∅; RawFilters := [];
     filters := [] |}.

End trapex.

(** A field that holds no blank, as [strings.Fields] yields it. *)
Definition blankFree (s : string) : Prop := GoStrings.Contains s " " = false.

(** The columns of a filter line that are no [*], counted from [i]. *)
Fixpoint wantedColumns (i : nat) (fields : list string) : list nat :=
  match fields with
  | [] => []
  | fi :: rest =>
      (if String.eqb fi "*" then [] else [i]) ++ wantedColumns (S i) rest
  end.

(** Each matcher of kind IP set holds the value of the matcher before it, the
    first that of [prev]. *)
Fixpoint carriesOver (prev : filterObj) (items : list filterObj) : Prop :=
  match items with
  | [] => True
  | m :: rest =>
      (filterType m = parseTypeIPSet -> filterValue_ m = filterValue_ prev) /\
      carriesOver m rest
  end.

(** The action of a filter is of the type its action type announces. *)
Definition actionTyped (f : trapex.trapexFilter) : Prop :=
  match trapex.actionType f with
  | trapex.actionForward | trapex.actionForwardBreak =>
      exists arg, trapex.action f = Some (trapex.forwarderOf arg)
  | trapex.actionLog | trapex.actionLogBreak =>
      exists arg, trapex.action f = Some (trapex.loggerOf arg)
  | trapex.actionCsv | trapex.actionCsvBreak =>
      exists arg, trapex.action f = Some (trapex.csvLoggerOf arg)
  | _ => True
  end.

(** The actions of the filters that [closeTrapexHandles] has to close. *)
Definition closableActions (filters_ : list trapex.trapexFilter)
  : list trapex.actionHandle :=
  omap (fun f => match trapex.actionType f with
                 | trapex.actionBreak | trapex.actionNat => None
                 | _ => trapex.action f
                 end) filters_.

(** Sample surroundings for the parser: every expression compiles, every
    action initialises. *)
Definition plainNumError (function input : string) : string :=
  "strconv." +:+ function +:+ ": parsing " +:+ input +:+ ": invalid syntax".

Definition initialises (actionArg : string) : option error := None.

Definition initialisesWith (actionArg : string) (newConfig : trapex.trapexConfig)
  : option error := None.

(** A filter line whose OID column only begins with a star, and one with an
    IP set in the source column. *)
Definition starredOidLine : list string :=
  ["*"; "*"; "*"; "*"; "*"; "*.1.3.6.1.4.1.9"; "forward"; "192.168.7.7:162"]%string.

Definition ipsetLine : list string :=
  ["v2c"; "ipset:lab"; "*"; "*"; "*"; "*"; "log"; "/var/log/lab.log"; "break"]%string.

(** The versions a list of tokens stands for, when each of them names one. *)
Definition versionsOfTokens (tokens : list string) : option (list Z) :=
  mapM (fun v => versionOfToken (GoStrings.ToLower v)) tokens.

(** One more filter line read with success. *)
Definition filterLineRead (E : Env) (NumError : string -> string -> string)
  (forwarder_initAction : string -> option error)
  (logger_initAction csvLogger_initAction : string -> trapex.trapexConfig -> option error)
  (before after : trapex.trapexConfig) : Prop :=
  exists f lineNumber,
    trapex.processFilterLine E NumError forwarder_initAction logger_initAction
      csvLogger_initAction f before lineNumber = Ok after.

(** Two filter lines that forward and log, and a configuration line that
    holds a version it cannot read. *)
Definition forwardLine : list string :=
  ["v1"; "*"; "*"; "*"; "*"; "*"; "forward"; "192.168.7.7:162"; "break"]%string.

Definition natLine : list string :=
  ["*"; "10.1.0.0/16"; "*"; "*"; "*"; "*"; "nat"; "10.9.9.9"; "break"]%string.

Definition halfReadLine : list string := ["ignoreVersions"; "v1,v4"]%string.

Definition allVersionsLine : list string := ["ignoreVersions"; "v1,2c,V3,v1"]%string.

(** The configuration after [forwardLine] and [ipsetLine] were read. *)
Definition twoFilterLines : trapex.trapexConfig :=
  match
    trapex.processFilterLine sampleEnv plainNumError initialises initialisesWith
      initialisesWith forwardLine trapex.zeroConfig 1
  with
  | Ok first =>
      match
        trapex.processFilterLine sampleEnv plainNumError initialises initialisesWith
          initialisesWith ipsetLine first 2
      with
      | Ok second => second
      | Err _ => first
      end
  | Err _ => trapex.zeroConfig
  end.

(** ** A reload that cannot load its metric plugin *)

(** A plugin host that finds no metric plugin, and one whose metric plugin
    refuses its arguments. *)
Definition metricPluginMissing : Env :=
  {| teCmdLine := sampleCommandLine;
     Getenv := fun _ => EmptyString;
     os_Hostname := Ok "mux"%string;
     Unmarshal := fun _ => Ok reportingDocument;
     GetSecret := fun s => Ok s;
     MergeSecrets := fun args => args;
     regexp_Compile := fun _ => None;
     newNetwork := fun _ => None;
     LoadActionPlugin := fun _ name => Ok (String.length name);
     Configure := fun _ _ => None;
     Close := fun _ => None;
     LoadMetricPlugin := fun _ _ => Err "plugin.Open: file not found"%string;
     ConfigureMetric := fun _ _ => None |}.

Definition metricPluginRefuses : Env :=
  {| teCmdLine := sampleCommandLine;
     Getenv := fun _ => EmptyString;
     os_Hostname := Ok "mux"%string;
     Unmarshal := fun _ => Ok reportingDocument;
     GetSecret := fun s => Ok s;
     MergeSecrets := fun args => args;
     regexp_Compile := fun _ => None;
     newNetwork := fun _ => None;
     LoadActionPlugin := fun _ name => Ok (String.length name);
     Configure := fun _ _ => None;
     Close := fun _ => None;
     LoadMetricPlugin := fun _ name => Ok (String.length name);
     ConfigureMetric := fun _ _ => Some "listen: address in use"%string |}.

(** The line a reload logs first, and the line of [handleSIGHUP] among the
    events of a trace. *)
Definition reloading : Event :=
  EvLog levelInfo "Reloading configuration for trapmux" None.

Definition isNotChanged (e : Event) : bool :=
  match e with
  | EvLog levelInfo msg (Some _) =>
      String.eqb msg
        (String.append "Error parsing configuration"
           (String (ascii_of_nat 10) "Configuration was not changed"))
  | _ => false
  end.

(** ** Documents that set the usable list of ignored versions *)

(** The document of [trustedDocument] whose listener section sets the usable
    list itself, [IgnoreVersions], to three times v1 and lists no name. *)
Definition thriceV1Document : trapmuxConfig :=
  set_TrapReceiverSettings
    {| Hostname := "mux"; ListenAddr := "0.0.0.0"; ListenPort := "162";
       IgnoreVersions_str := [];
       IgnoreVersions := [g.Version1; g.Version1; g.Version1];
       MsgFlags_str := "AuthNoPriv"; MsgFlags := 0;
       AuthProto_str := "SHA"; AuthProto := 0; AuthPassword := "secret";
       PrivacyProto_str := ""; PrivacyProto := 0; PrivacyPassword := "" |}
    trustedDocument.

(** The same with v2c in the usable list and the name 2c listed. *)
Definition twiceV2cDocument : trapmuxConfig :=
  set_TrapReceiverSettings
    {| Hostname := "mux"; ListenAddr := "0.0.0.0"; ListenPort := "162";
       IgnoreVersions_str := ["2c"];
       IgnoreVersions := [g.Version2c];
       MsgFlags_str := "AuthNoPriv"; MsgFlags := 0;
       AuthProto_str := "SHA"; AuthProto := 0; AuthPassword := "secret";
       PrivacyProto_str := ""; PrivacyProto := 0; PrivacyPassword := "" |}
    trustedDocument.

(* ===================================================================== *)
(** * Lemmas *)

(** ** Strings *)

Lemma append_assoc (a b c : string) : (a +:+ b) +:+ c = a +:+ (b +:+ c).
Proof.
  induction a as [|x a IH]; [reflexivity|].
  change (String x ((a +:+ b) +:+ c) = String x (a +:+ (b +:+ c))).
  now rewrite IH.
Qed.

Lemma append_empty_r (a : string) : a +:+ EmptyString = a.
Proof.
  induction a as [|x a IH]; [reflexivity|].
  change (String x (a +:+ EmptyString) = String x a).
  now rewrite IH.
Qed.

(** ** The matcher computes the words of the expression *)

Module RegexpFacts.
Import Regexp.

Lemma repeatRun_sound (f : string -> list string) (r : regexp) :
  (forall s s', In s' (f s) -> exists w, s = w +:+ s' /\ matches r w) ->
  forall hi lo s s',
    In s' (repeatRun f lo hi s) ->
    exists w, s = w +:+ s' /\ matches (reRepeat lo hi r) w.
Proof.
  intros Hf hi. induction hi as [|hi IH]; intros lo s s' Hin; simpl in Hin.
  - rewrite app_nil_r in Hin. destruct lo; simpl in Hin; [|contradiction].
    destruct Hin as [<-|[]]. exists EmptyString. split; [reflexivity | constructor].
  - apply in_app_or in Hin. destruct Hin as [Hin|Hin].
    + destruct lo; simpl in Hin; [|contradiction].
      destruct Hin as [<-|[]]. exists EmptyString. split; [reflexivity | constructor].
    + apply in_flat_map in Hin. destruct Hin as (mid & Hmid & Hrest).
      apply Hf in Hmid. destruct Hmid as (w1 & -> & Hw1).
      apply IH in Hrest. destruct Hrest as (w2 & -> & Hw2).
      exists (w1 +:+ w2). split; [now rewrite append_assoc|].
      now apply matches_repeat_more.
Qed.

Lemma run_sound (r : regexp) :
  forall s s', In s' (run r s) -> exists w, s = w +:+ s' /\ matches r w.
Proof.
  induction r as [|a|r1 IH1 r2 IH2|lo hi r IH]; intros s s' Hin; simpl in Hin.
  - destruct s as [|c s]; [contradiction|].
    destruct (isDigit c) eqn:Hc; [|contradiction].
    destruct Hin as [<-|[]]. exists (String c EmptyString).
    split; [reflexivity | now constructor].
  - destruct s as [|c s]; [contradiction|].
    destruct (Ascii.eqb_spec c a) as [->|]; [|contradiction].
    destruct Hin as [<-|[]]. exists (String a EmptyString).
    split; [reflexivity | constructor].
  - apply in_flat_map in Hin. destruct Hin as (mid & Hmid & Hrest).
    apply IH1 in Hmid. destruct Hmid as (w1 & -> & Hw1).
    apply IH2 in Hrest. destruct Hrest as (w2 & -> & Hw2).
    exists (w1 +:+ w2). split; [now rewrite append_assoc | now constructor].
  - now apply (repeatRun_sound (run r) r IH) in Hin.
Qed.

Lemma run_complete (r : regexp) (w : string) :
  matches r w -> forall s', In s' (run r (w +:+ s')).
Proof.
  induction 1 as [c Hc|c|r1 r2 w1 w2 _ IH1 _ IH2|hi r|lo hi r w1 w2 _ IH1 _ IH2];
    intros s'; simpl.
  - rewrite Hc. now left.
  - rewrite Ascii.eqb_refl. now left.
  - apply in_flat_map. exists (w2 +:+ s'). split; [|apply IH2].
    rewrite append_assoc. apply IH1.
  - destruct hi; simpl; now left.
  - apply in_or_app. right. apply in_flat_map. exists (w2 +:+ s').
    split; [rewrite append_assoc; apply IH1 | apply IH2].
Qed.

Lemma MatchWhole_spec (r : regexp) (s : string) :
  MatchWhole r s = true <-> matches r s.
Proof.
  unfold MatchWhole. rewrite existsb_exists. split.
  - intros (s' & Hin & Heq). apply String.eqb_eq in Heq. subst s'.
    apply run_sound in Hin. destruct Hin as (w & -> & Hw).
    now rewrite append_empty_r.
  - intros Hm. exists EmptyString. split; [|reflexivity].
    rewrite <- (append_empty_r s) at 1. now apply run_complete.
Qed.

End RegexpFacts.

Lemma ipRe_MatchString_spec (s : string) :
  ipRe_MatchString s = true <-> Regexp.matches ipRe s.
Proof. apply RegexpFacts.MatchWhole_spec. Qed.

(** ** The words of [ipRe] *)

Module DottedQuadFacts.
Import Regexp.

Lemma matches_digits w : matches (reRepeat 1 3 reDigit) w <-> octetText w.
Proof.
  split.
  - intros H. inversion H as [| | | |lo hi r w1 w2 H1 H2]; subst. clear H.
    inversion H1 as [c1 Hc1| | | |]; subst. clear H1. cbn [Nat.pred] in H2.
    inversion H2 as [| | |hi r|lo hi r w3 w4 H3 H4]; subst; clear H2.
    { left. exists c1. auto. }
    inversion H3 as [c2 Hc2| | | |]; subst. clear H3. cbn [Nat.pred] in H4.
    inversion H4 as [| | |hi r|lo hi r w5 w6 H5 H6]; subst; clear H4.
    { right. left. exists c1, c2. auto. }
    inversion H5 as [c3 Hc3| | | |]; subst. clear H5. cbn [Nat.pred] in H6.
    inversion H6; subst.
    right. right. exists c1, c2, c3. auto.
  - intros [(c1 & -> & H1) | [(c1 & c2 & -> & H1 & H2) | (c1 & c2 & c3 & -> & H1 & H2 & H3)]].
    + apply (matches_repeat_more 1 2 reDigit (String c1 EmptyString) EmptyString);
        [now constructor | constructor].
    + apply (matches_repeat_more 1 2 reDigit (String c1 EmptyString) (String c2 EmptyString));
        [now constructor|].
      apply (matches_repeat_more 0 1 reDigit (String c2 EmptyString) EmptyString);
        [now constructor | constructor].
    + apply (matches_repeat_more 1 2 reDigit (String c1 EmptyString)
               (String c2 (String c3 EmptyString))); [now constructor|].
      apply (matches_repeat_more 0 1 reDigit (String c2 EmptyString) (String c3 EmptyString));
        [now constructor|].
      apply (matches_repeat_more 0 0 reDigit (String c3 EmptyString) EmptyString);
        [now constructor | constructor].
Qed.

Lemma matches_group w :
  matches (reCat (reRepeat 1 3 reDigit) (reChar ".")) w <->
  exists a, w = a +:+ "." /\ octetText a.
Proof.
  split.
  - intros H. inversion H as [| |r1 r2 w1 w2 H1 H2| |]; subst.
    inversion H2; subst. exists w1. split; [reflexivity | now apply matches_digits].
  - intros (a & -> & Ha). constructor; [now apply matches_digits | constructor].
Qed.

Lemma matches_three r w :
  matches (reRepeat 3 3 r) w <->
  exists w1 w2 w3, w = w1 +:+ w2 +:+ w3 /\ matches r w1 /\ matches r w2 /\ matches r w3.
Proof.
  split.
  - intros H. inversion H as [| | | |lo hi r' w1 x1 H1 R1]; subst. clear H.
    cbn [Nat.pred] in R1.
    inversion R1 as [| | | |lo hi r' w2 x2 H2 R2]; subst. clear R1.
    cbn [Nat.pred] in R2.
    inversion R2 as [| | | |lo hi r' w3 x3 H3 R3]; subst. clear R2.
    cbn [Nat.pred] in R3. inversion R3; subst.
    exists w1, w2, w3. rewrite append_empty_r. auto.
  - intros (w1 & w2 & w3 & -> & H1 & H2 & H3).
    apply (matches_repeat_more 3 2 r w1 (w2 +:+ w3)); [assumption|].
    apply (matches_repeat_more 2 1 r w2 w3); [assumption|].
    rewrite <- (append_empty_r w3).
    apply (matches_repeat_more 1 0 r w3 EmptyString); [assumption | constructor].
Qed.

Lemma matches_ipRe s : matches ipRe s <-> dottedQuad s.
Proof.
  unfold ipRe, dottedQuad. split.
  - intros H. inversion H as [| |r1 r2 w d H1 H2| |]; subst. clear H.
    apply matches_three in H1. destruct H1 as (g1 & g2 & g3 & -> & G1 & G2 & G3).
    apply matches_group in G1, G2, G3.
    destruct G1 as (a & -> & Ha), G2 as (b & -> & Hb), G3 as (c & -> & Hc).
    apply matches_digits in H2. exists a, b, c, d.
    split; [now rewrite !append_assoc | auto].
  - intros (a & b & c & d & -> & Ha & Hb & Hc & Hd).
    replace ((a +:+ ".") +:+ (b +:+ ".") +:+ (c +:+ ".") +:+ d)
      with (((a +:+ ".") +:+ (b +:+ ".") +:+ (c +:+ ".")) +:+ d)
      by (now rewrite !append_assoc).
    constructor; [|now apply matches_digits].
    apply matches_three. exists (a +:+ "."), (b +:+ "."), (c +:+ ".").
    split; [reflexivity|]. repeat split; apply matches_group; eauto.
Qed.

End DottedQuadFacts.

(** ** The IP-set registry *)

Lemma addIpSets_ips_spec (ipsName : string) (ips : list string) :
  forall ipSets,
    match addIpSets_ips ipsName ips ipSets with
    | Ok _ => forall ip, In ip ips -> Regexp.matches ipRe ip
    | Err e =>
        exists ip, In ip ips /\ ~ Regexp.matches ipRe ip /\
          e = "invalid IP address (" +:+ ip +:+ ") in ipset: " +:+ ipsName
    end.
Proof.
  induction ips as [|ip rest IH]; intros ipSets; simpl.
  - intros ip [].
  - destruct (ipRe_MatchString ip) eqn:Hm.
    + specialize (IH (<[ipsName := <[ip := true]> (default ∅ (ipSets !! ipsName))]> ipSets)).
      destruct (addIpSets_ips ipsName rest _) as [m|e].
      * intros ip' [<-|Hin]; [now apply ipRe_MatchString_spec | now apply IH].
      * destruct IH as (bad & Hin & Hbad & ->). exists bad. auto.
    + exists ip. split; [now left|]. split; [|reflexivity].
      intros Hyes. apply ipRe_MatchString_spec in Hyes. congruence.
Qed.

Lemma addIpSets_stanza_spec (stanza : list (string * list string)) :
  forall ipSets,
    match addIpSets_stanza stanza ipSets with
    | Ok _ => forall name ips ip, In (name, ips) stanza -> In ip ips -> Regexp.matches ipRe ip
    | Err e =>
        exists name ips ip, In (name, ips) stanza /\ In ip ips /\
          ~ Regexp.matches ipRe ip /\
          e = "invalid IP address (" +:+ ip +:+ ") in ipset: " +:+ name
    end.
Proof.
  induction stanza as [|[ipsName ips] rest IH]; intros ipSets; simpl.
  - intros ? ? ? [].
  - pose proof (addIpSets_ips_spec ipsName ips (<[ipsName := ∅]> ipSets)) as Hips.
    destruct (addIpSets_ips ipsName ips _) as [m|e]; simpl.
    + specialize (IH m). destruct (addIpSets_stanza rest m) as [m'|e].
      * intros name ips' ip [Heq|Hin] Hip; [|now apply (IH name ips')].
        inversion Heq; subst. now apply Hips.
      * destruct IH as (name & ips' & ip & Hin & Hip & Hbad & ->).
        exists name, ips', ip. auto.
    + destruct Hips as (ip & Hip & Hbad & ->). exists ipsName, ips, ip. auto.
Qed.

Lemma addIpSets_stanzas_spec (stanzas : list (list (string * list string))) :
  forall ipSets,
    match addIpSets_stanzas stanzas ipSets with
    | Ok _ =>
        forall stanza name ips ip,
          In stanza stanzas -> In (name, ips) stanza -> In ip ips ->
          Regexp.matches ipRe ip
    | Err e =>
        exists stanza name ips ip,
          In stanza stanzas /\ In (name, ips) stanza /\ In ip ips /\
          ~ Regexp.matches ipRe ip /\
          e = "invalid IP address (" +:+ ip +:+ ") in ipset: " +:+ name
    end.
Proof.
  induction stanzas as [|stanza rest IH]; intros ipSets; simpl.
  - intros ? ? ? ? [].
  - pose proof (addIpSets_stanza_spec stanza ipSets) as Hst.
    destruct (addIpSets_stanza stanza ipSets) as [m|e]; simpl.
    + specialize (IH m). destruct (addIpSets_stanzas rest m) as [m'|e].
      * intros st name ips ip [<-|Hin] Hn Hip; [now apply (Hst name ips)|].
        now apply (IH st name ips).
      * destruct IH as (st & name & ips & ip & Hin & Hn & Hip & Hbad & ->).
        exists st, name, ips, ip. auto.
    + destruct Hst as (name & ips & ip & Hn & Hip & Hbad & ->).
      exists stanza, name, ips, ip. auto.
Qed.


(** ** The ignored versions *)

Lemma versionOfToken_table (lc : string) (v : Z) :
  versionOfToken lc = Some v <->
    (v = g.Version1 /\ (lc = "v1" \/ lc = "1")%string) \/
    (v = g.Version2c /\ (lc = "v2c" \/ lc = "2c" \/ lc = "2")%string) \/
    (v = g.Version3 /\ (lc = "v3" \/ lc = "3")%string).
Proof.
  unfold versionOfToken, oneOf; simpl.
  repeat match goal with
         | |- context [String.eqb ?a ?b] => destruct (String.eqb_spec a b); simpl
         end;
    split; intros H; subst;
    try (injection H as <-); try discriminate;
    try solve [intuition (try discriminate; try congruence)].
Qed.

(** ** The ignored versions: the loop and its flags *)

Lemma flagsAgree_add1 b2 b3 vs :
  flagsAgree false b2 b3 vs -> flagsAgree true b2 b3 (vs ++ [g.Version1]).
Proof. flags_step. Qed.

Lemma flagsAgree_add2 b1 b3 vs :
  flagsAgree b1 false b3 vs -> flagsAgree b1 true b3 (vs ++ [g.Version2c]).
Proof. flags_step. Qed.

Lemma flagsAgree_add3 b1 b2 vs :
  flagsAgree b1 b2 false vs -> flagsAgree b1 b2 true (vs ++ [g.Version3]).
Proof. flags_step. Qed.

Lemma ignoredBy_cons (c : string) (cs : list string) (v : Z) :
  ignoredBy (c :: cs) v <->
  versionOfToken (GoStrings.ToLower c) = Some v \/ ignoredBy cs v.
Proof.
  unfold ignoredBy. split.
  - intros (c' & [<-|Hin] & Hv); [now left | right; now exists c'].
  - intros [Hv|(c' & Hin & Hv)]; [exists c | exists c']; simpl; auto.
Qed.

Lemma validateIgnoreVersions_loop_spec (candidates : list string) :
  forall b1 b2 b3 acc,
    flagsAgree b1 b2 b3 acc ->
    match validateIgnoreVersions_loop candidates b1 b2 b3 acc with
    | Ok vs =>
        (forall c, In c candidates -> is_Some (versionOfToken (GoStrings.ToLower c))) /\
        NoDup vs /\ incl vs allVersions /\
        (forall v, In v vs <-> In v acc \/ ignoredBy candidates v)
    | Err e =>
        exists c,
          In c candidates /\ versionOfToken (GoStrings.ToLower c) = None /\
          e = "unsupported or invalid value (" +:+ c +:+ ") for general:ignore_version"
    end.
Proof.
  induction candidates as [|c rest IH]; intros b1 b2 b3 acc Hinv.
  - simpl. destruct Hinv as (Hnd & Hincl & _). repeat split; auto.
    + intros c [].
    + intros [H|(c & [] & _)]; assumption.
  - cbn [validateIgnoreVersions_loop].
    assert (Hstep : forall b1' b2' b3' acc' v,
               versionOfToken (GoStrings.ToLower c) = Some v ->
               flagsAgree b1' b2' b3' acc' ->
               (forall x, In x acc' <-> In x acc \/ x = v) ->
               match validateIgnoreVersions_loop rest b1' b2' b3' acc' with
               | Ok vs =>
                   (forall c0, In c0 (c :: rest) ->
                               is_Some (versionOfToken (GoStrings.ToLower c0))) /\
                   NoDup vs /\ incl vs allVersions /\
                   (forall v, In v vs <-> In v acc \/ ignoredBy (c :: rest) v)
               | Err e =>
                   exists c0,
                     In c0 (c :: rest) /\ versionOfToken (GoStrings.ToLower c0) = None /\
                     e = "unsupported or invalid value (" +:+ c0 +:+
                         ") for general:ignore_version"
               end).
    { intros b1' b2' b3' acc' v Hv Hinv' Hacc'.
      specialize (IH b1' b2' b3' acc' Hinv').
      destruct (validateIgnoreVersions_loop rest b1' b2' b3' acc') as [vs|e].
      - destruct IH as (Hall & Hnd & Hincl & Hin). repeat split; auto.
        + intros c0 [<-|H0]; [rewrite Hv; eauto | now apply Hall].
        + intros H. apply Hin in H. rewrite ignoredBy_cons.
          destruct H as [H|H]; [|tauto]. apply Hacc' in H.
          destruct H as [H| ->]; [tauto | right; now left].
        + intros H. apply Hin. rewrite ignoredBy_cons in H. rewrite Hacc'.
          destruct H as [H|[H|H]]; [tauto | | tauto].
          left. right. congruence.
      - destruct IH as (c0 & H0 & Hnone & ->). exists c0. simpl. auto. }
    destruct (oneOf (GoStrings.ToLower c) ["v1"; "1"]%string) eqn:E1.
    { assert (versionOfToken (GoStrings.ToLower c) = Some g.Version1) as Hv
        by (unfold versionOfToken; now rewrite E1).
      destruct b1; simpl.
      - apply (Hstep _ _ _ _ g.Version1 Hv Hinv).
        intros x. split; [tauto|]. intros [H| ->]; [assumption|].
        now apply Hinv.
      - apply (Hstep _ _ _ _ g.Version1 Hv (flagsAgree_add1 _ _ _ Hinv)).
        intros x. rewrite in_app_iff. simpl. intuition congruence. }
    destruct (oneOf (GoStrings.ToLower c) ["v2c"; "2c"; "2"]%string) eqn:E2.
    { assert (versionOfToken (GoStrings.ToLower c) = Some g.Version2c) as Hv
        by (unfold versionOfToken; now rewrite E1, E2).
      destruct b2; simpl.
      - apply (Hstep _ _ _ _ g.Version2c Hv Hinv).
        intros x. split; [tauto|]. intros [H| ->]; [assumption|].
        now apply Hinv.
      - apply (Hstep _ _ _ _ g.Version2c Hv (flagsAgree_add2 _ _ _ Hinv)).
        intros x. rewrite in_app_iff. simpl. intuition congruence. }
    destruct (oneOf (GoStrings.ToLower c) ["v3"; "3"]%string) eqn:E3.
    { assert (versionOfToken (GoStrings.ToLower c) = Some g.Version3) as Hv
        by (unfold versionOfToken; now rewrite E1, E2, E3).
      destruct b3; simpl.
      - apply (Hstep _ _ _ _ g.Version3 Hv Hinv).
        intros x. split; [tauto|]. intros [H| ->]; [assumption|].
        now apply Hinv.
      - apply (Hstep _ _ _ _ g.Version3 Hv (flagsAgree_add3 _ _ _ Hinv)).
        intros x. rewrite in_app_iff. simpl. intuition congruence. }
    exists c. split; [now left|]. split; [|reflexivity].
    unfold versionOfToken. now rewrite E1, E2, E3.
Qed.

Lemma allVersions_full (vs : list Z) :
  NoDup vs -> incl vs allVersions ->
  ((2 <? length vs)%nat = true <->
   In g.Version1 vs /\ In g.Version2c vs /\ In g.Version3 vs).
Proof.
  intros Hnd Hincl. rewrite Nat.ltb_lt. split.
  - intros Hlen.
    assert (incl allVersions vs) as Hall.
    { apply NoDup_ListNoDup in Hnd.
      apply (NoDup_length_incl Hnd); [simpl; lia | assumption]. }
    repeat split; apply Hall; unfold allVersions; simpl; auto.
  - intros (H1 & H2 & H3).
    assert (length allVersions <= length vs)%nat as Hlen.
    { apply NoDup_incl_length.
      - unfold allVersions, g.Version1, g.Version2c, g.Version3.
        repeat constructor; simpl; intuition discriminate.
      - intros x [<-|[<-|[<-|[]]]]; assumption. }
    simpl in Hlen. lia.
Qed.



(** C6. [validateIgnoreVersions] appends to the usable list [IgnoreVersions]
    as the document left it, and its last test counts the entries of that
    list.  A document that sets the list to three times v1 and names no
    version is refused as ignoring all three versions, by [getConfig] too,
    although v1 alone is ignored; a document that sets it to v2c and names 2c
    is accepted with v2c twice in the list, which [getConfig] publishes. *)
Theorem validateIgnoreVersions_prefilled_list :
  (validateIgnoreVersions (zeroUnexported thriceV1Document) =
     Err "all three SNMP versions are ignored -- there will be no traps to process" /\
   fst (getConfig (envServing thriceV1Document) startOfProcess) =
     Failed "all three SNMP versions are ignored -- there will be no traps to process" /\
   (forall v,
      In v (IgnoreVersions (TrapReceiverSettings (zeroUnexported thriceV1Document))) ->
      v = g.Version1) /\
   (forall v,
      ~ ignoredBy (IgnoreVersions_str (TrapReceiverSettings thriceV1Document)) v)) /\
  (exists accepted,
     validateIgnoreVersions (zeroUnexported twiceV2cDocument) = Ok accepted /\
     IgnoreVersions (TrapReceiverSettings accepted) = [g.Version2c; g.Version2c] /\
     ~ NoDup (IgnoreVersions (TrapReceiverSettings accepted))) /\
  (exists cur,
     teConfig (snd (getConfig (envServing twiceV2cDocument) startOfProcess)) = Some cur /\
     IgnoreVersions (TrapReceiverSettings cur) = [g.Version2c; g.Version2c]).
Proof.
  split; [|split].
  - split; [vm_compute; reflexivity|]. split; [vm_compute; reflexivity|]. split.
    + intros v [<-|[<-|[<-|[]]]]; reflexivity.
    + intros v (candidate & [] & _).
  - eexists. split; [vm_compute; reflexivity|]. split; [reflexivity|].
    cbn [IgnoreVersions TrapReceiverSettings]. intros Hnd.
    apply NoDup_cons in Hnd. destruct Hnd as [Hnotin _]. apply Hnotin. now left.
  - eexists. split; [vm_compute; reflexivity|]. reflexivity.
Qed.

(** ** Matchers of a filter *)

Lemma withMatchers_nil f : withMatchers f [] = f.
Proof. destruct f. unfold withMatchers. simpl. now rewrite app_nil_r. Qed.

Lemma withMatchers_app f n1 n2 :
  withMatchers (withMatchers f n1) n2 = withMatchers f (n1 ++ n2).
Proof.
  destruct f. unfold withMatchers, set_matchers, set_matchAll. simpl.
  rewrite <- app_assoc. destruct n1, n2; reflexivity.
Qed.

Lemma withMatchers_one f m :
  appendMatcher m (set_matchAll false f) = withMatchers f [m].
Proof. reflexivity. Qed.

Lemma addSnmpFilterObj_loop_spec (candidates : list string) (lineNumber : Z) :
  forall f f',
    addSnmpFilterObj_loop candidates f lineNumber = Ok f' ->
    exists new,
      f' = withMatchers f new /\ length new = length candidates /\
      Forall (fun m => filterType m = parseTypeInt) new.
Proof.
  induction candidates as [|c rest IH]; intros f f' H; simpl in H.
  - injection H as <-. exists []. now rewrite withMatchers_nil.
  - destruct (versionOfToken (GoStrings.ToLower c)) as [v|]; [|discriminate].
    rewrite withMatchers_one in H. apply IH in H.
    destruct H as (new & -> & Hlen & Hall).
    eexists (_ :: new). rewrite withMatchers_app. simpl.
    split; [reflexivity|]. split; [now rewrite Hlen|].
    constructor; [reflexivity | assumption].
Qed.

Lemma addIpFilterObj_spec E f source networkEntry ipSets lineNumber f' :
  addIpFilterObj E f source networkEntry ipSets lineNumber = Ok f' ->
  exists new,
    f' = withMatchers f new /\
    length new = (if String.eqb networkEntry EmptyString then 0 else 1) /\
    Forall (ipsetResolved ipSets) new.
Proof.
  unfold addIpFilterObj. destruct (String.eqb networkEntry EmptyString).
  - intros [= <-]. exists []. now rewrite withMatchers_nil.
  - intros H.
    match type of H with
    | bind ?r _ = _ => destruct r as [fObj|e] eqn:Hobj; [|discriminate]
    end.
    simpl in H. injection H as <-. exists [fObj]. split; [reflexivity|].
    split; [reflexivity|]. constructor; [|constructor].
    destruct (GoStrings.HasPrefix networkEntry "ipset:").
    + destruct (ipSets !! GoStrings.sliceFrom 6 networkEntry) eqn:Hlook; [|discriminate].
      injection Hobj as <-. intros _. eexists. split; [reflexivity|]. eauto.
    + destruct (GoStrings.HasPrefix networkEntry "/").
      * destruct (regexp_Compile E _); [discriminate|].
        injection Hobj as <-. intros Habs. discriminate.
      * destruct (GoStrings.Contains networkEntry "/").
        -- destruct (newNetwork E _); [discriminate|].
           injection Hobj as <-. intros Habs. discriminate.
        -- injection Hobj as <-. intros Habs. discriminate.
Qed.

Lemma addTrapTypeFilterObj_spec f source trapTypeEntry lineNumber f' :
  addTrapTypeFilterObj f source trapTypeEntry lineNumber = Ok f' ->
  exists new,
    f' = withMatchers f new /\
    length new = (if (trapTypeEntry =? -1)%Z then 0 else 1) /\
    Forall (fun m => filterType m = parseTypeInt) new.
Proof.
  unfold addTrapTypeFilterObj. destruct (trapTypeEntry =? -1)%Z.
  - intros [= <-]. exists []. now rewrite withMatchers_nil.
  - intros [= <-]. eexists [_]. split; [reflexivity|]. split; [reflexivity|].
    constructor; [reflexivity | constructor].
Qed.

Lemma addOidFilterObj_spec E f oid lineNumber f' :
  addOidFilterObj E f oid lineNumber = Ok f' ->
  exists new,
    f' = withMatchers f new /\
    length new = (if String.eqb oid EmptyString then 0 else 1) /\
    Forall (fun m => filterType m = parseTypeRegex) new.
Proof.
  unfold addOidFilterObj. destruct (String.eqb oid EmptyString).
  - intros [= <-]. exists []. now rewrite withMatchers_nil.
  - destruct (regexp_Compile E oid); [discriminate|].
    intros [= <-]. eexists [_]. split; [reflexivity|]. split; [reflexivity|].
    constructor; [reflexivity | constructor].
Qed.

Lemma ipsetResolved_other ipSets m :
  filterType m <> parseTypeIPSet -> ipsetResolved ipSets m.
Proof. intros Hne Heq. contradiction. Qed.

Lemma withMatchers_SourceIp f new : SourceIp (withMatchers f new) = SourceIp f.
Proof. reflexivity. Qed.
Lemma withMatchers_AgentAddress f new :
  AgentAddress (withMatchers f new) = AgentAddress f.
Proof. reflexivity. Qed.
Lemma withMatchers_GenericType f new :
  GenericType (withMatchers f new) = GenericType f.
Proof. reflexivity. Qed.
Lemma withMatchers_SpecificType f new :
  SpecificType (withMatchers f new) = SpecificType f.
Proof. reflexivity. Qed.
Lemma withMatchers_EnterpriseOid f new :
  EnterpriseOid (withMatchers f new) = EnterpriseOid f.
Proof. reflexivity. Qed.

Lemma bind_Ok {A B : Type} (r : result A) (k : A -> result B) (b : B) :
  bind r k = Ok b -> exists a, r = Ok a /\ k a = Ok b.
Proof. destruct r as [a|e]; [intros H; now exists a | discriminate]. Qed.

Lemma addFilterObjs_spec E f ipSets lineNumber f' :
  addFilterObjs E f ipSets lineNumber = Ok f' ->
  exists new,
    f' = withMatchers (set_matchAll true f) new /\
    length new = wanted f /\
    Forall (ipsetResolved ipSets) new.
Proof.
  unfold addFilterObjs, addSnmpFilterObj. intros H.
  apply bind_Ok in H. destruct H as (f1 & H1 & H).
  apply addSnmpFilterObj_loop_spec in H1. destruct H1 as (n1 & -> & L1 & A1).
  apply bind_Ok in H. destruct H as (f2 & H2 & H).
  apply addIpFilterObj_spec in H2. destruct H2 as (n2 & -> & L2 & A2).
  apply bind_Ok in H. destruct H as (f3 & H3 & H).
  apply addIpFilterObj_spec in H3. destruct H3 as (n3 & -> & L3 & A3).
  apply bind_Ok in H. destruct H as (f4 & H4 & H).
  apply addTrapTypeFilterObj_spec in H4. destruct H4 as (n4 & -> & L4 & A4).
  apply bind_Ok in H. destruct H as (f5 & H5 & H).
  apply addTrapTypeFilterObj_spec in H5. destruct H5 as (n5 & -> & L5 & A5).
  apply addOidFilterObj_spec in H. destruct H as (n6 & -> & L6 & A6).
  rewrite !withMatchers_app.
  exists (n1 ++ n2 ++ n3 ++ n4 ++ n5 ++ n6). split; [reflexivity|]. split.
  - rewrite !length_app, L1, L2, L3, L4, L5, L6. unfold wanted.
    rewrite !withMatchers_SourceIp, !withMatchers_AgentAddress,
      !withMatchers_GenericType, !withMatchers_SpecificType,
      !withMatchers_EnterpriseOid.
    change (SnmpVersions (set_matchAll true f)) with (SnmpVersions f).
    change (SourceIp (set_matchAll true f)) with (SourceIp f).
    change (AgentAddress (set_matchAll true f)) with (AgentAddress f).
    change (GenericType (set_matchAll true f)) with (GenericType f).
    change (SpecificType (set_matchAll true f)) with (SpecificType f).
    change (EnterpriseOid (set_matchAll true f)) with (EnterpriseOid f).
    lia.
  - repeat (apply Forall_app; split); try assumption.
    + eapply Forall_impl; [exact A1|]. intros m Hm. apply ipsetResolved_other. congruence.
    + eapply Forall_impl; [exact A4|]. intros m Hm. apply ipsetResolved_other. congruence.
    + eapply Forall_impl; [exact A5|]. intros m Hm. apply ipsetResolved_other. congruence.
    + eapply Forall_impl; [exact A6|]. intros m Hm. apply ipsetResolved_other. congruence.
Qed.

(** ** Binding the filters of a configuration *)

Lemma addIpFilterObj_known E f source entry ipSets line f' :
  addIpFilterObj E f source entry ipSets line = Ok f' ->
  GoStrings.HasPrefix entry "ipset:" = true ->
  is_Some (ipSets !! GoStrings.sliceFrom 6 entry).
Proof.
  unfold addIpFilterObj. intros H Hp.
  destruct (String.eqb_spec entry EmptyString) as [->|_]; [discriminate Hp|].
  rewrite Hp in H. apply bind_Ok in H. destruct H as (fObj & H & _).
  destruct (ipSets !! GoStrings.sliceFrom 6 entry); [eauto | discriminate].
Qed.

Lemma addIpFilterObj_unknown E f source entry ipSets line :
  GoStrings.HasPrefix entry "ipset:" = true ->
  ipSets !! GoStrings.sliceFrom 6 entry = None ->
  addIpFilterObj E f source entry ipSets line =
    Err ("invalid IP set name specified on for " +:+
         (fmt_int (filterItemCode source) +:+ " on line " +:+ fmt_int line) +:+
         ": " +:+ entry).
Proof.
  unfold addIpFilterObj. intros Hp Hnone.
  destruct (String.eqb_spec entry EmptyString) as [->|_]; [discriminate Hp|].
  rewrite Hp, Hnone. reflexivity.
Qed.

Lemma addFilterObjs_known E f ipSets line f' :
  addFilterObjs E f ipSets line = Ok f' ->
  (GoStrings.HasPrefix (SourceIp f) "ipset:" = true ->
   is_Some (ipSets !! GoStrings.sliceFrom 6 (SourceIp f))) /\
  (GoStrings.HasPrefix (AgentAddress f) "ipset:" = true ->
   is_Some (ipSets !! GoStrings.sliceFrom 6 (AgentAddress f))).
Proof.
  unfold addFilterObjs, addSnmpFilterObj. intros H.
  apply bind_Ok in H. destruct H as (f1 & H1 & H).
  apply addSnmpFilterObj_loop_spec in H1. destruct H1 as (n1 & -> & _).
  apply bind_Ok in H. destruct H as (f2 & H2 & H).
  pose proof (addIpFilterObj_known _ _ _ _ _ _ _ H2) as K2.
  apply addIpFilterObj_spec in H2. destruct H2 as (n2 & -> & _).
  apply bind_Ok in H. destruct H as (f3 & H3 & H).
  pose proof (addIpFilterObj_known _ _ _ _ _ _ _ H3) as K3.
  rewrite !withMatchers_SourceIp in K2. rewrite !withMatchers_AgentAddress in K3.
  split; assumption.
Qed.

Lemma setAction_spec E f pluginPathExpr line f' :
  setAction E f pluginPathExpr line = Ok f' ->
  matchAll f' = matchAll f /\ matchers f' = matchers f /\
  (actionType f' = actionPlugin -> is_Some (plugin f')).
Proof.
  unfold setAction. intros H.
  destruct (oneOf (ActionName f) ["break"; "drop"]%string).
  { injection H as <-. repeat split. discriminate. }
  destruct (oneOf (ActionName f) ["nat"]%string).
  { match type of H with
    | (if ?b then _ else _) = _ => destruct b; [discriminate|]
    end.
    injection H as <-. repeat split. discriminate. }
  match type of H with
  | match ?r with _ => _ end = _ => destruct r as [p|]; [|discriminate]
  end.
  match type of H with
  | match ?r with _ => _ end = _ => destruct r; [discriminate|]
  end.
  injection H as <-. repeat split. intros _. simpl. eauto.
Qed.

Lemma bindFilters_spec E ipSets path :
  forall filters i bound,
    bindFilters E ipSets path i filters = Ok bound ->
    Forall2 (boundFrom ipSets) filters bound.
Proof.
  induction filters as [|f rest IH]; intros i bound H.
  - injection H as <-. constructor.
  - cbn [bindFilters] in H.
    apply bind_Ok in H. destruct H as (f1 & H1 & H).
    apply bind_Ok in H. destruct H as (f2 & H2 & H).
    apply bind_Ok in H. destruct H as (rest' & H3 & H).
    injection H as <-. constructor; [|now apply (IH (S i))].
    pose proof (addFilterObjs_known _ _ _ _ _ H1) as [K1 K2].
    apply addFilterObjs_spec in H1. destruct H1 as (new & -> & Hlen & Hres).
    apply setAction_spec in H2. destruct H2 as (Hall & Hms & Hplug).
    unfold boundFrom. repeat split; try assumption.
    exists new. rewrite Hall, Hms. repeat split; assumption.
Qed.

Lemma getConfig_Done E st st' :
  getConfig E st = (Done tt, st') ->
  exists loaded c1 params c3 c4 c5 c6 closed,
    loadConfig E (configFile (teCmdLine E)) = Ok loaded /\
    validateIgnoreVersions (applyCliOverrides E loaded) = Ok c1 /\
    validateSnmpV3Args E (TrapReceiverSettings c1) = Ok params /\
    addIpSets (set_TrapReceiverSettings params c1) = Ok c3 /\
    addFilters E c3 = Ok c4 /\
    addPluginErrorActions E c4 = Ok c5 /\
    addReportingPlugins E (teConfig st) c5 = Done c6 /\
    (if isReconfigure st
     then exists cur, teConfig st = Some cur /\ closeHandles E cur = (closed, true)
     else closed = []) /\
    teConfig st' = Some (set_teConfigured true c6) /\
    totalTraps st' = totalTraps st /\
    trace st' =
      trace st ++
      [EvLog levelInfo
         ((if isReconfigure st then "Reloading" else "Loading")%string +:+
          " configuration for trapmux") None] ++ closed.
Proof.
  unfold getConfig. intros H.
  destruct (loadConfig E _) as [loaded|] eqn:H0; [|discriminate].
  destruct (validateIgnoreVersions _) as [c1|] eqn:H1; [|discriminate].
  destruct (validateSnmpV3Args E _) as [params|] eqn:H2; [|discriminate].
  destruct (addIpSets _) as [c3|] eqn:H3; [|discriminate].
  destruct (addFilters E c3) as [c4|] eqn:H4; [|discriminate].
  destruct (addPluginErrorActions E c4) as [c5|] eqn:H5; [|discriminate].
  destruct (addReportingPlugins E _ c5) as [c6| | |] eqn:H6; try discriminate.
  exists loaded, c1, params, c3, c4, c5, c6.
  unfold isReconfigure. cbn [teConfig emit] in *.
  destruct (teConfig st) as [cur|] eqn:Hcur.
  - destruct (teConfigured cur) eqn:Hconf.
    + destruct (closeHandles E cur) as [closed finished] eqn:Hclose.
      destruct finished; [|discriminate].
      injection H as <-. exists closed. cbn.
      unfold isReconfigure; rewrite Hcur, Hconf. rewrite <- app_assoc.
      do 7 (split; [first [assumption | reflexivity]|]). split; [now exists cur|].
      split; [reflexivity|]. split; reflexivity.
    + injection H as <-. exists []. cbn.
      unfold isReconfigure; rewrite Hcur, Hconf. rewrite <- app_assoc.
      do 7 (split; [first [assumption | reflexivity]|]). split; [reflexivity|].
      split; [reflexivity|]. split; reflexivity.
  - injection H as <-. exists []. cbn.
    unfold isReconfigure; rewrite Hcur. rewrite <- app_assoc.
    do 7 (split; [first [assumption | reflexivity]|]). split; [reflexivity|].
    split; [reflexivity|]. split; reflexivity.
Qed.

Lemma zeroUnexportedFilter_matchers (f : trapmuxFilter) :
  matchers (zeroUnexportedFilter f) = [].
Proof. reflexivity. Qed.

Lemma loadConfig_fresh E file loaded :
  loadConfig E file = Ok loaded ->
  forall f, In f (Filters loaded ++ PluginErrorActions loaded) -> matchers f = [].
Proof.
  unfold loadConfig. intros H. apply bind_Ok in H. destruct H as (raw & _ & H).
  injection H as <-. intros f Hin. cbn in Hin.
  apply in_app_or in Hin. destruct Hin as [Hin|Hin];
    apply in_map_iff in Hin; destruct Hin as (f0 & <- & _); reflexivity.
Qed.

Lemma validateIgnoreVersions_frame c c' :
  validateIgnoreVersions c = Ok c' ->
  Filters c' = Filters c /\ PluginErrorActions c' = PluginErrorActions c /\
  IpSets c' = IpSets c /\ IpSets_str c' = IpSets_str c.
Proof.
  unfold validateIgnoreVersions. intros H. apply bind_Ok in H.
  destruct H as (vs & _ & H). destruct (2 <? length vs)%nat; [discriminate|].
  injection H as <-. repeat split.
Qed.

Lemma addIpSets_frame c c' :
  addIpSets c = Ok c' ->
  Filters c' = Filters c /\ PluginErrorActions c' = PluginErrorActions c.
Proof.
  unfold addIpSets. intros H. apply bind_Ok in H. destruct H as (m & _ & H).
  injection H as <-. split; reflexivity.
Qed.

Lemma addFilters_spec E c c' :
  addFilters E c = Ok c' ->
  Forall2 (boundFrom (IpSets c)) (Filters c) (Filters c') /\
  PluginErrorActions c' = PluginErrorActions c /\ IpSets c' = IpSets c.
Proof.
  unfold addFilters. intros H. apply bind_Ok in H. destruct H as (fs & Hb & H).
  injection H as <-. apply bindFilters_spec in Hb. repeat split. exact Hb.
Qed.

Lemma addPluginErrorActions_spec E c c' :
  addPluginErrorActions E c = Ok c' ->
  Forall2 (boundFrom (IpSets c)) (PluginErrorActions c) (PluginErrorActions c') /\
  Filters c' = Filters c /\ IpSets c' = IpSets c.
Proof.
  unfold addPluginErrorActions. intros H. apply bind_Ok in H.
  destruct H as (fs & Hb & H).
  injection H as <-. apply bindFilters_spec in Hb. repeat split. exact Hb.
Qed.

Lemma addReportingPlugins_frame E te c c' :
  addReportingPlugins E te c = Done c' ->
  Filters c' = Filters c /\ PluginErrorActions c' = PluginErrorActions c /\
  IpSets c' = IpSets c.
Proof.
  unfold addReportingPlugins. intros H.
  destruct (addReportingPlugins_loop E te 0 (Reporting c)); try discriminate.
  injection H as <-. repeat split.
Qed.

(** What a successful [getConfig] publishes, filter by filter. *)
Lemma getConfig_published E st st' :
  getConfig E st = (Done tt, st') ->
  exists loaded published,
    loadConfig E (configFile (teCmdLine E)) = Ok loaded /\
    teConfig st' = Some published /\
    teConfigured published = true /\
    Forall2 (boundFrom (IpSets published)) (Filters loaded) (Filters published) /\
    Forall2 (boundFrom (IpSets published)) (PluginErrorActions loaded)
      (PluginErrorActions published) /\
    (exists c2 c3 c4,
        addIpSets c2 = Ok c3 /\ addFilters E c3 = Ok c4 /\
        IpSets published = IpSets c3).
Proof.
  intros H. apply getConfig_Done in H.
  destruct H as (loaded & c1 & params & c3 & c4 & c5 & c6 & closed &
                 H0 & H1 & H2 & H3 & H4 & H5 & H6 & _ & Hte & _).
  exists loaded, (set_teConfigured true c6).
  split; [assumption|]. split; [assumption|]. split; [reflexivity|].
  apply validateIgnoreVersions_frame in H1. destruct H1 as (F1 & P1 & _).
  pose proof (addIpSets_frame _ _ H3) as (F3 & P3).
  pose proof (addFilters_spec _ _ _ H4) as (B4 & P4 & I4).
  pose proof (addPluginErrorActions_spec _ _ _ H5) as (B5 & F5 & I5).
  apply addReportingPlugins_frame in H6. destruct H6 as (F6 & P6 & I6).
  change (Filters (set_teConfigured true c6)) with (Filters c6).
  change (PluginErrorActions (set_teConfigured true c6)) with (PluginErrorActions c6).
  change (IpSets (set_teConfigured true c6)) with (IpSets c6).
  change (Filters (set_TrapReceiverSettings params c1)) with (Filters c1) in F3.
  change (PluginErrorActions (set_TrapReceiverSettings params c1))
    with (PluginErrorActions c1) in P3.
  change (Filters (applyCliOverrides E loaded)) with (Filters loaded) in F1.
  change (PluginErrorActions (applyCliOverrides E loaded))
    with (PluginErrorActions loaded) in P1.
  rewrite F6, P6, I6, F5, I5, I4.
  rewrite F3, F1 in B4. rewrite P4, P3, P1, I4 in B5.
  split; [exact B4|]. split; [exact B5|].
  exists (set_TrapReceiverSettings params c1), c3, c4. auto.
Qed.

(** A document [getConfig] accepts lists only words of [ipRe]. *)
Lemma getConfig_Done_listed E st st' loaded :
  loadConfig E (configFile (teCmdLine E)) = Ok loaded ->
  getConfig E st = (Done tt, st') ->
  forall name ip, listedAddress loaded name ip -> Regexp.matches ipRe ip.
Proof.
  intros Hload H. apply getConfig_Done in H.
  destruct H as (loaded' & c1 & params & c3 & c4 & c5 & c6 & closed &
                 H0 & H1 & H2 & H3 & _).
  rewrite Hload in H0. injection H0 as <-.
  apply validateIgnoreVersions_frame in H1. destruct H1 as (_ & _ & _ & Hstr).
  change (IpSets_str (applyCliOverrides E loaded)) with (IpSets_str loaded) in Hstr.
  pose proof (addIpSets_stanzas_spec (IpSets_str (set_TrapReceiverSettings params c1))
                (IpSets (set_TrapReceiverSettings params c1))) as Hspec.
  unfold addIpSets in H3. apply bind_Ok in H3. destruct H3 as (m & Hm & _).
  rewrite Hm in Hspec.
  change (IpSets_str (set_TrapReceiverSettings params c1)) with (IpSets_str c1) in Hspec.
  rewrite Hstr in Hspec.
  intros name ip (stanza & ips & Hst & Hn & Hip). now apply (Hspec stanza name ips).
Qed.

(** C9. [addIpSets] returns nil exactly when every listed address is a word of
    [ipRe], the pattern [^(\d{1,3}\.){3}\d{1,3}$]; when it returns an error,
    the message carries a listed address that is no word of the pattern and
    the name of the set it stands under; so [getConfig] returns nil only for
    a document all of whose listed addresses are words of the pattern.  The
    words of the pattern are the
    texts of four groups of one to three digits separated by dots
    ([dottedQuad]); the value of a group is not checked: 999.1.1.1 is
    accepted. *)
Theorem addIpSets_accepts_exactly_ipRe (newConfig : trapmuxConfig) :
  (isOk (addIpSets newConfig) = true <->
     forall name ip, listedAddress newConfig name ip -> Regexp.matches ipRe ip)
  /\ (forall e, addIpSets newConfig = Err e ->
        exists name ip,
          listedAddress newConfig name ip /\ ~ Regexp.matches ipRe ip /\
          e = "invalid IP address (" +:+ ip +:+ ") in ipset: " +:+ name)
  /\ (forall E st st' loaded,
        loadConfig E (configFile (teCmdLine E)) = Ok loaded ->
        getConfig E st = (Done tt, st') ->
        forall name ip, listedAddress loaded name ip -> Regexp.matches ipRe ip)
  /\ (forall ip, ipRe_MatchString ip = true <-> Regexp.matches ipRe ip)
  /\ (forall ip, Regexp.matches ipRe ip <-> dottedQuad ip)
  /\ ipRe_MatchString "999.1.1.1" = true.
Proof.
  assert (forall E st st' loaded,
        loadConfig E (configFile (teCmdLine E)) = Ok loaded ->
        getConfig E st = (Done tt, st') ->
        forall name ip, listedAddress loaded name ip -> Regexp.matches ipRe ip)
    as Hpublished by exact getConfig_Done_listed.
  pose proof (addIpSets_stanzas_spec (IpSets_str newConfig) (IpSets newConfig)) as H.
  unfold addIpSets, listedAddress.
  destruct (addIpSets_stanzas (IpSets_str newConfig) (IpSets newConfig)) as [m|e0];
    simpl;
    (split; [|split; [|split; [exact Hpublished
                              |split; [apply ipRe_MatchString_spec
                                      |split; [apply DottedQuadFacts.matches_ipRe
                                              |reflexivity]]]]]).
  - split; [|reflexivity]. intros _ name ip (st & ips & Hst & Hn & Hip).
    now apply (H st name ips).
  - intros e Habs. discriminate.
  - split; [discriminate|]. intros Hall.
    destruct H as (st & name & ips & ip & Hst & Hn & Hip & Hbad & _).
    exfalso. apply Hbad. apply (Hall name). now exists st, ips.
  - intros e [= <-]. destruct H as (st & name & ips & ip & Hst & Hn & Hip & Hbad & ->).
    exists name, ip. split; [now exists st, ips | auto].
Qed.

(** ** The filters of a published configuration *)

Lemma wanted_zero (f : trapmuxFilter) :
  wanted f = 0 <->
  SnmpVersions f = [] /\ SourceIp f = EmptyString /\ AgentAddress f = EmptyString /\
  GenericType f = (-1)%Z /\ SpecificType f = (-1)%Z /\ EnterpriseOid f = EmptyString.
Proof.
  unfold wanted.
  destruct (String.eqb_spec (SourceIp f) EmptyString);
    destruct (String.eqb_spec (AgentAddress f) EmptyString);
    destruct (String.eqb_spec (EnterpriseOid f) EmptyString);
    destruct (Z.eqb_spec (GenericType f) (-1));
    destruct (Z.eqb_spec (SpecificType f) (-1));
    destruct (SnmpVersions f); simpl;
    split; intros H; try lia; try (repeat split; congruence);
    try (destruct H as (? & ? & ? & ? & ? & ?); congruence).
Qed.

Lemma boundFrom_matchAll ipSets f f' :
  matchers f = [] -> boundFrom ipSets f f' ->
  (matchAll f' = true <-> matchers f' = []) /\ length (matchers f') = wanted f.
Proof.
  intros Hfresh ((new & Hms & Hall & Hlen & _) & _).
  rewrite Hfresh in Hms. simpl in Hms. rewrite Hms, Hall, <- Hlen.
  split; [|reflexivity]. destruct new; split; intros H; congruence.
Qed.

Lemma Forall2_In_r {A B} (R : A -> B -> Prop) (l : list A) (l' : list B) (y : B) :
  Forall2 R l l' -> In y l' -> exists x, In x l /\ R x y.
Proof.
  induction 1 as [|x y' l l' HR _ IH]; intros Hin; [destruct Hin|].
  destruct Hin as [->|Hin]; [exists x; split; [now left | assumption]|].
  destruct (IH Hin) as (x' & Hx' & HR'). exists x'. split; [now right | assumption].
Qed.

Lemma Forall2_In_l {A B} (R : A -> B -> Prop) (l : list A) (l' : list B) (x : A) :
  Forall2 R l l' -> In x l -> exists y, In y l' /\ R x y.
Proof.
  induction 1 as [|x' y l l' HR _ IH]; intros Hin; [destruct Hin|].
  destruct Hin as [->|Hin]; [exists y; split; [now left | assumption]|].
  destruct (IH Hin) as (y' & Hy' & HR'). exists y'. split; [now right | assumption].
Qed.

(** C7. A filter record comes out of [addFilterObjs] with [matchAll] true
    exactly when its matcher list is empty: starting from the empty list of a
    freshly decoded stanza, one matcher is appended per listed SNMP version
    and one per field that is not a wildcard (empty string for the IP and OID
    fields, -1 for the trap types), and the list stays empty only when every
    field is a wildcard.  The same holds of every filter and plugin-error
    filter of a configuration [getConfig] publishes. *)
Theorem matchAll_iff_no_matchers (E : Env) :
  (forall filter ipSets lineNumber built,
      matchers filter = [] ->
      addFilterObjs E filter ipSets lineNumber = Ok built ->
      (matchAll built = true <-> matchers built = []) /\
      length (matchers built) = wanted filter /\
      (matchers built = [] <->
         SnmpVersions filter = [] /\ SourceIp filter = EmptyString /\
         AgentAddress filter = EmptyString /\ GenericType filter = (-1)%Z /\
         SpecificType filter = (-1)%Z /\ EnterpriseOid filter = EmptyString)) /\
  (forall st st',
      getConfig E st = (Done tt, st') ->
      exists published,
        teConfig st' = Some published /\
        forall f,
          In f (Filters published ++ PluginErrorActions published) ->
          (matchAll f = true <-> matchers f = [])).
Proof.
  split.
  - intros filter ipSets lineNumber built Hfresh H.
    apply addFilterObjs_spec in H. destruct H as (new & -> & Hlen & _).
    cbn [withMatchers set_matchers set_matchAll matchers matchAll].
    rewrite Hfresh. cbn [app]. split; [|split].
    + destruct new; split; intros H; congruence.
    + exact Hlen.
    + rewrite <- wanted_zero, <- Hlen. destruct new; split; intros H;
        try reflexivity; try discriminate.
  - intros st st' H. apply getConfig_published in H.
    destruct H as (loaded & published & Hload & Hte & _ & HF & HP & _).
    exists published. split; [assumption|]. intros f Hin.
    pose proof (loadConfig_fresh _ _ _ Hload) as Hfresh.
    apply in_app_or in Hin. destruct Hin as [Hin|Hin].
    + destruct (Forall2_In_r _ _ _ _ HF Hin) as (f0 & Hin0 & Hb).
      apply (boundFrom_matchAll (IpSets published) f0); [|assumption].
      apply Hfresh. apply in_or_app. now left.
    + destruct (Forall2_In_r _ _ _ _ HP Hin) as (f0 & Hin0 & Hb).
      apply (boundFrom_matchAll (IpSets published) f0); [|assumption].
      apply Hfresh. apply in_or_app. now right.
Qed.

Lemma matchAll_iff_no_matchers_witness :
  matchers trustedLogFilter = [] /\
  addFilterObjs sampleEnv trustedLogFilter {["trusted"%string := ∅]} 0 =
    Ok (withMatchers (set_matchAll true trustedLogFilter)
          [{| filterItem_ := filterBySrcIP; filterType := parseTypeIPSet;
              filterValue_ := valString "trusted" |}]) /\
  length (matchers (withMatchers (set_matchAll true trustedLogFilter)
          [{| filterItem_ := filterBySrcIP; filterType := parseTypeIPSet;
              filterValue_ := valString "trusted" |}])) = wanted trustedLogFilter /\
  getConfig sampleEnv startOfProcess = (Done tt, running) /\
  exists published, teConfig running = Some published.
Proof.
  assert (addFilterObjs sampleEnv trustedLogFilter {["trusted"%string := ∅]} 0 =
    Ok (withMatchers (set_matchAll true trustedLogFilter)
          [{| filterItem_ := filterBySrcIP; filterType := parseTypeIPSet;
              filterValue_ := valString "trusted" |}])) as Hbuilt
    by (vm_compute; reflexivity).
  assert (getConfig sampleEnv startOfProcess = (Done tt, running)) as Hrun
    by (vm_compute; reflexivity).
  split; [reflexivity|]. split; [exact Hbuilt|].
  destruct (matchAll_iff_no_matchers sampleEnv) as [Hone Hall].
  split; [exact (proj1 (proj2 (Hone trustedLogFilter _ _ _ eq_refl Hbuilt)))|].
  split; [exact Hrun|].
  destruct (Hall _ _ Hrun) as (published & Hte & _). now exists published.
Defined.

(** C8. In a configuration [getConfig] publishes, every matcher of kind
    [parseTypeIPSet] holds the name of a key of the configuration's [IpSets]
    map.  The map is the one [addIpSets] built, handed to [addFilters] and not
    changed afterwards; a stanza whose source or agent field is [ipset:NAME]
    only binds when NAME is a key, and [addIpFilterObj] returns an error for
    any other name. *)
Theorem ipset_matchers_resolved (E : Env) (st st' : Process) :
  getConfig E st = (Done tt, st') ->
  exists loaded published,
    loadConfig E (configFile (teCmdLine E)) = Ok loaded /\
    teConfig st' = Some published /\
    (exists c2 c3 c4,
        addIpSets c2 = Ok c3 /\ addFilters E c3 = Ok c4 /\
        IpSets published = IpSets c3) /\
    (forall f m,
        In f (Filters published ++ PluginErrorActions published) ->
        In m (matchers f) ->
        filterType m = parseTypeIPSet ->
        exists name, filterValue_ m = valString name /\ name ∈ dom (IpSets published)) /\
    (forall f entry,
        In f (Filters loaded ++ PluginErrorActions loaded) ->
        entry = SourceIp f \/ entry = AgentAddress f ->
        GoStrings.HasPrefix entry "ipset:" = true ->
        GoStrings.sliceFrom 6 entry ∈ dom (IpSets published)) /\
    (forall filter source entry lineNumber,
        GoStrings.HasPrefix entry "ipset:" = true ->
        GoStrings.sliceFrom 6 entry ∉ dom (IpSets published) ->
        addIpFilterObj E filter source entry (IpSets published) lineNumber =
          Err ("invalid IP set name specified on for " +:+
               (fmt_int (filterItemCode source) +:+ " on line " +:+
                fmt_int lineNumber) +:+ ": " +:+ entry)).
Proof.
  intros H. apply getConfig_published in H.
  destruct H as (loaded & published & Hload & Hte & _ & HF & HP & Hbuilt).
  exists loaded, published.
  split; [assumption|]. split; [assumption|]. split; [assumption|].
  pose proof (loadConfig_fresh _ _ _ Hload) as Hfresh.
  assert (forall f0 f, In f0 (Filters loaded ++ PluginErrorActions loaded) ->
                       boundFrom (IpSets published) f0 f ->
                       Forall (ipsetResolved (IpSets published)) (matchers f)) as Hres.
  { intros f0 f Hin0 ((new & Hms & _ & _ & Hall) & _).
    rewrite Hms, (Hfresh f0 Hin0). exact Hall. }
  split; [|split].
  - intros f m Hin Hm Hkind.
    assert (Forall (ipsetResolved (IpSets published)) (matchers f)) as Hall.
    { apply in_app_or in Hin. destruct Hin as [Hin|Hin].
      - destruct (Forall2_In_r _ _ _ _ HF Hin) as (f0 & Hin0 & Hb).
        apply (Hres f0); [apply in_or_app; now left | assumption].
      - destruct (Forall2_In_r _ _ _ _ HP Hin) as (f0 & Hin0 & Hb).
        apply (Hres f0); [apply in_or_app; now right | assumption]. }
    rewrite Forall_forall in Hall. apply list_elem_of_In in Hm.
    destruct (Hall m Hm Hkind) as (name & Hval & Hkey).
    exists name. split; [assumption|]. now apply elem_of_dom.
  - intros f entry Hin Hentry Hprefix. apply elem_of_dom.
    assert (exists f', boundFrom (IpSets published) f f') as (f' & Hb).
    { apply in_app_or in Hin. destruct Hin as [Hin|Hin].
      - destruct (Forall2_In_l _ _ _ _ HF Hin) as (f' & _ & Hb). now exists f'.
      - destruct (Forall2_In_l _ _ _ _ HP Hin) as (f' & _ & Hb). now exists f'. }
    destruct Hb as (_ & Hsrc & Hagent & _).
    destruct Hentry as [-> | ->]; auto.
  - intros filter source entry lineNumber Hprefix Hnot.
    apply addIpFilterObj_unknown; [assumption|].
    apply not_elem_of_dom. exact Hnot.
Qed.

Lemma ipset_matchers_resolved_witness :
  getConfig sampleEnv startOfProcess = (Done tt, running) /\
  exists published,
    teConfig running = Some published /\
    "trusted"%string ∈ dom (IpSets published).
Proof.
  assert (getConfig sampleEnv startOfProcess = (Done tt, running)) as Hrun
    by (vm_compute; reflexivity).
  split; [exact Hrun|].
  destruct (ipset_matchers_resolved sampleEnv _ _ Hrun)
    as (loaded & published & Hload & Hte & _ & _ & Hkeys & _).
  exists published. split; [assumption|].
  assert (loaded = zeroUnexported trustedDocument) as -> by
    (vm_compute in Hload; now injection Hload as <-).
  apply (Hkeys trustedLogFilter "ipset:trusted"%string);
    [left; reflexivity | left; reflexivity | reflexivity].
Defined.

(** ** Reload *)

Lemma getConfig_not_Done E st r st' :
  getConfig E st = (r, st') -> r <> Done tt ->
  teConfig st' = teConfig st /\ totalTraps st' = totalTraps st.
Proof.
  unfold getConfig. intros H Hr.
  repeat match type of H with
         | match ?x with _ => _ end = _ =>
             destruct x;
             try (injection H as <- <-; first [contradiction | split; reflexivity])
         end.
Qed.

Lemma getConfig_Failed_trace E st st' e :
  getConfig E st = (Failed e, st') ->
  trace st' =
    trace st ++
    [EvLog levelInfo
       ((if isReconfigure st then "Reloading" else "Loading")%string +:+
        " configuration for trapmux") None].
Proof.
  unfold getConfig. intros H.
  repeat match type of H with
         | match ?x with _ => _ end = _ =>
             destruct x; try discriminate H;
             try (injection H as <- <-; reflexivity)
         end.
Qed.

Lemma getConfig_Exited_trace E st st' e :
  getConfig E st = (Exited e, st') ->
  trace st' =
    trace st ++
    [EvLog levelInfo
       ((if isReconfigure st then "Reloading" else "Loading")%string +:+
        " configuration for trapmux") None;
     EvLog levelFatal "Unable to load metric reporting plugin" (Some e)].
Proof.
  unfold getConfig. intros H.
  repeat match type of H with
         | match ?x with _ => _ end = _ =>
             destruct x; try discriminate H;
             try (injection H as <- <-; cbn [emit trace]; now rewrite <- app_assoc)
         end.
Qed.

Lemma getConfig_Done_intro E st loaded c1 params c3 c4 c5 c6 :
  loadConfig E (configFile (teCmdLine E)) = Ok loaded ->
  validateIgnoreVersions (applyCliOverrides E loaded) = Ok c1 ->
  validateSnmpV3Args E (TrapReceiverSettings c1) = Ok params ->
  addIpSets (set_TrapReceiverSettings params c1) = Ok c3 ->
  addFilters E c3 = Ok c4 ->
  addPluginErrorActions E c4 = Ok c5 ->
  addReportingPlugins E (teConfig st) c5 = Done c6 ->
  (forall cur, teConfig st = Some cur -> teConfigured cur = true ->
               snd (closeHandles E cur) = true) ->
  fst (getConfig E st) = Done tt.
Proof.
  intros H0 H1 H2 H3 H4 H5 H6 Hclose. unfold getConfig.
  rewrite H0, H1, H2, H3, H4, H5. cbn [emit teConfig]. rewrite H6.
  destruct (teConfig st) as [cur|] eqn:Hcur; [|reflexivity].
  destruct (teConfigured cur) eqn:Hconf; [|reflexivity].
  specialize (Hclose cur eq_refl Hconf).
  destruct (closeHandles E cur) as [closed finished]. simpl in Hclose.
  subst finished. reflexivity.
Qed.

Lemma handleSIGHUP_Failed E st st' e :
  getConfig E st = (Failed e, st') ->
  handleSIGHUP E st = (Done tt, emit [notChanged e] st').
Proof. unfold handleSIGHUP. now intros ->. Qed.

(** The ways a [getConfig] ends in which every call of [Env] returned.  One
    that does not return nil leaves the global pointer [teConfig] as it was
    and has only written log lines: when it returns an error, [handleSIGHUP]
    logs it and goes on; when the reporting step cannot load a plugin, its
    fatal log line ends the process.  The call returns nil, and stores the new
    configuration, only when loading, both validations and the four build
    steps all succeeded. *)
Lemma getConfig_endings (E : Env) (st st' : Process) (r : outcome unit) :
  getConfig E st = (r, st') ->
  (r <> Done tt -> teConfig st' = teConfig st) /\
  (forall e, r = Failed e ->
     trace st' =
       trace st ++
       [EvLog levelInfo
          ((if isReconfigure st then "Reloading" else "Loading")%string +:+
           " configuration for trapmux") None] /\
     handleSIGHUP E st = (Done tt, emit [notChanged e] st')) /\
  (forall e, r = Exited e ->
     trace st' =
       trace st ++
       [EvLog levelInfo
          ((if isReconfigure st then "Reloading" else "Loading")%string +:+
           " configuration for trapmux") None;
        EvLog levelFatal "Unable to load metric reporting plugin" (Some e)]) /\
  (r = Done tt ->
     exists loaded c1 params c3 c4 c5 c6,
       loadConfig E (configFile (teCmdLine E)) = Ok loaded /\
       validateIgnoreVersions (applyCliOverrides E loaded) = Ok c1 /\
       validateSnmpV3Args E (TrapReceiverSettings c1) = Ok params /\
       addIpSets (set_TrapReceiverSettings params c1) = Ok c3 /\
       addFilters E c3 = Ok c4 /\
       addPluginErrorActions E c4 = Ok c5 /\
       addReportingPlugins E (teConfig st) c5 = Done c6 /\
       teConfig st' = Some (set_teConfigured true c6)) /\
  (forall loaded c1 params c3 c4 c5 c6,
       loadConfig E (configFile (teCmdLine E)) = Ok loaded ->
       validateIgnoreVersions (applyCliOverrides E loaded) = Ok c1 ->
       validateSnmpV3Args E (TrapReceiverSettings c1) = Ok params ->
       addIpSets (set_TrapReceiverSettings params c1) = Ok c3 ->
       addFilters E c3 = Ok c4 ->
       addPluginErrorActions E c4 = Ok c5 ->
       addReportingPlugins E (teConfig st) c5 = Done c6 ->
       (forall cur, teConfig st = Some cur -> teConfigured cur = true ->
                    snd (closeHandles E cur) = true) ->
       r = Done tt).
Proof.
  intros H. split; [|split; [|split; [|split]]].
  - intros Hr. now apply (getConfig_not_Done E st r st').
  - intros e ->. split; [now apply (getConfig_Failed_trace E st st' e)|].
    now apply handleSIGHUP_Failed.
  - intros e ->. now apply (getConfig_Exited_trace E st st' e).
  - intros ->. apply getConfig_Done in H.
    destruct H as (loaded & c1 & params & c3 & c4 & c5 & c6 & closed &
                   H0 & H1 & H2 & H3 & H4 & H5 & H6 & _ & Hte & _).
    exists loaded, c1, params, c3, c4, c5, c6. auto 10.
  - intros loaded c1 params c3 c4 c5 c6 H0 H1 H2 H3 H4 H5 H6 Hclose.
    pose proof (getConfig_Done_intro E st _ _ _ _ _ _ _ H0 H1 H2 H3 H4 H5 H6 Hclose)
      as Hdone.
    rewrite H in Hdone. exact Hdone.
Qed.

Lemma getConfig_endings_sample :
  getConfig (envServing brokenDocument) running =
    (Failed "invalid IP address (1.2.3) in ipset: trusted",
     snd (getConfig (envServing brokenDocument) running)) /\
  teConfig (snd (getConfig (envServing brokenDocument) running)) = teConfig running.
Proof.
  assert (getConfig (envServing brokenDocument) running =
    (Failed "invalid IP address (1.2.3) in ipset: trusted",
     snd (getConfig (envServing brokenDocument) running))) as Hfail
    by (vm_compute; reflexivity).
  split; [exact Hfail|].
  apply (proj1 (getConfig_endings _ _ _ _ Hfail)). discriminate.
Qed.

(** C2. A reload whose reporting step cannot load its metric plugin ends the
    daemon: [addReportingPlugins] logs at fatal level, which exits the
    process, and the [return err] behind that line is never reached.  No
    error comes back to [handleSIGHUP], the line "Configuration was not
    changed" is not written, and the configuration in force serves no further
    trap.  When the same plugin loads and refuses its arguments, four lines
    further down, the error is returned and [handleSIGHUP] logs it and goes
    on. *)
Theorem reload_ends_process_at_reporting :
  (exists cur, teConfig running = Some cur /\ teConfigured cur = true) /\
  handleSIGHUP metricPluginMissing running =
    (Exited "plugin.Open: file not found"%string,
     emit [reloading;
           EvLog levelFatal "Unable to load metric reporting plugin"
             (Some "plugin.Open: file not found"%string)] running) /\
  existsb isNotChanged
    (trace (snd (handleSIGHUP metricPluginMissing running))) = false /\
  handleSIGHUP metricPluginRefuses running =
    (Done tt,
     emit [reloading;
           notChanged
             "unable to configure plugin prometheus at line 0: listen: address in use"%string]
       running) /\
  existsb isNotChanged
    (trace (snd (handleSIGHUP metricPluginRefuses running))) = true.
Proof.
  split; [eexists; split; vm_compute; reflexivity|].
  split; [vm_compute; reflexivity|]. split; [vm_compute; reflexivity|].
  split; vm_compute; reflexivity.
Qed.

(** ** The v3 security check *)

(** X1. What the two comparisons at the end of [validateSnmpV3Args] do
    enforce: a configuration it accepts with [msg_flags] AuthNoPriv names an
    authentication protocol, and one it accepts with AuthPriv names a privacy
    protocol. *)
Lemma validateSnmpV3Args_checked (E : Env) (params accepted : trapListenerConfig) :
  validateSnmpV3Args E params = Ok accepted ->
  (MsgFlags accepted = g.AuthNoPriv -> AuthProto accepted <> g.NoAuth) /\
  (MsgFlags accepted = g.AuthPriv -> PrivacyProto accepted <> g.NoPriv).
Proof.
  unfold validateSnmpV3Args. intros H.
  apply bind_Ok in H. destruct H as (msgFlags & _ & H).
  apply bind_Ok in H. destruct H as (authProto & _ & H).
  apply bind_Ok in H. destruct H as (authPassword & _ & H).
  apply bind_Ok in H. destruct H as (privacyProto & _ & H).
  apply bind_Ok in H. destruct H as (privacyPassword & _ & H).
  destruct ((Z.land msgFlags g.AuthPriv =? 1)%Z && (authProto <? 2)%Z) eqn:Hauth;
    [discriminate|].
  destruct ((msgFlags =? g.AuthPriv)%Z && (privacyProto <? 2)%Z) eqn:Hpriv;
    [discriminate|].
  injection H as <-. cbn [set_v3 MsgFlags AuthProto PrivacyProto].
  unfold g.AuthNoPriv, g.AuthPriv, g.NoAuth, g.NoPriv in *.
  split.
  - intros -> ->. discriminate Hauth.
  - intros -> ->. discriminate Hpriv.
Qed.

Lemma validateSnmpV3Args_checked_witness :
  validateSnmpV3Args sampleEnv (TrapReceiverSettings trustedDocument) =
    Ok (set_v3 g.AuthNoPriv g.SHA "secret" g.NoPriv ""
          (TrapReceiverSettings trustedDocument)) /\
  (MsgFlags (set_v3 g.AuthNoPriv g.SHA "secret" g.NoPriv ""
               (TrapReceiverSettings trustedDocument)) = g.AuthNoPriv ->
   AuthProto (set_v3 g.AuthNoPriv g.SHA "secret" g.NoPriv ""
                (TrapReceiverSettings trustedDocument)) <> g.NoAuth).
Proof.
  assert (validateSnmpV3Args sampleEnv (TrapReceiverSettings trustedDocument) =
    Ok (set_v3 g.AuthNoPriv g.SHA "secret" g.NoPriv ""
          (TrapReceiverSettings trustedDocument))) as H by (vm_compute; reflexivity).
  split; [exact H|].
  exact (proj1 (validateSnmpV3Args_checked _ _ _ H)).
Defined.

(** C3, at the input on which the code departs from it: with [msg_flags]
    AuthPriv, no authentication protocol and a privacy protocol,
    [validateSnmpV3Args] returns nil.  The first comparison reads
    [(MsgFlags & AuthPriv) == 1], and AuthPriv & AuthPriv is 3; the
    authentication bit of AuthPriv is set all the same. *)
Theorem validateSnmpV3Args_AuthPriv_without_auth :
  validateSnmpV3Args sampleEnv authPrivWithoutAuth =
    Ok (set_v3 g.AuthPriv g.NoAuth "" g.AES "secret" authPrivWithoutAuth) /\
  Z.land g.AuthPriv g.AuthNoPriv = g.AuthNoPriv /\
  Z.land g.AuthPriv g.AuthPriv = 3%Z.
Proof. vm_compute. auto. Qed.

(** ** Closing the handles of the configuration in force *)

Lemma closeHandles_loop_closes (E : Env) (filters : list trapmuxFilter) :
  forall evs,
    closeHandles_loop E filters = (evs, true) ->
    closedHandles evs = boundPlugins filters.
Proof.
  induction filters as [|f rest IH]; intros evs H; cbn [closeHandles_loop] in H.
  - now injection H as <-.
  - unfold boundPlugins. cbn [omap list_omap]. fold (boundPlugins rest).
    destruct (actionType f); try (now apply IH).
    destruct (plugin f) as [p|]; [|discriminate].
    destruct (closeHandles_loop E rest) as [evs' finished].
    injection H as <- ->. specialize (IH evs' eq_refl).
    unfold closedHandles in *. cbn [omap list_omap].
    rewrite omap_app, IH. f_equal.
    destruct (Close E p); reflexivity.
Qed.

(** X2. [closeHandles] calls [Close] once on the handle of every plugin filter
    of [teConfig.Filters], in the order of the list, and logs each error a
    call returns; an error does not end the loop. *)
Lemma closeHandles_closes_Filters (E : Env) (cur : trapmuxConfig) (evs : list Event) :
  closeHandles E cur = (evs, true) ->
  closedHandles evs = boundPlugins (Filters cur) /\
  closeWarnings evs = omap (Close E) (boundPlugins (Filters cur)).
Proof.
  unfold closeHandles. intros H. split; [now apply (closeHandles_loop_closes E)|].
  revert evs H. induction (Filters cur) as [|f rest IH]; intros evs H;
    cbn [closeHandles_loop] in H.
  - now injection H as <-.
  - unfold boundPlugins. cbn [omap list_omap]. fold (boundPlugins rest).
    destruct (actionType f); try (now apply IH).
    destruct (plugin f) as [p|]; [|discriminate].
    destruct (closeHandles_loop E rest) as [evs' finished].
    injection H as <- ->. specialize (IH evs' eq_refl).
    cbn [omap list_omap]. unfold closeWarnings in *.
    change (EvClose p :: ?l) with ([EvClose p] ++ l).
    rewrite !omap_app, IH. cbn [omap list_omap app].
    destruct (Close E p); reflexivity.
Qed.

Lemma closeHandles_closes_Filters_witness :
  closeHandles envCloseFails runningConfig =
    ([EvClose 3; EvLog levelWarn "Unable to perform close operation"
                   (Some "file already closed"%string); EvClose 7], true) /\
  closeWarnings [EvClose 3; EvLog levelWarn "Unable to perform close operation"
                   (Some "file already closed"%string); EvClose 7] =
    omap (Close envCloseFails) (boundPlugins (Filters runningConfig)).
Proof.
  assert (closeHandles envCloseFails runningConfig =
    ([EvClose 3; EvLog levelWarn "Unable to perform close operation"
                   (Some "file already closed"%string); EvClose 7], true)) as H
    by (vm_compute; reflexivity).
  split; [exact H|].
  exact (proj2 (closeHandles_closes_Filters _ _ _ H)).
Defined.

(** C5, at the input on which the code departs from it: the configuration in
    force binds the plugin with handle 6 in its plugin-error list; the reload
    succeeds, and [closeHandles] has called [Close] on the plugins of the
    filter list (handles 3 and 7) and on no other. *)
Theorem closeHandles_skips_PluginErrorActions :
  exists published,
    teConfig running = Some published /\
    boundPlugins (Filters published) = [3; 7] /\
    boundPlugins (PluginErrorActions published) = [6] /\
    closeHandles sampleEnv published = ([EvClose 3; EvClose 7], true) /\
    fst (getConfig sampleEnv running) = Done tt /\
    closedHandles (trace (snd (getConfig sampleEnv running))) = [3; 7].
Proof. eexists. vm_compute. repeat split. Qed.

(** ** The loop of [processTrap] *)

Section DispatchFacts.

Variable isFilterMatch : trapmuxFilter -> pluginMeta.Trap -> bool.
Variable processAction :
  trapmuxFilter -> pluginMeta.Trap -> pluginMeta.Trap * option error.
Variable cur : trapmuxConfig.

#[local] Abbreviation turn := (processTrap_turn isFilterMatch processAction cur).
#[local] Abbreviation loop := (processTrap_loop isFilterMatch processAction cur).

Lemma processTrap_turn_dropped i filterDef trap :
  pluginMeta.Dropped trap = true -> turn i filterDef trap = (trap, []).
Proof. unfold processTrap_turn. now intros ->. Qed.

Lemma processTrap_loop_dropped filters :
  forall i trap,
    pluginMeta.Dropped trap = true -> loop i filters trap = (trap, []).
Proof.
  induction filters as [|f rest IH]; intros i trap Hd; cbn [processTrap_loop].
  - reflexivity.
  - rewrite processTrap_turn_dropped by assumption. now rewrite IH.
Qed.

Lemma processTrap_loop_app l1 :
  forall l2 i trap,
    loop i (l1 ++ l2) trap =
      (fst (loop (i + length l1) l2 (fst (loop i l1 trap))),
       snd (loop i l1 trap) ++ snd (loop (i + length l1) l2 (fst (loop i l1 trap)))).
Proof.
  induction l1 as [|f rest IH]; intros l2 i trap.
  - cbn [app processTrap_loop length fst snd]. rewrite Nat.add_0_r.
    now destruct (loop i l2 trap).
  - cbn [app processTrap_loop length].
    destruct (turn i f trap) as [t1 e1].
    rewrite (IH l2 (S i) t1). replace (i + S (length rest)) with (S i + length rest) by lia.
    destruct (loop (S i) rest t1) as [t2 e2]. cbn [fst snd].
    now rewrite app_assoc.
Qed.

End DispatchFacts.

Lemma count_in_seq (r a n : nat) :
  length (List.filter (fun k => (k =? r)%nat) (seq a n)) =
  if (a <=? r)%nat && (r <? a + n)%nat then 1 else 0.
Proof.
  revert a. induction n as [|n IH]; intros a; cbn [seq List.filter].
  - destruct (a <=? r)%nat eqn:H1, (r <? a + 0)%nat eqn:H2; try reflexivity.
    apply Nat.leb_le in H1. apply Nat.ltb_lt in H2. lia.
  - destruct (Nat.eqb_spec a r) as [->|Hne]; cbn [length]; rewrite IH.
    + assert ((S r <=? r)%nat = false) as -> by (apply Nat.leb_gt; lia).
      assert ((r <=? r)%nat = true) as -> by (apply Nat.leb_le; lia).
      assert ((r <? r + S n)%nat = true) as -> by (apply Nat.ltb_lt; lia).
      reflexivity.
    + destruct (a <=? r)%nat eqn:H1, (S a <=? r)%nat eqn:H3,
        (r <? a + S n)%nat eqn:H2, (r <? S a + n)%nat eqn:H4; try reflexivity;
        repeat match goal with
               | H : (_ <=? _)%nat = true |- _ => apply Nat.leb_le in H
               | H : (_ <=? _)%nat = false |- _ => apply Nat.leb_gt in H
               | H : (_ <? _)%nat = true |- _ => apply Nat.ltb_lt in H
               | H : (_ <? _)%nat = false |- _ => apply Nat.ltb_ge in H
               end; lia.
Qed.

Lemma counterValue_counterInc (cur : trapmuxConfig) (counter : pluginMeta.Counter) (r : nat) :
  r < length (Reporting cur) ->
  counterValue r counter (counterInc cur counter) = 1.
Proof.
  intros Hr. unfold counterValue, counterInc.
  assert (forall l, length (List.filter (isInc r counter)
                              (map (fun reporter => EvInc reporter counter) l)) =
                    length (List.filter (fun k => (k =? r)%nat) l)) as Hmap.
  { induction l as [|k l IH]; [reflexivity|]. cbn [map List.filter isInc].
    rewrite bool_decide_eq_true_2 by reflexivity. rewrite andb_true_r.
    destruct (k =? r)%nat; cbn [length]; now rewrite IH. }
  rewrite Hmap, count_in_seq.
  assert ((r <? 0 + length (Reporting cur))%nat = true) as -> by (apply Nat.ltb_lt; lia).
  reflexivity.
Qed.



(** ** Goroutines of the plugin-error filters *)

Lemma goroutinesOf_app evs1 evs2 :
  goroutinesOf (evs1 ++ evs2) = goroutinesOf evs1 ++ goroutinesOf evs2.
Proof. apply omap_app. Qed.

Lemma failures_app evs1 evs2 : failures (evs1 ++ evs2) = failures evs1 + failures evs2.
Proof. unfold failures. now rewrite List.filter_app, length_app. Qed.

Lemma errorActionsRun_app j evs1 evs2 :
  errorActionsRun j (evs1 ++ evs2) = errorActionsRun j evs1 + errorActionsRun j evs2.
Proof. unfold errorActionsRun. now rewrite List.filter_app, length_app. Qed.

Lemma waiting_app j gs1 gs2 : waiting j (gs1 ++ gs2) = waiting j gs1 + waiting j gs2.
Proof. unfold waiting. now rewrite List.filter_app, length_app. Qed.

Lemma waiting_cons j k gs :
  waiting j (k :: gs) = (if (k =? j)%nat then 1 else 0) + waiting j gs.
Proof. unfold waiting. cbn [List.filter]. now destruct (k =? j)%nat. Qed.

Lemma counterInc_quiet cur counter j :
  goroutinesOf (counterInc cur counter) = [] /\
  failures (counterInc cur counter) = 0 /\
  errorActionsRun j (counterInc cur counter) = 0.
Proof.
  unfold counterInc. induction (seq 0 (length (Reporting cur))) as [|k l IH];
    [repeat split|].
  destruct IH as (H1 & H2 & H3). repeat split; assumption.
Qed.

Lemma spawnErrorActions_spec cur j :
  goroutinesOf (spawnErrorActions cur) = seq 0 (length (PluginErrorActions cur)) /\
  failures (spawnErrorActions cur) = 0 /\
  errorActionsRun j (spawnErrorActions cur) = 0.
Proof.
  unfold spawnErrorActions. induction (seq 0 (length (PluginErrorActions cur))) as [|k l IH];
    [repeat split|].
  destruct IH as (H1 & H2 & H3). repeat split; try assumption.
  cbn [map]. change (goroutinesOf (EvGo k :: map EvGo l)) with (k :: goroutinesOf (map EvGo l)).
  now rewrite H1.
Qed.

Section GoroutineFacts.

Variable isFilterMatch : trapmuxFilter -> pluginMeta.Trap -> bool.
Variable processAction :
  trapmuxFilter -> pluginMeta.Trap -> pluginMeta.Trap * option error.
Variable cur : trapmuxConfig.

#[local] Abbreviation turn := (processTrap_turn isFilterMatch processAction cur).
#[local] Abbreviation stepOf := (step isFilterMatch processAction cur).

(** What one turn of the loop leaves in the trace: no goroutine has run, and
    either nothing failed and none was started, or one action failed and one
    goroutine per plugin-error filter was started. *)
Lemma processTrap_turn_events i filterDef trap j :
  errorActionsRun j (snd (turn i filterDef trap)) = 0 /\
  ((failures (snd (turn i filterDef trap)) = 0 /\
    goroutinesOf (snd (turn i filterDef trap)) = []) \/
   (failures (snd (turn i filterDef trap)) = 1 /\
    goroutinesOf (snd (turn i filterDef trap)) =
      seq 0 (length (PluginErrorActions cur)))).
Proof.
  pose proof (counterInc_quiet cur pluginMeta.DroppedTraps j) as (C1 & C2 & C3).
  pose proof (spawnErrorActions_spec cur j) as (S1 & S2 & S3).
  assert (forall evs : list Event,
             evs = [] \/ evs = [EvIsFilterMatch i] ->
             goroutinesOf evs = [] /\ failures evs = 0 /\ errorActionsRun j evs = 0) as Hm.
  { intros evs [-> | ->]; repeat split. }
  unfold processTrap_turn.
  destruct (pluginMeta.Dropped trap); [cbn; auto|].
  set (evalMatch := if matchAll filterDef then [] else [EvIsFilterMatch i]).
  assert (evalMatch = [] \/ evalMatch = [EvIsFilterMatch i]) as Hev
    by (unfold evalMatch; destruct (matchAll filterDef); auto).
  destruct (Hm evalMatch Hev) as (M1 & M2 & M3).
  destruct (matchAll filterDef || isFilterMatch filterDef trap);
    [|cbn [snd]; auto].
  assert (forall (trap' : pluginMeta.Trap) (err : option error) (tail : list Event),
             goroutinesOf tail = [] -> failures tail = 0 -> errorActionsRun j tail = 0 ->
             let evs := evalMatch ++
                        (EvProcessAction i (bool_decide (is_Some err)) ::
                         match err with Some _ => spawnErrorActions cur | None => [] end) ++
                        tail in
             errorActionsRun j evs = 0 /\
             ((failures evs = 0 /\ goroutinesOf evs = []) \/
              (failures evs = 1 /\
               goroutinesOf evs = seq 0 (length (PluginErrorActions cur))))) as Hact.
  { intros trap' err tail T1 T2 T3 evs. unfold evs.
    rewrite !errorActionsRun_app, !failures_app, !goroutinesOf_app, M1, M2, M3, T1, T2, T3.
    destruct err as [e|].
    - change (EvProcessAction i (bool_decide (is_Some (Some e))) :: spawnErrorActions cur)
        with ([EvProcessAction i true] ++ spawnErrorActions cur).
      rewrite errorActionsRun_app, failures_app, goroutinesOf_app, S1, S2, S3.
      cbn. rewrite app_nil_r. auto.
    - cbn. auto. }
  destruct (actionType filterDef).
  - cbn [snd]. rewrite errorActionsRun_app, failures_app, goroutinesOf_app,
      M1, M2, M3, C1, C2, C3. auto.
  - destruct (processAction filterDef trap) as [trap' err].
    destruct (BreakAfter filterDef); cbn [snd].
    + now apply Hact.
    + specialize (Hact trap' err [] eq_refl eq_refl eq_refl). cbn zeta in Hact.
      rewrite app_nil_r in Hact. exact Hact.
  - destruct (processAction filterDef trap) as [trap' err].
    destruct (BreakAfter filterDef); cbn [snd].
    + now apply Hact.
    + specialize (Hact trap' err [] eq_refl eq_refl eq_refl). cbn zeta in Hact.
      rewrite app_nil_r in Hact. exact Hact.
Qed.

Lemma errorAction_events j' trap j :
  failures (snd (errorAction processAction cur j' trap)) = 0 /\
  goroutinesOf (snd (errorAction processAction cur j' trap)) = [] /\
  (j' < length (PluginErrorActions cur) ->
   errorActionsRun j (snd (errorAction processAction cur j' trap)) =
     if (j' =? j)%nat then 1 else 0).
Proof.
  unfold errorAction.
  destruct (PluginErrorActions cur !! j') as [f|] eqn:Hlook.
  - destruct (processAction f trap) as [trap' err]. cbn [snd].
    repeat split. intros _. unfold errorActionsRun. cbn.
    destruct (j' =? j)%nat; reflexivity.
  - repeat split. intros Hlt. apply lookup_ge_None in Hlook. lia.
Qed.

Lemma step_balanced j d d' :
  j < length (PluginErrorActions cur) ->
  stepOf d d' -> balanced cur j d -> balanced cur j d'.
Proof.
  intros Hj Hstep [Hbal Hrange].
  destruct Hstep as [i filterDef rest gs trap evs trap' evs' Hturn
                    | ts gs1 j' gs2 trap evs trap' evs' Hgo];
    unfold balanced in *; cbn [done started] in *.
  - pose proof (processTrap_turn_events i filterDef trap j) as (Hrun & Hcase).
    rewrite Hturn in Hrun, Hcase. cbn [snd] in Hrun, Hcase.
    rewrite errorActionsRun_app, failures_app, waiting_app, Hrun.
    destruct Hcase as [[Hf Hg] | [Hf Hg]]; rewrite Hf, Hg.
    + split; [change (waiting j []) with 0; lia | now rewrite app_nil_r].
    + split.
      * unfold waiting at 2. rewrite count_in_seq.
        assert ((j <? 0 + length (PluginErrorActions cur))%nat = true) as ->
            by (apply Nat.ltb_lt; lia).
        change ((0 <=? j)%nat) with true. cbn [andb]. lia.
      * apply Forall_app. split; [assumption|].
        apply Forall_forall. intros k Hk. apply list_elem_of_In, in_seq in Hk. lia.
  - apply Forall_app in Hrange. destruct Hrange as [Hr1 Hr2].
    apply Forall_cons in Hr2. destruct Hr2 as [Hj' Hr2].
    pose proof (errorAction_events j' trap j) as (Hf & _ & Hrun).
    rewrite Hgo in Hf, Hrun. cbn [snd] in Hf, Hrun. specialize (Hrun Hj').
    rewrite errorActionsRun_app, failures_app, Hf, Hrun.
    rewrite waiting_app, waiting_cons in Hbal. rewrite waiting_app.
    split; [|apply Forall_app; now split].
    destruct (j' =? j)%nat; lia.
Qed.

Lemma reachable_balanced j d d' :
  j < length (PluginErrorActions cur) ->
  rtc stepOf d d' -> balanced cur j d -> balanced cur j d'.
Proof.
  intros Hj Hrtc. induction Hrtc as [d|d d1 d2 Hstep _ IH]; [auto|].
  intros Hb. apply IH. now apply (step_balanced j d d1).
Qed.

(** A dispatch that is not finished can always go on. *)
Lemma step_progress d :
  turns d <> [] \/ started d <> [] -> exists d', stepOf d d'.
Proof.
  destruct d as [ts gs trap evs]. cbn [turns started].
  intros [Hts|Hgs].
  - destruct ts as [|[i f] rest]; [contradiction|].
    eexists. apply step_turn. apply surjective_pairing.
  - destruct gs as [|j gs]; [contradiction|].
    eexists. apply (step_goroutine _ _ _ ts [] j gs). apply surjective_pairing.
Qed.

Lemma step_remaining d d' : stepOf d d' -> remaining cur d' < remaining cur d.
Proof.
  intros Hstep.
  destruct Hstep as [i filterDef rest gs trap evs trap' evs' Hturn
                    | ts gs1 j' gs2 trap evs trap' evs' Hgo];
    unfold remaining; cbn [turns started length].
  - pose proof (processTrap_turn_events i filterDef trap 0) as (_ & Hcase).
    rewrite Hturn in Hcase. cbn [snd] in Hcase. rewrite length_app.
    destruct Hcase as [[_ Hg] | [_ Hg]]; rewrite Hg; [cbn; lia|].
    rewrite length_seq. lia.
  - rewrite !length_app. cbn [length]. lia.
Qed.

Lemma runs_to_the_end :
  forall m d, remaining cur d <= m -> exists d', rtc stepOf d d' /\ finished d'.
Proof.
  induction m as [|m IH]; intros d Hm.
  - exists d. split; [constructor|]. unfold remaining in Hm. unfold finished.
    destruct (turns d), (started d); cbn in Hm; try lia. auto.
  - destruct (turns d) as [|t ts] eqn:Hts.
    + destruct (started d) as [|j gs] eqn:Hgs.
      * exists d. split; [constructor | now split].
      * destruct (step_progress d) as (d1 & Hstep); [right; now rewrite Hgs|].
        pose proof (step_remaining _ _ Hstep) as Hlt.
        destruct (IH d1) as (d' & Hrtc & Hfin); [lia|].
        exists d'. split; [now apply (rtc_l _ d d1) | assumption].
    + destruct (step_progress d) as (d1 & Hstep); [left; now rewrite Hts|].
      pose proof (step_remaining _ _ Hstep) as Hlt.
      destruct (IH d1) as (d' & Hrtc & Hfin); [lia|].
      exists d'. split; [now apply (rtc_l _ d d1) | assumption].
Qed.

End GoroutineFacts.



(** ** The sequence numbers of handled traps *)

Lemma toUint_wrapInt (z : Z) : toUint (wrapInt z) = (z mod 2 ^ 64)%Z.
Proof.
  unfold toUint, wrapInt. rewrite Zminus_mod_idemp_l. f_equal. lia.
Qed.

Lemma wrapInt_succ (z : Z) : wrapInt (wrapInt z + 1) = wrapInt (z + 1).
Proof.
  unfold wrapInt. f_equal.
  replace ((z + 2 ^ 63) mod 2 ^ 64 - 2 ^ 63 + 1 + 2 ^ 63)%Z
    with ((z + 2 ^ 63) mod 2 ^ 64 + 1)%Z by lia.
  rewrite Zplus_mod_idemp_l. f_equal. lia.
Qed.

Lemma wrapInt_small (z : Z) : (0 <= z < 2 ^ 63)%Z -> wrapInt z = z.
Proof. intros Hz. unfold wrapInt. rewrite Z.mod_small; lia. Qed.

Lemma trapNumbers_app evs1 evs2 :
  trapNumbers (evs1 ++ evs2) = trapNumbers evs1 ++ trapNumbers evs2.
Proof. apply omap_app. Qed.

Lemma trapNumbers_counterInc cur counter : trapNumbers (counterInc cur counter) = [].
Proof.
  unfold counterInc. now induction (seq 0 (length (Reporting cur))) as [|k l IH].
Qed.

Lemma trapNumbers_spawnErrorActions cur : trapNumbers (spawnErrorActions cur) = [].
Proof.
  unfold spawnErrorActions.
  now induction (seq 0 (length (PluginErrorActions cur))) as [|k l IH].
Qed.

Section HandlerFacts.

Variable isFilterMatch : trapmuxFilter -> pluginMeta.Trap -> bool.
Variable processAction :
  trapmuxFilter -> pluginMeta.Trap -> pluginMeta.Trap * option error.
Variable cur : trapmuxConfig.

Lemma trapNumbers_processTrap_turn i filterDef trap :
  trapNumbers (snd (processTrap_turn isFilterMatch processAction cur i filterDef trap)) = [].
Proof.
  unfold processTrap_turn.
  destruct (pluginMeta.Dropped trap); [reflexivity|].
  destruct (matchAll filterDef || isFilterMatch filterDef trap);
    [|now destruct (matchAll filterDef)].
  destruct (actionType filterDef), (processAction filterDef trap) as [trap' [e|]],
    (BreakAfter filterDef), (matchAll filterDef); cbn [snd];
    rewrite ?trapNumbers_app; cbn [app];
    repeat match goal with
           | |- context [trapNumbers (?e :: ?l)] =>
               lazymatch l with
               | [] => fail
               | _ => change (trapNumbers (e :: l)) with (trapNumbers ([e] ++ l));
                      rewrite trapNumbers_app
               end
           end;
    rewrite ?trapNumbers_app, ?trapNumbers_counterInc, ?trapNumbers_spawnErrorActions;
    reflexivity.
Qed.

Lemma trapNumbers_processTrap_loop filters :
  forall i trap,
    trapNumbers (snd (processTrap_loop isFilterMatch processAction cur i filters trap)) = [].
Proof.
  induction filters as [|f rest IH]; intros i trap; cbn [processTrap_loop]; [reflexivity|].
  pose proof (trapNumbers_processTrap_turn i f trap) as Hturn.
  destruct (processTrap_turn _ _ _ i f trap) as [t1 e1]. cbn [snd] in Hturn.
  specialize (IH (S i) t1).
  destruct (processTrap_loop _ _ _ (S i) rest t1) as [t2 e2]. cbn [snd] in *.
  now rewrite trapNumbers_app, Hturn, IH.
Qed.

Lemma trapHandler_spec p addr st :
  totalTraps (trapHandler isFilterMatch processAction cur p addr st) =
    wrapInt (totalTraps st + 1) /\
  trapNumbers (trace (trapHandler isFilterMatch processAction cur p addr st)) =
    trapNumbers (trace st) ++
    (if isIgnoredVersion cur (g.Version p) then []
     else [toUint (wrapInt (totalTraps st + 1))]).
Proof.
  unfold trapHandler.
  set (perVersion :=
         if (g.Version p =? g.Version1)%Z then counterInc cur pluginMeta.V1Traps
         else if (g.Version p =? g.Version2c)%Z then counterInc cur pluginMeta.V2cTraps
         else if (g.Version p =? g.Version3)%Z then counterInc cur pluginMeta.V3Traps
         else []).
  assert (trapNumbers perVersion = []) as Hper.
  { unfold perVersion.
    destruct (g.Version p =? g.Version1)%Z; [apply trapNumbers_counterInc|].
    destruct (g.Version p =? g.Version2c)%Z; [apply trapNumbers_counterInc|].
    destruct (g.Version p =? g.Version3)%Z; [apply trapNumbers_counterInc | reflexivity]. }
  destruct (isIgnoredVersion cur (g.Version p)).
  - split; [reflexivity|]. cbn [emit set_totalTraps trace totalTraps].
    rewrite !trapNumbers_app, !trapNumbers_counterInc, Hper. now rewrite !app_nil_r.
  - destruct (String.eqb (Logging_Level cur) "debug");
      (split; [reflexivity|]); cbn [emit set_totalTraps trace totalTraps];
      rewrite !trapNumbers_app, !trapNumbers_counterInc, Hper;
      match goal with
      | |- context [trapNumbers (EvProcessTrap ?t :: ?l)] =>
          change (trapNumbers (EvProcessTrap t :: l))
            with (pluginMeta.TrapNumber t :: trapNumbers l)
      end;
      unfold processTrap; rewrite trapNumbers_processTrap_loop;
      cbn [pluginMeta.TrapNumber trapNumbers omap list_omap app];
      now rewrite ?app_nil_r.
Qed.

Lemma deliver_spec packets :
  forall st n,
    totalTraps st = wrapInt n ->
    totalTraps (deliver isFilterMatch processAction cur packets st) =
      wrapInt (n + Z.of_nat (length packets)) /\
    trapNumbers (trace (deliver isFilterMatch processAction cur packets st)) =
      trapNumbers (trace st) ++
      map (fun N => (N mod 2 ^ 64)%Z) (handledPositions cur packets n).
Proof.
  induction packets as [|[p addr] rest IH]; intros st n Hn.
  - cbn [deliver length handledPositions map]. rewrite Z.add_0_r, app_nil_r. auto.
  - cbn [deliver handledPositions].
    destruct (trapHandler_spec p addr st) as [Htotal Htrace].
    rewrite Hn, wrapInt_succ in Htotal. rewrite Hn, wrapInt_succ, toUint_wrapInt in Htrace.
    destruct (IH _ (n + 1)%Z Htotal) as [IH1 IH2].
    split.
    + rewrite IH1. f_equal. cbn [length]. lia.
    + rewrite IH2, Htrace, <- app_assoc, map_app. f_equal. f_equal.
      now destruct (isIgnoredVersion cur (g.Version p)).
Qed.

End HandlerFacts.

Lemma handledPositions_range cur packets :
  forall n N,
    In N (handledPositions cur packets n) ->
    (n < N <= n + Z.of_nat (length packets))%Z.
Proof.
  induction packets as [|[p addr] rest IH]; intros n N Hin; [destruct Hin|].
  cbn [handledPositions] in Hin. apply in_app_or in Hin. cbn [length].
  destruct Hin as [Hin|Hin].
  - destruct (isIgnoredVersion cur (g.Version p)); [destruct Hin|].
    destruct Hin as [<-|[]]. lia.
  - apply IH in Hin. lia.
Qed.

Lemma handledPositions_sorted cur packets :
  forall n, StronglySorted Z.lt (handledPositions cur packets n).
Proof.
  induction packets as [|[p addr] rest IH]; intros n; cbn [handledPositions].
  - constructor.
  - destruct (isIgnoredVersion cur (g.Version p)); cbn [app]; [apply IH|].
    constructor; [apply IH|]. apply Forall_forall. intros N HN.
    apply list_elem_of_In, handledPositions_range in HN. lia.
Qed.

Lemma handledPositions_In cur packets :
  forall n N,
    In N (handledPositions cur packets n) <->
    exists k p addr,
      N = (n + Z.of_nat k + 1)%Z /\ packets !! k = Some (p, addr) /\
      isIgnoredVersion cur (g.Version p) = false.
Proof.
  induction packets as [|[p addr] rest IH]; intros n N; cbn [handledPositions].
  - split; [intros [] | intros (k & p & addr & _ & Hk & _); discriminate].
  - rewrite in_app_iff, IH. split.
    + intros [Hin|(k & p' & addr' & -> & Hk & Hig)].
      * destruct (isIgnoredVersion cur (g.Version p)) eqn:Hig; [destruct Hin|].
        destruct Hin as [<-|[]]. exists 0, p, addr. split; [lia | auto].
      * exists (S k), p', addr'. split; [lia | auto].
    + intros (k & p' & addr' & -> & Hk & Hig). destruct k as [|k].
      * left. injection Hk as <- <-. rewrite Hig. left. lia.
      * right. exists k, p', addr'. split; [lia | auto].
Qed.

Lemma map_mod_small (l : list Z) :
  (forall N, In N l -> (0 <= N < 2 ^ 64)%Z) ->
  map (fun N => (N mod 2 ^ 64)%Z) l = l.
Proof.
  induction l as [|N l IH]; intros Hl; [reflexivity|]. cbn [map].
  rewrite Z.mod_small by (apply Hl; now left).
  rewrite IH; [reflexivity|]. intros M HM. apply Hl. now right.
Qed.

(** C10. [trapHandler] increments [totalTraps] for every packet it is called
    with, ignored or not, and stamps the trap of a packet that is not ignored
    with the total reached (as an unsigned machine word).  Delivered in order
    from the start of the process, the traps handed to [processTrap] carry the
    places of their packets in the order of arrival, counted from 1 (modulo
    2^64; the places themselves below 2^64 packets): the numbers increase
    strictly, the packet in place N, if handled, carries N, and a number
    belongs to an ignored packet exactly when no handled trap carries it, so
    the numbers of handled traps need not be contiguous. *)
Theorem trap_numbers_follow_arrival
  (isFilterMatch : trapmuxFilter -> pluginMeta.Trap -> bool)
  (processAction : trapmuxFilter -> pluginMeta.Trap -> pluginMeta.Trap * option error)
  (cur : trapmuxConfig) (packets : list (g.SnmpPacket * string)) :
  let st := deliver isFilterMatch processAction cur packets startOfProcess in
  (forall p addr st0,
      totalTraps (trapHandler isFilterMatch processAction cur p addr st0) =
        wrapInt (totalTraps st0 + 1)) /\
  totalTraps st = wrapInt (Z.of_nat (length packets)) /\
  trapNumbers (trace st) =
    map (fun N => (N mod 2 ^ 64)%Z) (handledPositions cur packets 0) /\
  ((Z.of_nat (length packets) < 2 ^ 63)%Z ->
   totalTraps st = Z.of_nat (length packets)) /\
  ((Z.of_nat (length packets) < 2 ^ 64)%Z ->
   trapNumbers (trace st) = handledPositions cur packets 0 /\
   StronglySorted Z.lt (trapNumbers (trace st)) /\
   (forall N,
       In N (trapNumbers (trace st)) <->
       exists k p addr,
         N = (Z.of_nat k + 1)%Z /\ packets !! k = Some (p, addr) /\
         isIgnoredVersion cur (g.Version p) = false)) /\
  trapNumbers
    (trace (deliver alwaysMatch forwardFails runningConfig
              [samplePacket g.Version2c; samplePacket g.Version3; samplePacket g.Version1]
              startOfProcess)) = [1%Z; 3%Z].
Proof.
  intros st.
  destruct (deliver_spec isFilterMatch processAction cur packets startOfProcess 0 eq_refl)
    as [Htotal Htrace].
  fold st in Htotal, Htrace. cbn [Z.add] in Htotal. cbn [startOfProcess trace] in Htrace.
  change (trapNumbers []) with (@nil Z) in Htrace. cbn [app] in Htrace.
  split; [|split; [|split; [|split; [|split]]]].
  - intros p addr st0. apply trapHandler_spec.
  - exact Htotal.
  - exact Htrace.
  - intros Hlen. rewrite Htotal. apply wrapInt_small. lia.
  - intros Hlen.
    assert (trapNumbers (trace st) = handledPositions cur packets 0) as Heq.
    { rewrite Htrace. apply map_mod_small. intros N HN.
      apply handledPositions_range in HN. lia. }
    split; [exact Heq|]. rewrite Heq. split; [apply handledPositions_sorted|].
    intros N. rewrite handledPositions_In. reflexivity.
  - vm_compute. reflexivity.
Qed.

Lemma trap_numbers_follow_arrival_witness :
  (Z.of_nat (length [samplePacket g.Version2c; samplePacket g.Version3;
                     samplePacket g.Version1]) < 2 ^ 64)%Z /\
  StronglySorted Z.lt
    (trapNumbers
       (trace (deliver alwaysMatch forwardFails runningConfig
                 [samplePacket g.Version2c; samplePacket g.Version3;
                  samplePacket g.Version1] startOfProcess))).
Proof.
  assert (Z.of_nat (length [samplePacket g.Version2c; samplePacket g.Version3;
                            samplePacket g.Version1]) < 2 ^ 64)%Z as Hlen
    by (vm_compute; reflexivity).
  split; [exact Hlen|].
  exact (proj1 (proj2 (proj1 (proj2 (proj2 (proj2 (proj2
           (trap_numbers_follow_arrival alwaysMatch forwardFails runningConfig
              [samplePacket g.Version2c; samplePacket g.Version3;
               samplePacket g.Version1]))))) Hlen))).
Defined.

(** ** Overrides of the listener settings *)

Lemma oneOf_In (s : string) (cases : list string) : oneOf s cases = true <-> In s cases.
Proof.
  unfold oneOf. rewrite existsb_exists. split.
  - intros (x & Hx & Heq). apply String.eqb_eq in Heq. now subst.
  - intros Hin. exists s. split; [assumption | apply String.eqb_refl].
Qed.


Lemma nonEmpty_spec (s : string) : nonEmpty s = true <-> s <> EmptyString.
Proof.
  unfold nonEmpty. destruct (String.eqb_spec s EmptyString); simpl; split;
    intros H; congruence.
Qed.

Lemma firstNonEmpty_last (a b : string) :
  firstNonEmpty [a; b] = if nonEmpty a then a else b.
Proof. cbn. destruct (nonEmpty a); [reflexivity|]. unfold nonEmpty.
  destruct (String.eqb_spec b EmptyString); simpl; congruence. Qed.

Lemma set_ListenAddr_firstNonEmpty (fromEnv fromFlag : string) (t : trapListenerConfig) :
  (if nonEmpty fromEnv then set_ListenAddr fromEnv t
   else if nonEmpty fromFlag then set_ListenAddr fromFlag t else t) =
  set_ListenAddr (firstNonEmpty [fromEnv; fromFlag; ListenAddr t]) t.
Proof.
  cbn [firstNonEmpty]. destruct (nonEmpty fromEnv), (nonEmpty fromFlag); try reflexivity.
  destruct t as [h a p ivs iv mfs mf aps ap apw pps pp ppw]. cbn [ListenAddr].
  unfold nonEmpty. now destruct (String.eqb_spec a EmptyString) as [->|].
Qed.

Lemma set_ListenPort_firstNonEmpty (fromEnv fromFlag : string) (t : trapListenerConfig) :
  (if nonEmpty fromEnv then set_ListenPort fromEnv t
   else if nonEmpty fromFlag then set_ListenPort fromFlag t else t) =
  set_ListenPort (firstNonEmpty [fromEnv; fromFlag; ListenPort t]) t.
Proof.
  cbn [firstNonEmpty]. destruct (nonEmpty fromEnv), (nonEmpty fromFlag); try reflexivity.
  destruct t as [h a p ivs iv mfs mf aps ap apw pps pp ppw]. cbn [ListenPort].
  unfold nonEmpty. now destruct (String.eqb_spec p EmptyString) as [->|].
Qed.

Lemma set_Hostname_firstNonEmpty (E : Env) (fromEnv : string) (t : trapListenerConfig) :
  (if nonEmpty fromEnv then set_Hostname fromEnv t
   else if String.eqb (Hostname t) EmptyString then
     match os_Hostname E with
     | Err _ => set_Hostname "_undefined" t
     | Ok myName => set_Hostname myName t
     end
   else t) =
  set_Hostname (firstNonEmpty [fromEnv; Hostname t; systemHostname E]) t.
Proof.
  cbn [firstNonEmpty]. destruct (nonEmpty fromEnv); [reflexivity|].
  destruct t as [h a p ivs iv mfs mf aps ap apw pps pp ppw]. cbn [Hostname].
  unfold nonEmpty, systemHostname.
  destruct (String.eqb_spec h EmptyString) as [->|]; cbn [negb]; [|reflexivity].
  destruct (os_Hostname E) as [myName|err]; [|reflexivity].
  now destruct (String.eqb_spec myName EmptyString) as [->|].
Qed.

(** The result of [applyCliOverrides], setting by setting. *)
Lemma applyCliOverrides_normal (E : Env) (newConfig : trapmuxConfig) :
  let t := TrapReceiverSettings newConfig in
  applyCliOverrides E newConfig =
    set_TrapReceiverSettings
      (set_Hostname
         (firstNonEmpty [Getenv E "TRAPMUX_HOSTNAME"; Hostname t; systemHostname E])
         (set_ListenPort
            (firstNonEmpty [Getenv E "TRAPMUX_LISTEN_PORT"; listenPort (teCmdLine E);
                            ListenPort t])
            (set_ListenAddr
               (firstNonEmpty [Getenv E "TRAPMUX_LISTEN_ADDRESS"; bindAddr (teCmdLine E);
                               ListenAddr t])
               t)))
      (set_Logging_Level
         (if debugMode (teCmdLine E) then "debug"%string else Logging_Level newConfig)
         newConfig).
Proof.
  intros t. unfold applyCliOverrides. fold t. cbn zeta.
  rewrite set_ListenAddr_firstNonEmpty, set_ListenPort_firstNonEmpty,
    set_Hostname_firstNonEmpty.
  reflexivity.
Qed.

(** X3. [applyCliOverrides] settles the listener address and port by
    precedence: the environment variable, then the command-line flag, then
    the document.  The hostname comes from the environment variable, then
    the document, then [os.Hostname()], with [_undefined] when that call
    fails; the log level becomes [debug] under the debug flag.  No other
    setting changes. *)
Theorem applyCliOverrides_precedence (E : Env) (newConfig : trapmuxConfig) :
  let t := TrapReceiverSettings newConfig in
  applyCliOverrides E newConfig =
    set_TrapReceiverSettings
      (set_Hostname
         (firstNonEmpty [Getenv E "TRAPMUX_HOSTNAME"; Hostname t; systemHostname E])
         (set_ListenPort
            (firstNonEmpty [Getenv E "TRAPMUX_LISTEN_PORT"; listenPort (teCmdLine E);
                            ListenPort t])
            (set_ListenAddr
               (firstNonEmpty [Getenv E "TRAPMUX_LISTEN_ADDRESS"; bindAddr (teCmdLine E);
                               ListenAddr t])
               t)))
      (set_Logging_Level
         (if debugMode (teCmdLine E) then "debug"%string else Logging_Level newConfig)
         newConfig).
Proof. exact (applyCliOverrides_normal E newConfig). Qed.

Lemma firstNonEmpty_nonEmpty (l : list string) (s : string) :
  s <> EmptyString -> firstNonEmpty (l ++ [s]) <> EmptyString.
Proof.
  intros Hs. induction l as [|a l IH]; cbn [app firstNonEmpty].
  - apply nonEmpty_spec in Hs. now rewrite Hs; apply nonEmpty_spec.
  - destruct (nonEmpty a) eqn:Ha; [now apply nonEmpty_spec | assumption].
Qed.

Lemma firstNonEmpty_single (s : string) : firstNonEmpty [s] = s.
Proof.
  cbn. unfold nonEmpty. now destruct (String.eqb_spec s EmptyString) as [->|].
Qed.

Lemma firstNonEmpty_absorb (l : list string) (s : string) :
  firstNonEmpty (l ++ [firstNonEmpty (l ++ [s])]) = firstNonEmpty (l ++ [s]).
Proof.
  induction l as [|a l IH]; cbn [app].
  - now rewrite !firstNonEmpty_single.
  - cbn [firstNonEmpty]. destruct (nonEmpty a); [reflexivity | exact IH].
Qed.

Lemma firstNonEmpty_absorb_last (a b c : string) :
  firstNonEmpty [a; b; firstNonEmpty [a; b; c]] = firstNonEmpty [a; b; c].
Proof. exact (firstNonEmpty_absorb [a; b] c). Qed.

Lemma firstNonEmpty_absorb_middle (a b c : string) :
  firstNonEmpty [a; firstNonEmpty [a; b; c]; c] = firstNonEmpty [a; b; c].
Proof.
  cbn [firstNonEmpty]. destruct (nonEmpty a); [reflexivity|].
  destruct (nonEmpty b) eqn:Hb; [now rewrite Hb|].
  destruct (nonEmpty c) eqn:Hc; [now rewrite Hc|]. reflexivity.
Qed.

(** X4. After [applyCliOverrides] the hostname of the listener is set, unless
    [os.Hostname()] itself returns the empty name without an error. *)
Theorem applyCliOverrides_hostname_set (E : Env) (newConfig : trapmuxConfig) :
  os_Hostname E <> Ok EmptyString ->
  Hostname (TrapReceiverSettings (applyCliOverrides E newConfig)) <> EmptyString.
Proof.
  intros Hos. rewrite applyCliOverrides_normal.
  cbn [TrapReceiverSettings set_TrapReceiverSettings Hostname set_Hostname].
  apply (firstNonEmpty_nonEmpty [_; _]).
  unfold systemHostname. destruct (os_Hostname E) as [myName|err]; [congruence | discriminate].
Qed.

Lemma applyCliOverrides_hostname_set_witness :
  os_Hostname envOverriding <> Ok EmptyString /\
  Hostname (TrapReceiverSettings (applyCliOverrides envOverriding zeroConfig)) <>
    EmptyString.
Proof.
  assert (os_Hostname envOverriding <> Ok EmptyString) as Hos by discriminate.
  split; [exact Hos|].
  exact (applyCliOverrides_hostname_set envOverriding zeroConfig Hos).
Defined.

(** X5. Applying the overrides a second time changes nothing. *)
Theorem applyCliOverrides_idempotent (E : Env) (newConfig : trapmuxConfig) :
  applyCliOverrides E (applyCliOverrides E newConfig) = applyCliOverrides E newConfig.
Proof.
  rewrite (applyCliOverrides_normal E (applyCliOverrides E newConfig)).
  rewrite (applyCliOverrides_normal E newConfig).
  cbn [TrapReceiverSettings set_TrapReceiverSettings Hostname set_Hostname
       ListenPort set_ListenPort ListenAddr set_ListenAddr Logging_Level
       set_Logging_Level].
  rewrite !firstNonEmpty_absorb_last, firstNonEmpty_absorb_middle.
  destruct newConfig as [configured path host t level sets registry fs pe rp].
  destruct t as [h a p ivs iv mfs mf aps ap apw pps pp ppw].
  cbn. now destruct (debugMode (teCmdLine E)).
Qed.

(** ** The v3 settings [validateSnmpV3Args] accepts *)

Lemma validateSnmpV3Args_isOk (E : Env) (params : trapListenerConfig) :
  let flags := GoStrings.ToLower (MsgFlags_str params) in
  let auth := GoStrings.ToLower (AuthProto_str params) in
  let priv := GoStrings.ToLower (PrivacyProto_str params) in
  isOk (validateSnmpV3Args E params) =
    oneOf flags ["noauthnopriv"; ""; "authnopriv"; "authpriv"]%string &&
    oneOf auth ["noauth"; ""; "sha"; "md5"]%string &&
    isOk (GetSecret E (AuthPassword params)) &&
    oneOf priv ["nopriv"; ""; "aes"; "des"]%string &&
    isOk (GetSecret E (PrivacyPassword params)) &&
    negb (String.eqb flags "authnopriv" && oneOf auth ["noauth"; ""]%string) &&
    negb (String.eqb flags "authpriv" && oneOf priv ["nopriv"; ""]%string).
Proof.
  intros flags auth priv. unfold validateSnmpV3Args. fold flags auth priv.
  clearbody flags auth priv. unfold oneOf. cbn [existsb].
  destruct (String.eqb_spec flags "noauthnopriv") as [->|?];
    [|destruct (String.eqb_spec flags "") as [->|?];
      [|destruct (String.eqb_spec flags "authnopriv") as [->|?];
        [|destruct (String.eqb_spec flags "authpriv") as [->|?]; [|reflexivity]]]];
    cbn [orb andb bind String.eqb Ascii.eqb Bool.eqb negb];
    (destruct (String.eqb_spec auth "noauth") as [->|?];
      [|destruct (String.eqb_spec auth "") as [->|?];
        [|destruct (String.eqb_spec auth "sha") as [->|?];
          [|destruct (String.eqb_spec auth "md5") as [->|?]; [|reflexivity]]]]);
    cbn [orb andb bind String.eqb Ascii.eqb Bool.eqb negb];
    (destruct (GetSecret E (AuthPassword params)) as [authPw|?]; [|reflexivity]);
    cbn [orb andb bind isOk negb];
    (destruct (String.eqb_spec priv "nopriv") as [->|?];
      [|destruct (String.eqb_spec priv "") as [->|?];
        [|destruct (String.eqb_spec priv "aes") as [->|?];
          [|destruct (String.eqb_spec priv "des") as [->|?]; [|reflexivity]]]]);
    cbn [orb andb bind String.eqb Ascii.eqb Bool.eqb negb];
    (destruct (GetSecret E (PrivacyPassword params)) as [privPw|?]; [|reflexivity]);
    reflexivity.
Qed.

(** X6. For settings written in ASCII, [validateSnmpV3Args] returns nil
    exactly when the three settings, lower-cased, are among the names it knows
    (the empty text standing for none), both passwords resolve through
    [GetSecret], [authnopriv] does not come without an authentication protocol
    and [authpriv] does not come without a privacy protocol. *)
Theorem validateSnmpV3Args_accepts (E : Env) (params : trapListenerConfig) :
  GoStrings.isASCII (MsgFlags_str params) = true ->
  GoStrings.isASCII (AuthProto_str params) = true ->
  GoStrings.isASCII (PrivacyProto_str params) = true ->
  let flags := GoStrings.ToLower (MsgFlags_str params) in
  let auth := GoStrings.ToLower (AuthProto_str params) in
  let priv := GoStrings.ToLower (PrivacyProto_str params) in
  isOk (validateSnmpV3Args E params) = true <->
    In flags ["noauthnopriv"; ""; "authnopriv"; "authpriv"]%string /\
    In auth ["noauth"; ""; "sha"; "md5"]%string /\
    isOk (GetSecret E (AuthPassword params)) = true /\
    In priv ["nopriv"; ""; "aes"; "des"]%string /\
    isOk (GetSecret E (PrivacyPassword params)) = true /\
    ~ (flags = "authnopriv"%string /\ In auth ["noauth"; ""]%string) /\
    ~ (flags = "authpriv"%string /\ In priv ["nopriv"; ""]%string).
Proof.
  intros _ _ _ flags auth priv. rewrite validateSnmpV3Args_isOk. fold flags auth priv.
  rewrite !andb_true_iff, !negb_true_iff, <- !not_true_iff_false, !andb_true_iff,
    !oneOf_In, !String.eqb_eq.
  tauto.
Qed.

Lemma validateSnmpV3Args_accepts_witness :
  GoStrings.isASCII (MsgFlags_str (TrapReceiverSettings trustedDocument)) = true /\
  GoStrings.isASCII (AuthProto_str (TrapReceiverSettings trustedDocument)) = true /\
  GoStrings.isASCII (PrivacyProto_str (TrapReceiverSettings trustedDocument)) = true /\
  isOk (validateSnmpV3Args sampleEnv (TrapReceiverSettings trustedDocument)) = true.
Proof.
  split; [reflexivity|]. split; [reflexivity|]. split; [reflexivity|].
  apply (validateSnmpV3Args_accepts sampleEnv (TrapReceiverSettings trustedDocument)
           eq_refl eq_refl eq_refl).
  cbn [In]. repeat split; try (vm_compute; tauto).
  - intros [Hflags [Hauth|[Hauth|[]]]]; vm_compute in Hauth; discriminate Hauth.
  - intros [Hflags _]. vm_compute in Hflags. discriminate Hflags.
Defined.

(** ** What [addIpSets] leaves in the registry *)

Lemma membersFrom_lookup (ips : list string) :
  forall start ip,
    membersFrom start ips !! ip = if oneOf ip ips then Some true else start !! ip.
Proof.
  unfold membersFrom, oneOf.
  induction ips as [|a ips IH]; intros start ip; cbn [foldl existsb]; [reflexivity|].
  rewrite IH. destruct (existsb (String.eqb ip) ips); [now rewrite orb_true_r|].
  rewrite orb_false_r. destruct (String.eqb_spec ip a) as [->|Hne].
  - now rewrite lookup_insert_eq.
  - now rewrite lookup_insert_ne by congruence.
Qed.

Lemma addIpSets_ips_registry (ipsName : string) (ips : list string) :
  forall start ipSets filled,
    addIpSets_ips ipsName ips (<[ipsName := start]> ipSets) = Ok filled ->
    filled = <[ipsName := membersFrom start ips]> ipSets.
Proof.
  induction ips as [|ip ips IH]; intros start ipSets filled H; cbn [addIpSets_ips] in H.
  - now injection H as <-.
  - destruct (ipRe_MatchString ip); [|discriminate].
    rewrite lookup_insert_eq, insert_insert_eq in H. cbn [default] in H.
    now apply IH in H.
Qed.

Lemma addIpSets_stanza_registry (stanza : list (string * list string)) :
  forall ipSets filled,
    addIpSets_stanza stanza ipSets = Ok filled ->
    forall name,
      filled !! name =
        match lastListing name stanza with
        | Some ips => Some (membersFrom ∅ ips)
        | None => ipSets !! name
        end.
Proof.
  induction stanza as [|[ipsName ips] rest IH]; intros ipSets filled H name;
    cbn [addIpSets_stanza lastListing] in *.
  - now injection H as <-.
  - apply bind_Ok in H. destruct H as (m & Hm & H).
    apply addIpSets_ips_registry in Hm. subst m.
    rewrite (IH _ _ H name). destruct (lastListing name rest); [reflexivity|].
    destruct (String.eqb_spec ipsName name) as [->|Hne].
    + now rewrite lookup_insert_eq.
    + now rewrite lookup_insert_ne.
Qed.

Lemma lastListing_app (name : string) (l1 l2 : list (string * list string)) :
  lastListing name (l1 ++ l2) =
    match lastListing name l2 with
    | Some later => Some later
    | None => lastListing name l1
    end.
Proof.
  induction l1 as [|[n ips] l1 IH]; cbn [app lastListing].
  - now destruct (lastListing name l2).
  - rewrite IH. now destruct (lastListing name l2).
Qed.

Lemma addIpSets_stanzas_registry (stanzas : list (list (string * list string))) :
  forall ipSets filled,
    addIpSets_stanzas stanzas ipSets = Ok filled ->
    forall name,
      filled !! name =
        match lastListing name (concat stanzas) with
        | Some ips => Some (membersFrom ∅ ips)
        | None => ipSets !! name
        end.
Proof.
  induction stanzas as [|stanza rest IH]; intros ipSets filled H name;
    cbn [addIpSets_stanzas concat] in *.
  - now injection H as <-.
  - apply bind_Ok in H. destruct H as (m & Hm & H).
    rewrite (IH _ _ H name), lastListing_app.
    destruct (lastListing name (concat rest)); [reflexivity|].
    apply (addIpSets_stanza_registry _ _ _ Hm).
Qed.

(** X7. After [addIpSets], a name the document lists stands for the addresses
    of its last listing only: an earlier listing of the same name is
    replaced, not merged, and every member is stored with the value true.  A
    name the document does not list keeps what the registry held for it. *)
Theorem addIpSets_last_listing_wins (newConfig built : trapmuxConfig) :
  addIpSets newConfig = Ok built ->
  forall name,
    match lastListing name (concat (IpSets_str newConfig)) with
    | Some ips =>
        exists members,
          IpSets built !! name = Some members /\
          forall ip, members !! ip = if oneOf ip ips then Some true else None
    | None => IpSets built !! name = IpSets newConfig !! name
    end.
Proof.
  unfold addIpSets. intros H name. apply bind_Ok in H. destruct H as (m & Hm & H).
  injection H as <-. cbn [IpSets set_IpSets].
  rewrite (addIpSets_stanzas_registry _ _ _ Hm name).
  destruct (lastListing name (concat (IpSets_str newConfig))) as [ips|]; [|reflexivity].
  exists (membersFrom ∅ ips). split; [reflexivity|]. intros ip.
  now rewrite membersFrom_lookup, lookup_empty.
Qed.

Lemma addIpSets_last_listing_wins_witness :
  isOk (addIpSets listedTwice) = true /\
  exists built members,
    addIpSets listedTwice = Ok built /\
    IpSets built !! "lab"%string = Some members /\
    members !! "10.0.0.3"%string = Some true /\
    members !! "10.0.0.1"%string = None.
Proof.
  split; [reflexivity|].
  destruct (addIpSets listedTwice) as [built|e] eqn:Hbuilt;
    [|vm_compute in Hbuilt; discriminate Hbuilt].
  pose proof (addIpSets_last_listing_wins listedTwice built Hbuilt "lab"%string)
    as (members & Hlook & Hmem).
  exists built, members. split; [reflexivity|]. split; [exact Hlook|].
  split; [exact (Hmem "10.0.0.3"%string) | exact (Hmem "10.0.0.1"%string)].
Defined.

(** ** The filters of a published configuration, one by one *)

Lemma validateIgnoreVersions_Ok c c' :
  validateIgnoreVersions c = Ok c' ->
  exists vs,
    c' = set_TrapReceiverSettings (set_IgnoreVersions vs (TrapReceiverSettings c)) c.
Proof.
  unfold validateIgnoreVersions. intros H. apply bind_Ok in H.
  destruct H as (vs & _ & H). destruct (2 <? length vs)%nat; [discriminate|].
  injection H as <-. now exists vs.
Qed.

Lemma addIpSets_Ok c c' :
  addIpSets c = Ok c' ->
  exists m,
    addIpSets_stanzas (IpSets_str c) (IpSets c) = Ok m /\ c' = set_IpSets m c.
Proof.
  unfold addIpSets. intros H. apply bind_Ok in H. destruct H as (m & Hm & H).
  injection H as <-. now exists m.
Qed.

Lemma addReportingPlugins_Done E te c c' :
  addReportingPlugins E te c = Done c' ->
  exists rs, addReportingPlugins_loop E te 0 (Reporting c) = Done rs /\
             c' = set_Reporting rs c.
Proof.
  unfold addReportingPlugins. intros H.
  destruct (addReportingPlugins_loop E te 0 (Reporting c)) as [rs| | |];
    try discriminate.
  injection H as <-. now exists rs.
Qed.

Lemma applyCliOverrides_path E c :
  General_PluginPath (applyCliOverrides E c) = General_PluginPath c.
Proof. reflexivity. Qed.

Lemma applyCliOverrides_Filters E c : Filters (applyCliOverrides E c) = Filters c.
Proof. reflexivity. Qed.

Lemma applyCliOverrides_PluginErrorActions E c :
  PluginErrorActions (applyCliOverrides E c) = PluginErrorActions c.
Proof. reflexivity. Qed.

Lemma applyCliOverrides_Reporting E c : Reporting (applyCliOverrides E c) = Reporting c.
Proof. reflexivity. Qed.

(** The filters [getConfig] publishes are those of the document, bound with
    the registry it publishes and the plugin path of the document. *)
Lemma getConfig_bound E st st' :
  getConfig E st = (Done tt, st') ->
  exists loaded published,
    loadConfig E (configFile (teCmdLine E)) = Ok loaded /\
    teConfig st' = Some published /\
    bindFilters E (IpSets published) (General_PluginPath loaded) 0 (Filters loaded) =
      Ok (Filters published) /\
    bindFilters E (IpSets published) (General_PluginPath loaded) 0
      (PluginErrorActions loaded) = Ok (PluginErrorActions published).
Proof.
  intros H. apply getConfig_Done in H.
  destruct H as (loaded & c1 & params & c3 & c4 & c5 & c6 & closed &
                 H0 & H1 & H2 & H3 & H4 & H5 & H6 & _ & Hte & _).
  exists loaded, (set_teConfigured true c6).
  split; [assumption|]. split; [assumption|].
  pose proof (applyCliOverrides_path E loaded) as Epath.
  pose proof (applyCliOverrides_Filters E loaded) as EF.
  pose proof (applyCliOverrides_PluginErrorActions E loaded) as EP.
  revert H1 Epath EF EP. generalize (applyCliOverrides E loaded). intros c0 H1 Epath EF EP.
  apply validateIgnoreVersions_Ok in H1. destruct H1 as (vs & ->).
  apply addIpSets_Ok in H3. destruct H3 as (m & _ & ->).
  unfold addFilters in H4. apply bind_Ok in H4. destruct H4 as (fs & Hfs & H4).
  injection H4 as <-.
  unfold addPluginErrorActions in H5. apply bind_Ok in H5.
  destruct H5 as (pe & Hpe & H5). injection H5 as <-.
  apply addReportingPlugins_Done in H6. destruct H6 as (rs & _ & ->).
  cbn [IpSets General_PluginPath Filters PluginErrorActions set_teConfigured
       set_Reporting set_PluginErrorActions set_Filters set_IpSets
       set_TrapReceiverSettings] in Hfs, Hpe |- *.
  rewrite Epath, EF in Hfs. rewrite Epath, EP in Hpe.
  split; [exact Hfs | exact Hpe].
Qed.

Lemma bindFilters_each E ipSets path (filters : list trapmuxFilter) :
  forall i bound,
    bindFilters E ipSets path i filters = Ok bound ->
    Forall2 (fun f f' =>
               exists line f1,
                 addFilterObjs E f ipSets line = Ok f1 /\
                 setAction E f1 path line = Ok f')
            filters bound.
Proof.
  induction filters as [|f rest IH]; intros i bound H; cbn [bindFilters] in H.
  - injection H as <-. constructor.
  - apply bind_Ok in H. destruct H as (f1 & H1 & H).
    apply bind_Ok in H. destruct H as (f2 & H2 & H).
    apply bind_Ok in H. destruct H as (rest' & H3 & H).
    injection H as <-. constructor; [|now apply (IH (S i))].
    now exists (Z.of_nat i), f1.
Qed.

Lemma setAction_actionBound E f pluginPathExpr line f' :
  setAction E f pluginPathExpr line = Ok f' ->
  actionBound E pluginPathExpr f f'.
Proof.
  unfold setAction, actionBound. intros H.
  destruct (oneOf (ActionName f) ["break"; "drop"]%string) eqn:Hbreak.
  { injection H as <-. split; [reflexivity|]. now apply oneOf_In. }
  destruct (oneOf (ActionName f) ["nat"]%string) eqn:Hnat.
  { cbn [ActionArg set_ActionArg ActionArgs set_actionType] in H.
    destruct (ActionArgs f !! "natIp"%string) as [target|] eqn:Harg;
      cbn [default from_option id] in H.
    - destruct (String.eqb_spec target EmptyString) as [->|Hne]; [discriminate|].
      injection H as <-. split; [reflexivity|]. cbn.
      apply oneOf_In in Hnat. destruct Hnat as [Hn|[]]. auto.
    - discriminate. }
  destruct (LoadActionPlugin E pluginPathExpr _) as [p|err] eqn:Hload; [|discriminate].
  cbn [ActionArgs set_ActionArgs set_plugin set_actionType ActionName] in *.
  destruct (Configure E p _) eqn:Hconf; [discriminate|].
  injection H as <-. split; [reflexivity|]. cbn.
  split.
  - intros Hin. apply not_true_iff_false in Hbreak, Hnat.
    rewrite oneOf_In in Hbreak, Hnat. cbn in Hin, Hbreak, Hnat. tauto.
  - exists p. auto.
Qed.

Lemma addFilterObjs_ActionName E f ipSets line f1 :
  addFilterObjs E f ipSets line = Ok f1 ->
  ActionName f1 = ActionName f /\ ActionArgs f1 = ActionArgs f.
Proof.
  intros H. apply addFilterObjs_spec in H. destruct H as (new & -> & _).
  split; reflexivity.
Qed.

Lemma actionBound_stanza E path f f1 f' :
  ActionName f1 = ActionName f -> ActionArgs f1 = ActionArgs f ->
  actionBound E path f1 f' -> actionBound E path f f'.
Proof. unfold actionBound. now intros -> ->. Qed.

(** X8. In a configuration [getConfig] publishes, the action of every filter
    and plugin-error filter follows the action name of its stanza: [break]
    and [drop] drop, [nat] holds the non-empty [natIp] argument, and any
    other name is a plugin that [LoadActionPlugin] found under the plugin
    path of the document and whose [Configure] returned nil on the arguments
    after [MergeSecrets]. *)
Theorem published_actions_bound (E : Env) (st st' : Process) :
  getConfig E st = (Done tt, st') ->
  exists loaded published,
    loadConfig E (configFile (teCmdLine E)) = Ok loaded /\
    teConfig st' = Some published /\
    Forall2 (actionBound E (General_PluginPath loaded))
      (Filters loaded) (Filters published) /\
    Forall2 (actionBound E (General_PluginPath loaded))
      (PluginErrorActions loaded) (PluginErrorActions published).
Proof.
  intros H. apply getConfig_bound in H.
  destruct H as (loaded & published & Hload & Hte & HF & HP).
  exists loaded, published. split; [assumption|]. split; [assumption|].
  assert (forall filters bound,
             bindFilters E (IpSets published) (General_PluginPath loaded) 0 filters =
               Ok bound ->
             Forall2 (actionBound E (General_PluginPath loaded)) filters bound) as Hall.
  { intros filters bound Hb. apply bindFilters_each in Hb.
    eapply Forall2_impl; [exact Hb|].
    intros f f' (line & f1 & H1 & H2). cbn beta in *.
    apply addFilterObjs_ActionName in H1. destruct H1 as [Hn Ha].
    apply setAction_actionBound in H2.
    now apply (actionBound_stanza E _ f f1 f'). }
  split; now apply Hall.
Qed.

Lemma published_actions_bound_witness :
  getConfig (envServing natDocument) startOfProcess =
    (Done tt, snd (getConfig (envServing natDocument) startOfProcess)) /\
  exists loaded published,
    teConfig (snd (getConfig (envServing natDocument) startOfProcess)) = Some published /\
    Forall2 (actionBound (envServing natDocument) (General_PluginPath loaded))
      (Filters loaded) (Filters published).
Proof.
  assert (getConfig (envServing natDocument) startOfProcess =
            (Done tt, snd (getConfig (envServing natDocument) startOfProcess))) as Hrun
    by (vm_compute; reflexivity).
  split; [exact Hrun|].
  destruct (published_actions_bound _ _ _ Hrun)
    as (loaded & published & _ & Hte & HF & _).
  exists loaded, published. split; [exact Hte | exact HF].
Defined.

(** ** The first stanza that does not bind *)

Lemma bindFilters_Err E ipSets path (filters : list trapmuxFilter) :
  forall i e,
    bindFilters E ipSets path i filters = Err e ->
    exists k f,
      filters !! k = Some f /\
      isOk (bindFilters E ipSets path i (take k filters)) = true /\
      (addFilterObjs E f ipSets (Z.of_nat (i + k)) = Err e \/
       exists f1,
         addFilterObjs E f ipSets (Z.of_nat (i + k)) = Ok f1 /\
         setAction E f1 path (Z.of_nat (i + k)) = Err e).
Proof.
  induction filters as [|f rest IH]; intros i e H; cbn [bindFilters] in H;
    [discriminate|].
  destruct (addFilterObjs E f ipSets (Z.of_nat i)) as [f1|e1] eqn:H1; cbn [bind] in H.
  - destruct (setAction E f1 path (Z.of_nat i)) as [f2|e2] eqn:H2; cbn [bind] in H.
    + destruct (bindFilters E ipSets path (S i) rest) as [rest'|e3] eqn:H3;
        cbn [bind] in H; [discriminate|].
      injection H as <-. destruct (IH _ _ H3) as (k & g & Hk & Hbefore & Herr).
      exists (S k), g. split; [exact Hk|]. split.
      * cbn [take bindFilters]. rewrite H1. cbn [bind]. rewrite H2. cbn [bind].
        destruct (bindFilters E ipSets path (S i) (take k rest)); [reflexivity|].
        discriminate Hbefore.
      * replace (i + S k) with (S i + k) by lia. exact Herr.
    + injection H as <-. exists 0, f. rewrite Nat.add_0_r.
      split; [reflexivity|]. split; [reflexivity|]. right. now exists f1.
  - injection H as <-. exists 0, f. rewrite Nat.add_0_r.
    split; [reflexivity|]. split; [reflexivity|]. now left.
Qed.

(** X9. When the loop of [addFilters] (and of [addPluginErrorActions]) returns
    an error, it is the error of the first stanza, in the order of the list,
    that does not bind, built with the zero-based position of that stanza as
    its line number; the stanzas before it all bound, and those after it were
    not looked at. *)
Theorem bindFilters_first_error (E : Env) (ipSets : gmap string IpSet) (path : string)
  (filters : list trapmuxFilter) (e : error) :
  bindFilters E ipSets path 0 filters = Err e ->
  exists k f,
    filters !! k = Some f /\
    isOk (bindFilters E ipSets path 0 (take k filters)) = true /\
    (addFilterObjs E f ipSets (Z.of_nat k) = Err e \/
     exists f1,
       addFilterObjs E f ipSets (Z.of_nat k) = Ok f1 /\
       setAction E f1 path (Z.of_nat k) = Err e) /\
    forall later,
      bindFilters E ipSets path 0 (take k filters ++ f :: later) = Err e.
Proof.
  intros H. destruct (bindFilters_Err _ _ _ _ _ _ H) as (k & f & Hk & Hbefore & Herr).
  cbn [Nat.add] in Herr. exists k, f.
  split; [exact Hk|]. split; [exact Hbefore|]. split; [exact Herr|].
  intros later. clear H.
  assert (forall i l,
             isOk (bindFilters E ipSets path i l) = true ->
             (addFilterObjs E f ipSets (Z.of_nat (i + length l)) = Err e \/
              exists f1,
                addFilterObjs E f ipSets (Z.of_nat (i + length l)) = Ok f1 /\
                setAction E f1 path (Z.of_nat (i + length l)) = Err e) ->
             bindFilters E ipSets path i (l ++ f :: later) = Err e) as Hgen.
  { intros i l. revert i. induction l as [|g l IH]; intros i Hok Hf; cbn [app bindFilters].
    - cbn [length] in Hf. rewrite Nat.add_0_r in Hf.
      destruct Hf as [-> | (f1 & -> & Hs)]; [reflexivity|]. cbn [bind]. now rewrite Hs.
    - cbn [bindFilters] in Hok.
      destruct (addFilterObjs E g ipSets (Z.of_nat i)) as [g1|]; [|discriminate Hok].
      cbn [bind] in *.
      destruct (setAction E g1 path (Z.of_nat i)) as [g2|]; [|discriminate Hok].
      cbn [bind] in *.
      destruct (bindFilters E ipSets path (S i) l) as [l'|] eqn:Hl; [|discriminate Hok].
      rewrite (IH (S i)); [reflexivity | now rewrite Hl |].
      cbn [length] in Hf. now replace (S i + length l) with (i + S (length l)) by lia. }
  apply lookup_lt_Some in Hk.
  apply Hgen; [exact Hbefore|]. rewrite length_take_le by lia. exact Herr.
Qed.

Lemma bindFilters_first_error_witness :
  bindFilters sampleEnv ∅ "" 0 [dropV1Filter; v9Filter; dropV1Filter] =
    Err "unsupported or invalid SNMP version (v9) on line 1" /\
  exists k f,
    [dropV1Filter; v9Filter; dropV1Filter] !! k = Some f /\
    (addFilterObjs sampleEnv f ∅ (Z.of_nat k) =
       Err "unsupported or invalid SNMP version (v9) on line 1" \/
     exists f1,
       addFilterObjs sampleEnv f ∅ (Z.of_nat k) = Ok f1 /\
       setAction sampleEnv f1 "" (Z.of_nat k) =
         Err "unsupported or invalid SNMP version (v9) on line 1").
Proof.
  assert (bindFilters sampleEnv ∅ "" 0 [dropV1Filter; v9Filter; dropV1Filter] =
            Err "unsupported or invalid SNMP version (v9) on line 1") as Hfail
    by (vm_compute; reflexivity).
  split; [exact Hfail|].
  destruct (bindFilters_first_error _ _ _ _ _ Hfail) as (k & f & Hk & _ & Herr & _).
  now exists k, f.
Defined.

(** ** The matchers of a published configuration are well formed *)

Lemma addSnmpFilterObj_loop_matchers E ipSets (candidates : list string) (line : Z) :
  forall f f',
    addSnmpFilterObj_loop candidates f line = Ok f' ->
    exists new, f' = withMatchers f new /\ Forall (matcherOk E ipSets) new.
Proof.
  induction candidates as [|c rest IH]; intros f f' H; cbn [addSnmpFilterObj_loop] in H.
  - injection H as <-. exists []. now rewrite withMatchers_nil.
  - destruct (versionOfToken (GoStrings.ToLower c)) as [v|] eqn:Hv; [|discriminate].
    rewrite withMatchers_one in H. apply IH in H. destruct H as (new & -> & Hall).
    eexists (_ :: new). rewrite withMatchers_app. split; [reflexivity|].
    constructor; [|assumption]. split; [reflexivity|]. exists v. split; [reflexivity|].
    apply versionOfToken_table in Hv. unfold allVersions. cbn [In].
    destruct Hv as [[-> _]|[[-> _]|[-> _]]]; auto.
Qed.

Lemma addIpFilterObj_matchers E f source networkEntry ipSets line f' :
  source = filterBySrcIP \/ source = filterByAgentAddr ->
  addIpFilterObj E f source networkEntry ipSets line = Ok f' ->
  exists new, f' = withMatchers f new /\ Forall (matcherOk E ipSets) new.
Proof.
  unfold addIpFilterObj. intros Hsource.
  destruct (String.eqb networkEntry EmptyString).
  - intros [= <-]. exists []. now rewrite withMatchers_nil.
  - intros H. apply bind_Ok in H. destruct H as (fObj & Hobj & H).
    injection H as <-. exists [fObj]. split; [reflexivity|].
    constructor; [|constructor].
    assert (forall kind value,
               match kind with
               | parseTypeIPSet =>
                   exists name, value = valString name /\ is_Some (ipSets !! name)
               | parseTypeRegex =>
                   exists expr, value = valRegexp expr /\ regexp_Compile E expr = None
               | parseTypeCIDR =>
                   exists cidr, value = valNetwork cidr /\ newNetwork E cidr = None
               | parseTypeString => exists address, value = valString address
               | _ => False
               end ->
               matcherOk E ipSets
                 {| filterItem_ := source; filterType := kind; filterValue_ := value |})
      as Hok by (intros kind value Hk; destruct Hsource as [-> | ->]; exact Hk).
    destruct (GoStrings.HasPrefix networkEntry "ipset:").
    + destruct (ipSets !! GoStrings.sliceFrom 6 networkEntry) eqn:Hlook; [|discriminate].
      injection Hobj as <-. apply Hok. eexists. split; [reflexivity | eauto].
    + destruct (GoStrings.HasPrefix networkEntry "/").
      * destruct (regexp_Compile E _) eqn:Hc; [discriminate|].
        injection Hobj as <-. apply Hok. eexists. split; [reflexivity | exact Hc].
      * destruct (GoStrings.Contains networkEntry "/").
        -- destruct (newNetwork E _) eqn:Hn; [discriminate|].
           injection Hobj as <-. apply Hok. eexists. split; [reflexivity | exact Hn].
        -- injection Hobj as <-. apply Hok. eexists. reflexivity.
Qed.

Lemma addTrapTypeFilterObj_matchers E ipSets f source trapTypeEntry line f' :
  source = filterByGenericType \/ source = filterBySpecificType ->
  addTrapTypeFilterObj f source trapTypeEntry line = Ok f' ->
  exists new, f' = withMatchers f new /\ Forall (matcherOk E ipSets) new.
Proof.
  unfold addTrapTypeFilterObj. intros Hsource.
  destruct (Z.eqb_spec trapTypeEntry (-1)) as [|Hne].
  - intros [= <-]. exists []. now rewrite withMatchers_nil.
  - intros [= <-]. eexists [_]. split; [reflexivity|]. constructor; [|constructor].
    destruct Hsource as [-> | ->]; (split; [reflexivity|]); exists trapTypeEntry; auto.
Qed.

Lemma addOidFilterObj_matchers E ipSets f oid line f' :
  addOidFilterObj E f oid line = Ok f' ->
  exists new, f' = withMatchers f new /\ Forall (matcherOk E ipSets) new.
Proof.
  unfold addOidFilterObj. destruct (String.eqb oid EmptyString).
  - intros [= <-]. exists []. now rewrite withMatchers_nil.
  - destruct (regexp_Compile E oid) eqn:Hc; [discriminate|].
    intros [= <-]. eexists [_]. split; [reflexivity|]. constructor; [|constructor].
    split; [reflexivity|]. exists oid. auto.
Qed.

Lemma addFilterObjs_matchers E f ipSets line f' :
  addFilterObjs E f ipSets line = Ok f' ->
  exists new,
    f' = withMatchers (set_matchAll true f) new /\ Forall (matcherOk E ipSets) new.
Proof.
  unfold addFilterObjs, addSnmpFilterObj. intros H.
  apply bind_Ok in H. destruct H as (f1 & H1 & H).
  apply (addSnmpFilterObj_loop_matchers E ipSets) in H1. destruct H1 as (n1 & -> & A1).
  apply bind_Ok in H. destruct H as (f2 & H2 & H).
  apply addIpFilterObj_matchers in H2; [|now left]. destruct H2 as (n2 & -> & A2).
  apply bind_Ok in H. destruct H as (f3 & H3 & H).
  apply addIpFilterObj_matchers in H3; [|now right]. destruct H3 as (n3 & -> & A3).
  apply bind_Ok in H. destruct H as (f4 & H4 & H).
  apply (addTrapTypeFilterObj_matchers E ipSets) in H4; [|now left].
  destruct H4 as (n4 & -> & A4).
  apply bind_Ok in H. destruct H as (f5 & H5 & H).
  apply (addTrapTypeFilterObj_matchers E ipSets) in H5; [|now right].
  destruct H5 as (n5 & -> & A5).
  apply (addOidFilterObj_matchers E ipSets) in H. destruct H as (n6 & -> & A6).
  rewrite !withMatchers_app.
  exists (n1 ++ n2 ++ n3 ++ n4 ++ n5 ++ n6). split; [reflexivity|].
  repeat (apply Forall_app; split); assumption.
Qed.

(** X10. Every matcher of a configuration [getConfig] publishes holds a value
    of the dynamic type its kind announces: a version matcher one of the
    three SNMP versions, an integer matcher a trap type other than -1, a
    regular-expression matcher an expression [regexp.Compile] accepted, a
    CIDR matcher a network [newNetwork] accepted, an IP-set matcher the name
    of a set of the published registry. *)
Theorem published_matchers_well_formed (E : Env) (st st' : Process) :
  getConfig E st = (Done tt, st') ->
  exists published,
    teConfig st' = Some published /\
    forall f m,
      In f (Filters published ++ PluginErrorActions published) ->
      In m (matchers f) ->
      matcherOk E (IpSets published) m.
Proof.
  intros H. apply getConfig_bound in H.
  destruct H as (loaded & published & Hload & Hte & HF & HP).
  exists published. split; [assumption|].
  pose proof (loadConfig_fresh _ _ _ Hload) as Hfresh.
  assert (forall filters bound,
             (forall f, In f filters -> matchers f = []) ->
             bindFilters E (IpSets published) (General_PluginPath loaded) 0 filters =
               Ok bound ->
             forall f m, In f bound -> In m (matchers f) ->
                         matcherOk E (IpSets published) m) as Hall.
  { intros filters bound Hnone Hb f m Hf Hm. apply bindFilters_each in Hb.
    destruct (Forall2_In_r _ _ _ _ Hb Hf) as (f0 & Hf0 & line & f1 & H1 & H2).
    apply addFilterObjs_matchers in H1. destruct H1 as (new & -> & Hnew).
    apply setAction_spec in H2. destruct H2 as (_ & Hms & _).
    rewrite Hms in Hm. cbn [withMatchers matchers set_matchers set_matchAll] in Hm.
    rewrite (Hnone f0 Hf0) in Hm. cbn [app] in Hm.
    rewrite Forall_forall in Hnew. apply Hnew. now apply list_elem_of_In. }
  intros f m Hin Hm. apply in_app_or in Hin. destruct Hin as [Hin|Hin].
  - apply (Hall _ _ (fun f0 H0 => Hfresh f0 (in_or_app _ _ _ (or_introl H0))) HF f m Hin Hm).
  - apply (Hall _ _ (fun f0 H0 => Hfresh f0 (in_or_app _ _ _ (or_intror H0))) HP f m Hin Hm).
Qed.

Lemma published_matchers_well_formed_witness :
  getConfig (envServing natDocument) startOfProcess =
    (Done tt, snd (getConfig (envServing natDocument) startOfProcess)) /\
  exists published,
    teConfig (snd (getConfig (envServing natDocument) startOfProcess)) = Some published /\
    forall f m,
      In f (Filters published ++ PluginErrorActions published) ->
      In m (matchers f) ->
      matcherOk (envServing natDocument) (IpSets published) m.
Proof.
  assert (getConfig (envServing natDocument) startOfProcess =
            (Done tt, snd (getConfig (envServing natDocument) startOfProcess))) as Hrun
    by (vm_compute; reflexivity).
  split; [exact Hrun|].
  exact (published_matchers_well_formed _ _ _ Hrun).
Defined.

(** ** The first load of a document with a reporting section *)

Lemma addReportingPlugins_nil_pointer E (c : trapmuxConfig) :
  Reporting c <> [] -> addReportingPlugins E None c = Panicked.
Proof.
  unfold addReportingPlugins. destruct (Reporting c) as [|config rest]; [contradiction|].
  reflexivity.
Qed.

Lemma getConfig_assembled E loaded c1 params c3 c4 c5 :
  loadConfig E (configFile (teCmdLine E)) = Ok loaded ->
  validateIgnoreVersions (applyCliOverrides E loaded) = Ok c1 ->
  validateSnmpV3Args E (TrapReceiverSettings c1) = Ok params ->
  addIpSets (set_TrapReceiverSettings params c1) = Ok c3 ->
  addFilters E c3 = Ok c4 ->
  addPluginErrorActions E c4 = Ok c5 ->
  Reporting c5 = Reporting loaded.
Proof.
  intros _ H1 _ H3 H4 H5.
  pose proof (applyCliOverrides_Reporting E loaded) as ER.
  revert H1 ER. generalize (applyCliOverrides E loaded). intros c0 H1 ER.
  apply validateIgnoreVersions_Ok in H1. destruct H1 as (vs & ->).
  apply addIpSets_Ok in H3. destruct H3 as (m & _ & ->).
  unfold addFilters in H4. apply bind_Ok in H4. destruct H4 as (fs & _ & H4).
  injection H4 as <-.
  unfold addPluginErrorActions in H5. apply bind_Ok in H5.
  destruct H5 as (pe & _ & H5). injection H5 as <-.
  cbn [Reporting set_PluginErrorActions set_Filters set_IpSets set_TrapReceiverSettings].
  exact ER.
Qed.

(** X11. [addReportingPlugins] takes the plugin path from the configuration in
    force, [teConfig], which is nil during the first load.  So the first
    [getConfig] of a document with a reporting section never returns nil: an
    earlier step returns its error, or, when all of them pass, the call
    panics on the nil pointer; no configuration is published. *)
Theorem first_load_with_reporting_panics (E : Env) (st : Process)
  (loaded : trapmuxConfig) :
  teConfig st = None ->
  loadConfig E (configFile (teCmdLine E)) = Ok loaded ->
  Reporting loaded <> [] ->
  (fst (getConfig E st) = Panicked \/ exists e, fst (getConfig E st) = Failed e) /\
  teConfig (snd (getConfig E st)) = None /\
  (forall c1 params c3 c4 c5,
      validateIgnoreVersions (applyCliOverrides E loaded) = Ok c1 ->
      validateSnmpV3Args E (TrapReceiverSettings c1) = Ok params ->
      addIpSets (set_TrapReceiverSettings params c1) = Ok c3 ->
      addFilters E c3 = Ok c4 ->
      addPluginErrorActions E c4 = Ok c5 ->
      fst (getConfig E st) = Panicked).
Proof.
  intros Hnil Hload Hrep.
  assert (forall c1 params c3 c4 c5,
      validateIgnoreVersions (applyCliOverrides E loaded) = Ok c1 ->
      validateSnmpV3Args E (TrapReceiverSettings c1) = Ok params ->
      addIpSets (set_TrapReceiverSettings params c1) = Ok c3 ->
      addFilters E c3 = Ok c4 ->
      addPluginErrorActions E c4 = Ok c5 ->
      fst (getConfig E st) = Panicked) as Hall.
  { intros c1 params c3 c4 c5 H1 H2 H3 H4 H5.
    pose proof (getConfig_assembled E _ _ _ _ _ _ Hload H1 H2 H3 H4 H5) as HR.
    unfold getConfig. rewrite Hload, H1, H2, H3, H4, H5. cbn [emit teConfig].
    rewrite Hnil, addReportingPlugins_nil_pointer; [reflexivity|]. now rewrite HR. }
  split; [|split; [|exact Hall]].
  - destruct (validateIgnoreVersions (applyCliOverrides E loaded)) as [c1|e] eqn:H1;
      [|right; exists e; unfold getConfig; now rewrite Hload, H1].
    destruct (validateSnmpV3Args E (TrapReceiverSettings c1)) as [params|e] eqn:H2;
      [|right; exists e; unfold getConfig; now rewrite Hload, H1, H2].
    destruct (addIpSets (set_TrapReceiverSettings params c1)) as [c3|e] eqn:H3;
      [|right; exists e; unfold getConfig; now rewrite Hload, H1, H2, H3].
    destruct (addFilters E c3) as [c4|e] eqn:H4;
      [|right; exists e; unfold getConfig; now rewrite Hload, H1, H2, H3, H4].
    destruct (addPluginErrorActions E c4) as [c5|e] eqn:H5;
      [|right; exists e; unfold getConfig; now rewrite Hload, H1, H2, H3, H4, H5].
    left. now apply (Hall c1 params c3 c4 c5).
  - destruct (getConfig E st) as [r st'] eqn:Hg. cbn [snd].
    destruct (getConfig_not_Done E st r st' Hg) as [Hte _]; [|now rewrite Hte].
    intros ->. apply getConfig_Done in Hg.
    destruct Hg as (loaded' & c1 & params & c3 & c4 & c5 & c6 & closed &
                    H0 & H1 & H2 & H3 & H4 & H5 & H6 & _).
    rewrite Hload in H0. injection H0 as <-.
    pose proof (getConfig_assembled E _ _ _ _ _ _ Hload H1 H2 H3 H4 H5) as HR.
    rewrite Hnil, addReportingPlugins_nil_pointer in H6; [discriminate|].
    now rewrite HR.
Qed.

Lemma first_load_with_reporting_panics_witness :
  teConfig startOfProcess = None /\
  loadConfig (envServing reportingDocument)
    (configFile (teCmdLine (envServing reportingDocument))) =
    Ok (zeroUnexported reportingDocument) /\
  Reporting (zeroUnexported reportingDocument) <> [] /\
  teConfig (snd (getConfig (envServing reportingDocument) startOfProcess)) = None.
Proof.
  assert (Reporting (zeroUnexported reportingDocument) <> []) as Hrep by discriminate.
  split; [reflexivity|]. split; [reflexivity|]. split; [exact Hrep|].
  exact (proj1 (proj2 (first_load_with_reporting_panics
                         (envServing reportingDocument) startOfProcess
                         (zeroUnexported reportingDocument) eq_refl eq_refl Hrep))).
Defined.

(** ** What a reload closes *)

Lemma closedHandles_app evs1 evs2 :
  closedHandles (evs1 ++ evs2) = closedHandles evs1 ++ closedHandles evs2.
Proof. apply omap_app. Qed.

Lemma getConfig_Done_closed E st st' :
  getConfig E st = (Done tt, st') ->
  closedHandles (trace st') =
    closedHandles (trace st) ++
    match teConfig st with
    | Some cur => if teConfigured cur then boundPlugins (Filters cur) else []
    | None => []
    end.
Proof.
  intros H. apply getConfig_Done in H.
  destruct H as (loaded & c1 & params & c3 & c4 & c5 & c6 & closed &
                 _ & _ & _ & _ & _ & _ & _ & Hclosed & _ & _ & ->).
  rewrite !closedHandles_app. f_equal. cbn [closedHandles omap list_omap app].
  unfold isReconfigure in Hclosed. destruct (teConfig st) as [cur|].
  - destruct (teConfigured cur).
    + destruct Hclosed as (cur' & [= <-] & Hclose).
      unfold closeHandles in Hclose.
      now apply (closeHandles_loop_closes E) in Hclose.
    + now subst closed.
  - now subst closed.
Qed.

(** X12. A [getConfig] that returns nil has called [Close] on exactly the
    plugin handles of the filter list of the configuration it replaces, in
    the order of that list, and on none during the first load.  So the next
    successful [getConfig] closes the handles this one bound in its filter
    list. *)
Theorem reload_closes_replaced_handles (E : Env) (st st' : Process) :
  getConfig E st = (Done tt, st') ->
  closedHandles (trace st') =
    closedHandles (trace st) ++
    match teConfig st with
    | Some cur => if teConfigured cur then boundPlugins (Filters cur) else []
    | None => []
    end /\
  exists published,
    teConfig st' = Some published /\
    forall E2 st2,
      getConfig E2 st' = (Done tt, st2) ->
      closedHandles (trace st2) =
        closedHandles (trace st') ++ boundPlugins (Filters published).
Proof.
  intros H. split; [exact (getConfig_Done_closed _ _ _ H)|].
  pose proof (getConfig_published _ _ _ H)
    as (loaded & published & _ & Hte & Hconf & _).
  exists published. split; [assumption|]. intros E2 st2 H2.
  rewrite (getConfig_Done_closed _ _ _ H2), Hte, Hconf. reflexivity.
Qed.

Lemma reload_closes_replaced_handles_witness :
  getConfig sampleEnv startOfProcess = (Done tt, running) /\
  closedHandles (trace running) = [] /\
  exists published,
    teConfig running = Some published /\
    forall E2 st2,
      getConfig E2 running = (Done tt, st2) ->
      closedHandles (trace st2) =
        closedHandles (trace running) ++ boundPlugins (Filters published).
Proof.
  assert (getConfig sampleEnv startOfProcess = (Done tt, running)) as Hrun
    by (vm_compute; reflexivity).
  split; [exact Hrun|].
  destruct (reload_closes_replaced_handles _ _ _ Hrun) as [Hfirst Hnext].
  split; [exact Hfirst | exact Hnext].
Defined.

(** ** The signal for log rotation *)

Lemma handleSIGUSR2_loop_spec (plugin_SigUsr2 : ActionPlugin -> option error)
  (filters : list trapmuxFilter) :
  forall evs,
    handleSIGUSR2_loop plugin_SigUsr2 filters = (evs, true) ->
    signalledHandles evs = boundPlugins filters /\
    signalWarnings evs = omap plugin_SigUsr2 (boundPlugins filters).
Proof.
  induction filters as [|f rest IH]; intros evs H; cbn [handleSIGUSR2_loop] in H.
  - now injection H as <-.
  - unfold boundPlugins. cbn [omap list_omap]. fold (boundPlugins rest).
    destruct (actionType f); try (now apply IH).
    destruct (plugin f) as [p|]; [|discriminate].
    destruct (handleSIGUSR2_loop plugin_SigUsr2 rest) as [evs' finished].
    injection H as <- ->. destruct (IH evs' eq_refl) as [IH1 IH2].
    unfold signalledHandles, signalWarnings in *.
    change (SigUsr2 p :: ?l) with ([SigUsr2 p] ++ l).
    rewrite !omap_app, IH1, IH2. cbn [omap list_omap app].
    split; destruct (plugin_SigUsr2 p); reflexivity.
Qed.

(** X13. On a signal, [handleSIGUSR2] calls [SigUsr2] once on the handle of
    every plugin filter of [teConfig.Filters], in the order of the list, and
    logs each error a call returns without ending the loop: the handles it
    reaches are those [closeHandles] would close, and the plugins of the
    plugin-error list are not among them. *)
Theorem handleSIGUSR2_reaches_Filters
  (plugin_SigUsr2 : ActionPlugin -> option error) (E : Env) (st : Process)
  (evs : list SignalEvent) :
  handleSIGUSR2 plugin_SigUsr2 st = (Done tt, evs) ->
  exists cur,
    teConfig st = Some cur /\
    signalledHandles evs = boundPlugins (Filters cur) /\
    signalWarnings evs = omap plugin_SigUsr2 (boundPlugins (Filters cur)) /\
    snd (closeHandles E cur) = true /\
    closedHandles (fst (closeHandles E cur)) = signalledHandles evs.
Proof.
  unfold handleSIGUSR2. destruct (teConfig st) as [cur|]; [|discriminate].
  destruct (handleSIGUSR2_loop plugin_SigUsr2 (Filters cur)) as [evs' finished] eqn:Hloop.
  destruct finished; [|discriminate]. intros [= <-]. exists cur.
  destruct (handleSIGUSR2_loop_spec _ _ _ Hloop) as [Hs Hw].
  split; [reflexivity|]. split; [exact Hs|]. split; [exact Hw|].
  assert (snd (closeHandles E cur) = true) as Hfin.
  { unfold closeHandles. clear Hs Hw. revert evs' Hloop.
    induction (Filters cur) as [|f rest IH]; intros evs' Hloop; [reflexivity|].
    cbn [handleSIGUSR2_loop closeHandles_loop] in *.
    destruct (actionType f); try (now apply (IH evs')).
    destruct (plugin f) as [p|]; [|discriminate].
    destruct (handleSIGUSR2_loop plugin_SigUsr2 rest) as [evs0 finished].
    injection Hloop as _ ->. specialize (IH evs0 eq_refl).
    now destruct (closeHandles_loop E rest). }
  split; [exact Hfin|].
  destruct (closeHandles E cur) as [closed finished] eqn:Hclose. cbn [fst snd] in *.
  subst finished. unfold closeHandles in Hclose.
  apply (closeHandles_loop_closes E) in Hclose.
  cbn [signalledHandles omap list_omap]. fold (signalledHandles evs').
  now rewrite Hclose, Hs.
Qed.

Lemma handleSIGUSR2_reaches_Filters_witness :
  handleSIGUSR2 rotateFails running =
    (Done tt,
     [SigLog levelInfo "Got SIGUSR2" None; SigUsr2 3; SigUsr2 7;
      SigLog levelWarn "Issue handling action" (Some "read-only file system"%string)]) /\
  exists cur,
    teConfig running = Some cur /\
    signalledHandles
      [SigLog levelInfo "Got SIGUSR2" None; SigUsr2 3; SigUsr2 7;
       SigLog levelWarn "Issue handling action" (Some "read-only file system"%string)] =
      boundPlugins (Filters cur).
Proof.
  assert (handleSIGUSR2 rotateFails running =
    (Done tt,
     [SigLog levelInfo "Got SIGUSR2" None; SigUsr2 3; SigUsr2 7;
      SigLog levelWarn "Issue handling action" (Some "read-only file system"%string)]))
    as Hsig by (vm_compute; reflexivity).
  split; [exact Hsig|].
  destruct (handleSIGUSR2_reaches_Filters rotateFails sampleEnv _ _ Hsig)
    as (cur & Hte & Hs & _).
  exists cur. split; [exact Hte | exact Hs].
Defined.

(** ** The counters of the trap path *)

Lemma counterValue_app r c evs1 evs2 :
  counterValue r c (evs1 ++ evs2) = counterValue r c evs1 + counterValue r c evs2.
Proof. unfold counterValue. now rewrite List.filter_app, length_app. Qed.

Lemma counterValue_counterInc_other cur (c c' : pluginMeta.Counter) r :
  c <> c' -> counterValue r c (counterInc cur c') = 0.
Proof.
  intros Hne. unfold counterValue, counterInc.
  induction (seq 0 (length (Reporting cur))) as [|k l IH]; [reflexivity|].
  cbn [map List.filter isInc]. rewrite bool_decide_eq_false_2 by congruence.
  now rewrite andb_false_r.
Qed.

Lemma counterValue_counterInc_any cur (c c' : pluginMeta.Counter) r :
  r < length (Reporting cur) ->
  counterValue r c (counterInc cur c') = if bool_decide (c = c') then 1 else 0.
Proof.
  intros Hr. destruct (bool_decide_reflect (c = c')) as [->|Hne].
  - now apply counterValue_counterInc.
  - now apply counterValue_counterInc_other.
Qed.

Lemma counterValue_spawnErrorActions cur r c :
  counterValue r c (spawnErrorActions cur) = 0.
Proof.
  unfold counterValue, spawnErrorActions.
  now induction (seq 0 (length (PluginErrorActions cur))) as [|k l IH].
Qed.

Section CounterFacts.

Variable isFilterMatch : trapmuxFilter -> pluginMeta.Trap -> bool.
Variable processAction :
  trapmuxFilter -> pluginMeta.Trap -> pluginMeta.Trap * option error.
Variable cur : trapmuxConfig.

(** A turn of the loop increments no counter, or it increments the dropped
    counter once and leaves the trap dropped. *)
Lemma processTrap_turn_counts i filterDef trap r c :
  r < length (Reporting cur) ->
  counterValue r c (snd (processTrap_turn isFilterMatch processAction cur i filterDef trap)) = 0 \/
  (c = pluginMeta.DroppedTraps /\
   counterValue r c
     (snd (processTrap_turn isFilterMatch processAction cur i filterDef trap)) = 1 /\
   pluginMeta.Dropped
     (fst (processTrap_turn isFilterMatch processAction cur i filterDef trap)) = true).
Proof.
  intros Hr. unfold processTrap_turn.
  destruct (pluginMeta.Dropped trap); [left; reflexivity|].
  set (evalMatch := if matchAll filterDef then [] else [EvIsFilterMatch i]).
  assert (counterValue r c evalMatch = 0) as Hev
    by (unfold evalMatch; now destruct (matchAll filterDef)).
  assert (forall b, counterValue r c
                      (EvProcessAction i b ::
                       spawnErrorActions cur) = 0) as Hspawn.
  { intros b. change (EvProcessAction i b :: spawnErrorActions cur)
      with ([EvProcessAction i b] ++ spawnErrorActions cur).
    now rewrite counterValue_app, counterValue_spawnErrorActions. }
  assert (forall err : option error, counterValue r c
                        (EvProcessAction i (bool_decide (is_Some err)) ::
                         match err with
                         | Some _ => spawnErrorActions cur
                         | None => []
                         end) = 0) as Hact.
  { intros [e|]; [apply Hspawn | reflexivity]. }
  assert (forall evs trap',
             counterValue r c evs = 0 ->
             counterValue r c (evs ++ counterInc cur pluginMeta.DroppedTraps) = 0 \/
             (c = pluginMeta.DroppedTraps /\
              counterValue r c (evs ++ counterInc cur pluginMeta.DroppedTraps) = 1 /\
              pluginMeta.Dropped (pluginMeta.set_Dropped true trap') = true)) as Hdrop.
  { intros evs trap' Hz. rewrite counterValue_app, Hz, counterValue_counterInc_any by exact Hr.
    destruct (bool_decide_reflect (c = pluginMeta.DroppedTraps)); [right | left]; auto. }
  destruct (matchAll filterDef || isFilterMatch filterDef trap); [|left; exact Hev].
  destruct (actionType filterDef).
  - cbn [fst snd]. now apply Hdrop.
  - destruct (processAction filterDef trap) as [trap' err].
    destruct (BreakAfter filterDef); cbn [fst snd].
    + rewrite app_assoc. apply Hdrop. now rewrite counterValue_app, Hev, Hact.
    + left. now rewrite counterValue_app, Hev, Hact.
  - destruct (processAction filterDef trap) as [trap' err].
    destruct (BreakAfter filterDef); cbn [fst snd].
    + rewrite app_assoc. apply Hdrop. now rewrite counterValue_app, Hev, Hact.
    + left. now rewrite counterValue_app, Hev, Hact.
Qed.

Lemma processTrap_loop_counts filters r c :
  r < length (Reporting cur) ->
  forall i trap,
    counterValue r c (snd (processTrap_loop isFilterMatch processAction cur i filters trap)) = 0 \/
    (c = pluginMeta.DroppedTraps /\
     counterValue r c
       (snd (processTrap_loop isFilterMatch processAction cur i filters trap)) = 1 /\
     pluginMeta.Dropped
       (fst (processTrap_loop isFilterMatch processAction cur i filters trap)) = true).
Proof.
  intros Hr. induction filters as [|f rest IH]; intros i trap; cbn [processTrap_loop].
  - left. reflexivity.
  - pose proof (processTrap_turn_counts i f trap r c Hr) as Hturn.
    destruct (processTrap_turn isFilterMatch processAction cur i f trap) as [t1 e1].
    cbn [fst snd] in Hturn. destruct Hturn as [Hz | (-> & Hone & Hd)].
    + specialize (IH (S i) t1).
      destruct (processTrap_loop isFilterMatch processAction cur (S i) rest t1) as [t2 e2].
      cbn [fst snd] in *. rewrite counterValue_app, Hz. exact IH.
    + rewrite (processTrap_loop_dropped _ _ _ rest (S i) t1 Hd). cbn [fst snd].
      rewrite app_nil_r. right. auto.
Qed.

(** What [trapHandler] adds to each counter of a reporter for one packet. *)
Lemma trapHandler_counters p addr st r :
  r < length (Reporting cur) ->
  let st' := trapHandler isFilterMatch processAction cur p addr st in
  let ignored := isIgnoredVersion cur (g.Version p) in
  let count c := counterValue r c (trace st') - counterValue r c (trace st) in
  (forall c, counterValue r c (trace st) <= counterValue r c (trace st')) /\
  count pluginMeta.TrapCount = 1 /\
  count pluginMeta.V1Traps = (if (g.Version p =? g.Version1)%Z then 1 else 0) /\
  count pluginMeta.V2cTraps = (if (g.Version p =? g.Version2c)%Z then 1 else 0) /\
  count pluginMeta.V3Traps = (if (g.Version p =? g.Version3)%Z then 1 else 0) /\
  count pluginMeta.IgnoredTraps = (if ignored then 1 else 0) /\
  count pluginMeta.HandledTraps = (if ignored then 0 else 1) /\
  count pluginMeta.DroppedTraps <= (if ignored then 0 else 1).
Proof.
  intros Hr st' ignored count. subst st' ignored count. unfold trapHandler.
  set (perVersion :=
         if (g.Version p =? g.Version1)%Z then counterInc cur pluginMeta.V1Traps
         else if (g.Version p =? g.Version2c)%Z then counterInc cur pluginMeta.V2cTraps
         else if (g.Version p =? g.Version3)%Z then counterInc cur pluginMeta.V3Traps
         else []).
  assert (forall c,
             counterValue r c perVersion =
               match c with
               | pluginMeta.V1Traps => if (g.Version p =? g.Version1)%Z then 1 else 0
               | pluginMeta.V2cTraps => if (g.Version p =? g.Version2c)%Z then 1 else 0
               | pluginMeta.V3Traps => if (g.Version p =? g.Version3)%Z then 1 else 0
               | _ => 0
               end) as Hper.
  { intros c. unfold perVersion, g.Version1, g.Version2c, g.Version3.
    destruct (Z.eqb_spec (g.Version p) 0) as [H1|H1];
      destruct (Z.eqb_spec (g.Version p) 1) as [H2|H2];
      destruct (Z.eqb_spec (g.Version p) 3) as [H3|H3];
      try (exfalso; lia);
      destruct c;
      rewrite ?counterValue_counterInc by exact Hr;
      rewrite ?counterValue_counterInc_other by discriminate; reflexivity. }
  destruct (isIgnoredVersion cur (g.Version p)).
  - cbn [emit set_totalTraps trace totalTraps].
    split; [intros c; rewrite !counterValue_app; lia|].
    repeat split;
      rewrite !counterValue_app, !Hper;
      rewrite ?counterValue_counterInc by exact Hr;
      rewrite ?counterValue_counterInc_other by discriminate;
      try lia; destruct (g.Version p =? _)%Z; lia.
  - set (trap := {| pluginMeta.Data_Variables := g.Variables p;
                    pluginMeta.Data_Enterprise := _ |}).
    assert (counterValue r pluginMeta.DroppedTraps
              (snd (processTrap isFilterMatch processAction cur trap)) <= 1 /\
            forall c, c <> pluginMeta.DroppedTraps ->
                      counterValue r c
                        (snd (processTrap isFilterMatch processAction cur trap)) = 0)
      as [Hdrop Hother].
    { unfold processTrap. split.
      - destruct (processTrap_loop_counts (Filters cur) r pluginMeta.DroppedTraps Hr 0 trap)
          as [-> | (_ & -> & _)]; lia.
      - intros c Hc.
        destruct (processTrap_loop_counts (Filters cur) r c Hr 0 trap)
          as [Hz | (Heq & _)]; [exact Hz | contradiction]. }
    assert (forall c l,
               counterValue r c (EvProcessTrap trap :: l) = counterValue r c l) as Hcons
      by reflexivity.
    assert (forall c (st0 : Process),
               counterValue r c
                 (trace (if String.eqb (Logging_Level cur) "debug"
                         then emit [EvLog levelDebug "Raw trap info" None] st0
                         else st0)) = counterValue r c (trace st0)) as Hdebug.
    { intros c st0. destruct (String.eqb (Logging_Level cur) "debug"); [|reflexivity].
      cbn [emit trace]. rewrite counterValue_app. cbn. lia. }
    cbn [emit trace]. 
    split; [intros c; rewrite counterValue_app, Hdebug; cbn [emit trace set_totalTraps];
            rewrite !counterValue_app; lia|].
    repeat split;
      rewrite !counterValue_app, !Hdebug; cbn [emit trace set_totalTraps];
      rewrite !counterValue_app, !Hper, !Hcons;
      rewrite ?counterValue_counterInc by exact Hr;
      rewrite ?counterValue_counterInc_other by discriminate;
      rewrite ?Hother by discriminate;
      try lia; destruct (g.Version p =? _)%Z; lia.
Qed.

Lemma deliver_counters packets r :
  r < length (Reporting cur) ->
  forall st,
    let st' := deliver isFilterMatch processAction cur packets st in
    let ignored p := isIgnoredVersion cur (g.Version p) in
    let was c := counterValue r c (trace st) in
    let now c := counterValue r c (trace st') in
    now pluginMeta.TrapCount = was pluginMeta.TrapCount + length packets /\
    now pluginMeta.V1Traps =
      was pluginMeta.V1Traps +
      countPackets (fun p => (g.Version p =? g.Version1)%Z) packets /\
    now pluginMeta.V2cTraps =
      was pluginMeta.V2cTraps +
      countPackets (fun p => (g.Version p =? g.Version2c)%Z) packets /\
    now pluginMeta.V3Traps =
      was pluginMeta.V3Traps +
      countPackets (fun p => (g.Version p =? g.Version3)%Z) packets /\
    now pluginMeta.IgnoredTraps =
      was pluginMeta.IgnoredTraps + countPackets ignored packets /\
    now pluginMeta.HandledTraps =
      was pluginMeta.HandledTraps + countPackets (fun p => negb (ignored p)) packets /\
    now pluginMeta.DroppedTraps <=
      was pluginMeta.DroppedTraps + countPackets (fun p => negb (ignored p)) packets.
Proof.
  intros Hr. induction packets as [|[p addr] rest IH]; intros st; cbn zeta.
  - cbn [deliver length]. unfold countPackets. cbn [List.filter length]. lia.
  - cbn [deliver]. specialize (IH (trapHandler isFilterMatch processAction cur p addr st)).
    cbn zeta in IH. destruct IH as (I1 & I2 & I3 & I4 & I5 & I6 & I7).
    destruct (trapHandler_counters p addr st r Hr)
      as (Hmono & H1 & H2 & H3 & H4 & H5 & H6 & H7).
    pose proof (Hmono pluginMeta.TrapCount). pose proof (Hmono pluginMeta.V1Traps).
    pose proof (Hmono pluginMeta.V2cTraps). pose proof (Hmono pluginMeta.V3Traps).
    pose proof (Hmono pluginMeta.IgnoredTraps). pose proof (Hmono pluginMeta.HandledTraps).
    pose proof (Hmono pluginMeta.DroppedTraps).
    rewrite I1, I2, I3, I4, I5, I6. clear I1 I2 I3 I4 I5 I6 Hmono.
    unfold countPackets in *. cbn [List.filter fst length].
    destruct (isIgnoredVersion cur (g.Version p)); cbn [negb] in *;
      repeat split;
      repeat match goal with
             | |- context [if ?b then _ else _] => destruct b
             end;
      cbn [length] in *; lia.
Qed.

End CounterFacts.

(** X14. For every reporter, the counters [trapHandler] increments add up: the
    trap counter counts every packet received, each packet is counted once as
    ignored or as handled, the version counters count the packets of their
    version, and the dropped counter never exceeds the handled counter. *)
Theorem trap_counters_add_up
  (isFilterMatch : trapmuxFilter -> pluginMeta.Trap -> bool)
  (processAction : trapmuxFilter -> pluginMeta.Trap -> pluginMeta.Trap * option error)
  (cur : trapmuxConfig) (packets : list (g.SnmpPacket * string)) (r : nat) :
  r < length (Reporting cur) ->
  let evs := trace (deliver isFilterMatch processAction cur packets startOfProcess) in
  let ignored p := isIgnoredVersion cur (g.Version p) in
  counterValue r pluginMeta.TrapCount evs = length packets /\
  counterValue r pluginMeta.IgnoredTraps evs = countPackets ignored packets /\
  counterValue r pluginMeta.HandledTraps evs =
    countPackets (fun p => negb (ignored p)) packets /\
  counterValue r pluginMeta.IgnoredTraps evs + counterValue r pluginMeta.HandledTraps evs =
    counterValue r pluginMeta.TrapCount evs /\
  counterValue r pluginMeta.V1Traps evs =
    countPackets (fun p => (g.Version p =? g.Version1)%Z) packets /\
  counterValue r pluginMeta.V2cTraps evs =
    countPackets (fun p => (g.Version p =? g.Version2c)%Z) packets /\
  counterValue r pluginMeta.V3Traps evs =
    countPackets (fun p => (g.Version p =? g.Version3)%Z) packets /\
  counterValue r pluginMeta.DroppedTraps evs <= counterValue r pluginMeta.HandledTraps evs.
Proof.
  intros Hr evs ignored.
  destruct (deliver_counters isFilterMatch processAction cur packets r Hr startOfProcess)
    as (H1 & H2 & H3 & H4 & H5 & H6 & H7).
  fold evs in H1, H2, H3, H4, H5, H6, H7.
  change (trace startOfProcess) with (@nil Event) in *.
  change (counterValue r _ []) with 0 in *. cbn [Nat.add] in *. fold ignored in H5, H6, H7.
  assert (countPackets ignored packets + countPackets (fun p => negb (ignored p)) packets =
          length packets) as Hsplit.
  { unfold countPackets. clear. induction packets as [|[p addr] rest IH]; [reflexivity|].
    cbn [List.filter fst length]. destruct (ignored p); cbn [negb length]; lia. }
  subst ignored. cbn beta in *. repeat split; try assumption; lia.
Qed.

Lemma trap_counters_add_up_witness :
  1 < length (Reporting dropAll) /\
  counterValue 1 pluginMeta.TrapCount
    (trace (deliver alwaysMatch forwardFails dropAll
              [samplePacket g.Version2c; samplePacket g.Version3; samplePacket g.Version1]
              startOfProcess)) = 3 /\
  counterValue 1 pluginMeta.DroppedTraps
    (trace (deliver alwaysMatch forwardFails dropAll
              [samplePacket g.Version2c; samplePacket g.Version3; samplePacket g.Version1]
              startOfProcess)) <=
  counterValue 1 pluginMeta.HandledTraps
    (trace (deliver alwaysMatch forwardFails dropAll
              [samplePacket g.Version2c; samplePacket g.Version3; samplePacket g.Version1]
              startOfProcess)).
Proof.
  assert (1 < length (Reporting dropAll)) as Hr by (cbn; lia).
  split; [exact Hr|].
  pose proof (trap_counters_add_up alwaysMatch forwardFails dropAll
                [samplePacket g.Version2c; samplePacket g.Version3; samplePacket g.Version1]
                1 Hr) as H.
  cbn zeta in H. destruct H as (H1 & _ & _ & _ & _ & _ & _ & H8).
  split; [exact H1 | exact H8].
Defined.

(** X15. One run of [processTrap] increments the dropped counter of a reporter
    at most once, and when it does the trap leaves the loop dropped; it
    increments no other counter.  When the actions leave the dropped flag
    alone, a trap that was not dropped on entry leaves the loop dropped
    exactly when the counter was incremented. *)
Theorem processTrap_drops_once
  (isFilterMatch : trapmuxFilter -> pluginMeta.Trap -> bool)
  (processAction : trapmuxFilter -> pluginMeta.Trap -> pluginMeta.Trap * option error)
  (cur : trapmuxConfig) (trap : pluginMeta.Trap) (r : nat) :
  r < length (Reporting cur) ->
  let out := processTrap isFilterMatch processAction cur trap in
  counterValue r pluginMeta.DroppedTraps (snd out) <= 1 /\
  (counterValue r pluginMeta.DroppedTraps (snd out) = 1 ->
   pluginMeta.Dropped (fst out) = true) /\
  (forall c, c <> pluginMeta.DroppedTraps -> counterValue r c (snd out) = 0) /\
  ((forall f t, pluginMeta.Dropped (fst (processAction f t)) = pluginMeta.Dropped t) ->
   pluginMeta.Dropped trap = false ->
   (pluginMeta.Dropped (fst out) = true <->
    counterValue r pluginMeta.DroppedTraps (snd out) = 1)).
Proof.
  intros Hr out. subst out. unfold processTrap.
  split; [|split; [|split]].
  - destruct (processTrap_loop_counts isFilterMatch processAction cur (Filters cur) r
                pluginMeta.DroppedTraps Hr 0 trap) as [-> | (_ & -> & _)]; lia.
  - intros Hone.
    destruct (processTrap_loop_counts isFilterMatch processAction cur (Filters cur) r
                pluginMeta.DroppedTraps Hr 0 trap) as [Hz | (_ & _ & Hd)];
      [rewrite Hz in Hone; discriminate | exact Hd].
  - intros c Hc.
    destruct (processTrap_loop_counts isFilterMatch processAction cur (Filters cur) r
                c Hr 0 trap) as [Hz | (Heq & _)]; [exact Hz | contradiction].
  - intros Hkeep.
    enough (forall filters i t,
               pluginMeta.Dropped t = false ->
               (pluginMeta.Dropped
                  (fst (processTrap_loop isFilterMatch processAction cur i filters t)) = true <->
                counterValue r pluginMeta.DroppedTraps
                  (snd (processTrap_loop isFilterMatch processAction cur i filters t)) = 1))
      as Hloop by (apply Hloop).
    clear trap. intros filters.
    induction filters as [|f rest IH]; intros i trap Hd; cbn [processTrap_loop].
    + cbn [fst snd]. rewrite Hd. split; discriminate.
    + pose proof (processTrap_turn_counts isFilterMatch processAction cur i f trap r
                    pluginMeta.DroppedTraps Hr) as Hturn.
      assert (counterValue r pluginMeta.DroppedTraps
                (snd (processTrap_turn isFilterMatch processAction cur i f trap)) = 0 ->
              pluginMeta.Dropped
                (fst (processTrap_turn isFilterMatch processAction cur i f trap)) = false)
        as Hstill.
      { unfold processTrap_turn. rewrite Hd.
        destruct (matchAll f || isFilterMatch f trap); [|intros _; exact Hd].
        pose proof (Hkeep f trap) as Hk. rewrite Hd in Hk.
        destruct (actionType f).
        - cbn [fst snd]. rewrite counterValue_app, counterValue_counterInc by exact Hr. lia.
        - destruct (processAction f trap) as [trap' err]. cbn [fst] in Hk.
          destruct (BreakAfter f); cbn [fst snd]; [|intros _; exact Hk].
          rewrite !counterValue_app, counterValue_counterInc by exact Hr. lia.
        - destruct (processAction f trap) as [trap' err]. cbn [fst] in Hk.
          destruct (BreakAfter f); cbn [fst snd]; [|intros _; exact Hk].
          rewrite !counterValue_app, counterValue_counterInc by exact Hr. lia. }
      destruct (processTrap_turn isFilterMatch processAction cur i f trap) as [t1 e1].
      cbn [fst snd] in Hturn, Hstill. destruct Hturn as [Hz | (_ & Hone & Hd1)].
      * specialize (IH (S i) t1 (Hstill Hz)).
        destruct (processTrap_loop isFilterMatch processAction cur (S i) rest t1) as [t2 e2].
        cbn [fst snd] in *. rewrite counterValue_app, Hz. exact IH.
      * rewrite (processTrap_loop_dropped _ _ _ rest (S i) t1 Hd1). cbn [fst snd].
        rewrite app_nil_r, Hone, Hd1. split; reflexivity.
Qed.

Lemma processTrap_drops_once_witness :
  0 < length (Reporting dropAll) /\
  counterValue 0 pluginMeta.DroppedTraps
    (snd (processTrap alwaysMatch forwardFails dropAll sampleTrap)) <= 1.
Proof.
  assert (0 < length (Reporting dropAll)) as Hr by (cbn; lia).
  split; [exact Hr|].
  exact (proj1 (processTrap_drops_once alwaysMatch forwardFails dropAll sampleTrap 0 Hr)).
Defined.

(** ** Texts *)

Lemma append_inj_l (p a b : string) : p +:+ a = p +:+ b -> a = b.
Proof.
  induction p as [|c p IH]; [auto|]. intros H.
  change (String c (p +:+ a) = String c (p +:+ b)) in H. injection H as H. auto.
Qed.

Lemma length_append (a b : string) :
  String.length (a +:+ b) = String.length a + String.length b.
Proof.
  induction a as [|c a IH]; [reflexivity|].
  change (S (String.length (a +:+ b)) = S (String.length a + String.length b)).
  now rewrite IH.
Qed.

Lemma append_inj_r (s : string) : forall a b, a +:+ s = b +:+ s -> a = b.
Proof.
  induction a as [|c a IH]; intros b H.
  - destruct b as [|d b]; [reflexivity|]. apply (f_equal String.length) in H.
    change (String.length s = S (String.length (b +:+ s))) in H.
    rewrite length_append in H. lia.
  - destruct b as [|d b].
    + apply (f_equal String.length) in H.
      change (S (String.length (a +:+ s)) = String.length s) in H.
      rewrite length_append in H. lia.
    + change (String c (a +:+ s) = String d (b +:+ s)) in H.
      injection H as -> H. f_equal. now apply IH.
Qed.

Lemma fmt_int_inj (n m : Z) : fmt_int n = fmt_int m -> n = m.
Proof.
  unfold fmt_int. intros H.
  assert (forall z, Z.to_int z <> Decimal.Pos Decimal.Nil /\
                    Z.to_int z <> Decimal.Neg Decimal.Nil) as Hnil.
  { intros z. split; intros Habs; pose proof (DecimalZ.of_to z) as Hz;
      rewrite Habs in Hz; cbn in Hz; subst z; discriminate Habs. }
  assert (Some (Z.to_int n) = Some (Z.to_int m)) as Heq.
  { rewrite <- (NilZero.isi (Z.to_int n)), <- (NilZero.isi (Z.to_int m));
      try apply Hnil. now rewrite H. }
  injection Heq as Heq. apply (f_equal Z.of_int) in Heq.
  now rewrite !DecimalZ.of_to in Heq.
Qed.

(** ** The capture plugin *)

Lemma capture_validateArguments_spec (visit : list string) :
  match capture.validateArguments visit with
  | None => forall key, In key visit -> In key capture.validArgs
  | Some e =>
      exists key,
        In key visit /\ ~ In key capture.validArgs /\
        e = "Unrecognized option to trap capture plugin: " +:+ key
  end.
Proof.
  induction visit as [|key rest IH]; cbn [capture.validateArguments].
  - intros key [].
  - destruct (oneOf key capture.validArgs) eqn:Hk.
    + destruct (capture.validateArguments rest) as [e|].
      * destruct IH as (bad & Hin & Hbad & ->). exists bad. cbn [In]. auto.
      * intros k [<-|Hin]; [now apply oneOf_In | now apply IH].
    + exists key. split; [now left|]. split; [|reflexivity].
      rewrite <- oneOf_In, Hk. discriminate.
Qed.

(** X16. [Configure] of the capture plugin returns nil exactly when every key
    of the arguments is one of dir, file_expr and format; an error names a
    key that is not, and leaves the settings as they were.  On success the
    file expression and the format are never empty: a missing or empty value
    becomes [captureFile] and [gob]. *)
Theorem capture_Configure_checks_keys (visit : list string) (a : capture.trapCapture)
  (actionArgs : gmap string string) :
  (forall key, In key visit <-> is_Some (actionArgs !! key)) ->
  match capture.Configure visit a actionArgs with
  | (a', None, _) =>
      (forall key, is_Some (actionArgs !! key) -> In key capture.validArgs) /\
      capture.dir a' = default EmptyString (actionArgs !! "dir"%string) /\
      capture.fileExpr a' =
        firstNonEmpty [default EmptyString (actionArgs !! "file_expr"%string);
                       "captureFile"%string] /\
      capture.fileFormat a' =
        firstNonEmpty [default EmptyString (actionArgs !! "format"%string); "gob"%string] /\
      capture.fileExpr a' <> EmptyString /\
      capture.fileFormat a' <> EmptyString /\
      capture.counter a' = capture.counter a
  | (a', Some e, _) =>
      a' = a /\
      exists key,
        is_Some (actionArgs !! key) /\ ~ In key capture.validArgs /\
        e = "Unrecognized option to trap capture plugin: " +:+ key
  end.
Proof.
  intros Hvisit. unfold capture.Configure.
  pose proof (capture_validateArguments_spec visit) as Hv.
  destruct (capture.validateArguments visit) as [e|].
  - split; [reflexivity|]. destruct Hv as (key & Hin & Hbad & ->).
    exists key. split; [now apply Hvisit | auto].
  - cbn [capture.dir capture.fileExpr capture.fileFormat capture.counter firstNonEmpty].
    unfold nonEmpty.
    split; [intros key Hk; apply Hv; now apply Hvisit|].
    split; [reflexivity|].
    destruct (String.eqb_spec (default EmptyString (actionArgs !! "file_expr"%string))
                EmptyString) as [He|He];
      destruct (String.eqb_spec (default EmptyString (actionArgs !! "format"%string))
                  EmptyString) as [Hf|Hf];
      cbn [negb String.eqb Ascii.eqb Bool.eqb]; repeat split; try assumption;
      discriminate.
Qed.

Lemma capture_Configure_checks_keys_witness :
  (forall key, In key ["dir"; "format"]%string <-> is_Some (captureAsJson !! key)) /\
  capture.Configure ["dir"; "format"]%string capture.ActionPlugin captureAsJson =
    ({| capture.dir := "/var/spool/traps"; capture.fileExpr := "captureFile";
        capture.fileFormat := "json"; capture.counter := 0 |},
     None, ["Initialization of plugin"; "Added capture destination"]%string) /\
  capture.fileExpr
    {| capture.dir := "/var/spool/traps"; capture.fileExpr := "captureFile";
       capture.fileFormat := "json"; capture.counter := 0 |} <> EmptyString.
Proof.
  assert (forall key, In key ["dir"; "format"]%string <-> is_Some (captureAsJson !! key))
    as Hvisit.
  { intros key. unfold captureAsJson. split.
    - intros [<-|[<-|[]]]; vm_compute; eauto.
    - intros [v Hv].
      destruct (String.eqb_spec key "dir") as [->|Hd]; [now left|].
      destruct (String.eqb_spec key "format") as [->|Hf]; [right; now left|].
      rewrite lookup_insert_ne, lookup_singleton_ne in Hv by congruence.
      discriminate Hv. }
  assert (capture.Configure ["dir"; "format"]%string capture.ActionPlugin captureAsJson =
    ({| capture.dir := "/var/spool/traps"; capture.fileExpr := "captureFile";
        capture.fileFormat := "json"; capture.counter := 0 |},
     None, ["Initialization of plugin"; "Added capture destination"]%string)) as Hconf
    by (vm_compute; reflexivity).
  split; [exact Hvisit|]. split; [exact Hconf|].
  pose proof (capture_Configure_checks_keys _ capture.ActionPlugin _ Hvisit) as H.
  rewrite Hconf in H. exact (proj1 (proj2 (proj2 (proj2 (proj2 H))))).
Defined.

(** X17. [Configure] of the capture plugin does not look at the value of
    [format].  Configured with a format other than gob it fails on every
    trap with the unknown-format error, writes no file and does not advance
    its counter; configured with gob, or with none, it writes the trap to
    [dir/file_expr-N.gob], N being its counter, and advances the counter
    whether the write succeeded or not. *)
Theorem capture_format_not_checked (visit : list string) (a a' : capture.trapCapture)
  (actionArgs : gmap string string) (logged : list string)
  (saveCaptureGob : string -> pluginMeta.Trap -> option error)
  (trap : pluginMeta.Trap) :
  capture.Configure visit a actionArgs = (a', None, logged) ->
  let format := default EmptyString (actionArgs !! "format"%string) in
  if oneOf format ["gob"; ""]%string then
    capture.ProcessTrap saveCaptureGob a' trap =
      ({| capture.dir := capture.dir a'; capture.fileExpr := capture.fileExpr a';
          capture.fileFormat := "gob";
          capture.counter := wrapInt (capture.counter a + 1) |},
       saveCaptureGob
         (capture.dir a' +:+ "/" +:+ capture.fileExpr a' +:+
          ("-" +:+ fmt_int (capture.counter a) +:+ ".gob")) trap,
       Some (capture.dir a' +:+ "/" +:+ capture.fileExpr a' +:+
             ("-" +:+ fmt_int (capture.counter a) +:+ ".gob")))
  else
    capture.ProcessTrap saveCaptureGob a' trap =
      (a', Some ("Unknown file format '" +:+ format +:+ "'"), None).
Proof.
  unfold capture.Configure. destruct (capture.validateArguments visit); [discriminate|].
  cbn zeta. intros H. injection H as <- _.
  set (format := default EmptyString (actionArgs !! "format"%string)).
  unfold capture.ProcessTrap, capture.makeCaptureFilename.
  cbn [capture.dir capture.fileExpr capture.fileFormat capture.counter].
  unfold oneOf. cbn [existsb].
  destruct (String.eqb_spec format "gob") as [->|Hgob]; [reflexivity|].
  destruct (String.eqb_spec format "") as [->|Hnone]; [reflexivity|].
  cbn [orb]. rewrite (proj2 (String.eqb_neq _ _) Hgob), (proj2 (String.eqb_neq _ _) Hnone).
  reflexivity.
Qed.

Lemma capture_format_not_checked_witness :
  capture.Configure ["dir"; "format"]%string capture.ActionPlugin captureAsJson =
    ({| capture.dir := "/var/spool/traps"; capture.fileExpr := "captureFile";
        capture.fileFormat := "json"; capture.counter := 0 |},
     None, ["Initialization of plugin"; "Added capture destination"]%string) /\
  capture.ProcessTrap (fun _ _ => None)
    {| capture.dir := "/var/spool/traps"; capture.fileExpr := "captureFile";
       capture.fileFormat := "json"; capture.counter := 0 |} (freshTrap 1) =
    ({| capture.dir := "/var/spool/traps"; capture.fileExpr := "captureFile";
        capture.fileFormat := "json"; capture.counter := 0 |},
     Some "Unknown file format 'json'"%string, None).
Proof.
  assert (capture.Configure ["dir"; "format"]%string capture.ActionPlugin captureAsJson =
    ({| capture.dir := "/var/spool/traps"; capture.fileExpr := "captureFile";
        capture.fileFormat := "json"; capture.counter := 0 |},
     None, ["Initialization of plugin"; "Added capture destination"]%string)) as Hconf
    by (vm_compute; reflexivity).
  split; [exact Hconf|].
  exact (capture_format_not_checked _ _ _ _ _ (fun _ _ => None) (freshTrap 1) Hconf).
Defined.

Lemma makeCaptureFilename_inj (d e f : string) (n m : Z) :
  capture.makeCaptureFilename d e f n = capture.makeCaptureFilename d e f m -> n = m.
Proof.
  unfold capture.makeCaptureFilename. intros H.
  apply append_inj_l in H. apply (append_inj_l "/") in H. apply append_inj_l in H.
  apply (append_inj_l "-") in H. apply append_inj_r in H. now apply fmt_int_inj.
Qed.

Lemma captureAll_files (saveCaptureGob : string -> pluginMeta.Trap -> option error)
  (traps : list pluginMeta.Trap) :
  forall a,
    oneOf (capture.fileFormat a) ["gob"; ""]%string = true ->
    (0 <= capture.counter a)%Z ->
    (capture.counter a + Z.of_nat (length traps) < 2 ^ 63)%Z ->
    fst (capture.captureAll saveCaptureGob a traps) =
      map (fun k => capture.makeCaptureFilename (capture.dir a) (capture.fileExpr a)
                      (capture.fileFormat a) (capture.counter a + Z.of_nat k))
          (seq 0 (length traps)) /\
    capture.counter (snd (capture.captureAll saveCaptureGob a traps)) =
      (capture.counter a + Z.of_nat (length traps))%Z.
Proof.
  induction traps as [|trap rest IH]; intros a Hfmt Hlo Hhi.
  - cbn. split; [reflexivity | lia].
  - cbn [capture.captureAll]. unfold capture.ProcessTrap. rewrite Hfmt.
    set (a1 := {| capture.dir := capture.dir a; capture.counter := _ |}).
    cbn [length] in Hhi.
    assert (capture.counter a1 = (capture.counter a + 1)%Z) as Hc
      by (cbn [a1 capture.counter]; apply wrapInt_small; lia).
    destruct (IH a1) as [IH1 IH2]; [exact Hfmt | lia | lia |].
    destruct (capture.captureAll saveCaptureGob a1 rest) as [files final].
    cbn [fst snd] in *. split.
    + cbn [length seq map]. rewrite Z.add_0_r. f_equal.
      rewrite IH1, <- seq_shift, map_map. apply map_ext. intros k.
      rewrite Hc. cbn [a1 capture.dir capture.fileExpr capture.fileFormat].
      f_equal. lia.
    + rewrite IH2, Hc. cbn [length]. lia.
Qed.

(** X18. With the gob format, the capture plugin writes each trap to a file
    of its own: called with one trap after the other, it writes as many
    files as there are traps, numbered from its counter on, and no two of
    them have the same name (as long as the counter does not wrap). *)
Theorem capture_files_distinct
  (saveCaptureGob : string -> pluginMeta.Trap -> option error)
  (a : capture.trapCapture) (traps : list pluginMeta.Trap) :
  oneOf (capture.fileFormat a) ["gob"; ""]%string = true ->
  (0 <= capture.counter a)%Z ->
  (capture.counter a + Z.of_nat (length traps) < 2 ^ 63)%Z ->
  let files := fst (capture.captureAll saveCaptureGob a traps) in
  length files = length traps /\
  NoDup files /\
  (forall k, k < length traps ->
     files !! k =
       Some (capture.makeCaptureFilename (capture.dir a) (capture.fileExpr a)
               (capture.fileFormat a) (capture.counter a + Z.of_nat k))) /\
  capture.counter (snd (capture.captureAll saveCaptureGob a traps)) =
    (capture.counter a + Z.of_nat (length traps))%Z.
Proof.
  intros Hfmt Hlo Hhi files. subst files.
  destruct (captureAll_files saveCaptureGob traps a Hfmt Hlo Hhi) as [-> Hc].
  split; [now rewrite length_map, length_seq|]. split; [|split; [|exact Hc]].
  - change map with (@fmap list _).
    apply NoDup_fmap_2; [|apply NoDup_seq].
    intros k1 k2 H. apply makeCaptureFilename_inj in H. lia.
  - intros k Hk. change map with (@fmap list _) at 1.
    rewrite list_lookup_fmap, lookup_seq_lt by exact Hk. reflexivity.
Qed.

Lemma capture_files_distinct_witness :
  oneOf (capture.fileFormat capture.ActionPlugin) ["gob"; ""]%string = true /\
  (0 <= capture.counter capture.ActionPlugin)%Z /\
  (capture.counter capture.ActionPlugin +
   Z.of_nat (length [freshTrap 1; freshTrap 2; freshTrap 3]) < 2 ^ 63)%Z /\
  NoDup (fst (capture.captureAll (fun _ _ => None) capture.ActionPlugin
                [freshTrap 1; freshTrap 2; freshTrap 3])).
Proof.
  assert (oneOf (capture.fileFormat capture.ActionPlugin) ["gob"; ""]%string = true)
    as Hfmt by reflexivity.
  assert (0 <= capture.counter capture.ActionPlugin)%Z as Hlo by (cbn; lia).
  assert (capture.counter capture.ActionPlugin +
          Z.of_nat (length [freshTrap 1; freshTrap 2; freshTrap 3]) < 2 ^ 63)%Z as Hhi
    by (cbn; lia).
  split; [exact Hfmt|]. split; [exact Hlo|]. split; [exact Hhi|].
  exact (proj1 (proj2 (capture_files_distinct (fun _ _ => None) capture.ActionPlugin
                         [freshTrap 1; freshTrap 2; freshTrap 3] Hfmt Hlo Hhi))).
Defined.

(** ** The forwarding plugin *)

(** X19. [Configure] of the forwarding plugin panics when the [port] argument
    is missing or is no decimal integer; it returns no error for that.  A
    port that is an integer is cut to its low 16 bits without a range check,
    so 65698 configures port 162; the destination stays assigned when
    [Connect] fails and the error is returned. *)
Theorem forward_Configure_port (g_MaxOids : Z)
  (Connect : forward.GoSNMP -> option error) (a : forward.trapForwarder)
  (actionArgs : gmap string string) :
  let port_str := default EmptyString (actionArgs !! "port"%string) in
  let out := forward.Configure g_MaxOids Connect a actionArgs in
  (fst out = Panicked <-> strconv.Atoi port_str = None) /\
  (actionArgs !! "port"%string = None -> out = (Panicked, a)) /\
  (forall port,
      strconv.Atoi port_str = Some port ->
      exists target,
        forward.destination (snd out) = Some target /\
        forward.Port target = (port mod 2 ^ 16)%Z /\
        (0 <= forward.Port target < 2 ^ 16)%Z /\
        forward.Target target = default EmptyString (actionArgs !! "hostname"%string) /\
        fst out = match Connect target with
                  | Some err => Failed err
                  | None => Done tt
                  end) /\
  (forall p q x,
      strconv.Atoi p = Some x -> strconv.Atoi q = Some (x + 2 ^ 16)%Z ->
      forward.Configure g_MaxOids Connect a (<["port"%string := q]> actionArgs) =
      forward.Configure g_MaxOids Connect a (<["port"%string := p]> actionArgs)).
Proof.
  intros port_str out. subst out. unfold forward.Configure. fold port_str.
  split; [|split; [|split]].
  - destruct (strconv.Atoi port_str) as [port|]; [|split; reflexivity].
    cbn zeta. destruct (Connect _); split; discriminate.
  - intros Hnone. subst port_str. rewrite Hnone. reflexivity.
  - intros port ->. cbn zeta.
    match goal with |- context [Connect ?t] => exists t end.
    split; [now destruct (Connect _)|]. split; [reflexivity|].
    split; [cbn [forward.Port]; apply Z.mod_pos_bound; lia|].
    split; [reflexivity | now destruct (Connect _)].
  - intros p q x Hp Hq. rewrite !lookup_insert_eq. cbn [default from_option id].
    rewrite Hp, Hq.
    assert (actionArgs_hostname :
              forall v, <["port"%string := v]> actionArgs !! "hostname"%string =
                        actionArgs !! "hostname"%string)
      by (intros v; now rewrite lookup_insert_ne).
    rewrite !actionArgs_hostname.
    replace ((x + 2 ^ 16) mod 2 ^ 16)%Z with (x mod 2 ^ 16)%Z; [reflexivity|].
    rewrite <- (Z.mul_1_l (2 ^ 16)) at 2. now rewrite Z.mod_add by lia.
Qed.

Lemma forward_Configure_port_witness :
  strconv.Atoi (default EmptyString (forwardBeyond !! "port"%string)) = Some 65698%Z /\
  exists target,
    forward.destination (snd (forward.Configure 60 connects
                                {| forward.destination := None |} forwardBeyond)) =
      Some target /\
    forward.Port target = (65698 mod 2 ^ 16)%Z.
Proof.
  assert (strconv.Atoi (default EmptyString (forwardBeyond !! "port"%string)) =
          Some 65698%Z) as Hport by (vm_compute; reflexivity).
  split; [exact Hport|].
  destruct (proj1 (proj2 (proj2 (forward_Configure_port 60 connects
                                   {| forward.destination := None |} forwardBeyond)))
              65698%Z Hport) as (target & Hdest & Hp & _).
  exists target. split; [exact Hdest | exact Hp].
Defined.

(** ** No nil pointer once a configuration is in force *)

Lemma getConfig_Done_serving E st st' :
  getConfig E st = (Done tt, st') -> serving st'.
Proof.
  intros H. apply getConfig_published in H.
  destruct H as (loaded & published & _ & Hte & Hconf & HF & _).
  exists published. split; [assumption|]. split; [assumption|].
  unfold handlesBound. clear -HF.
  induction HF as [|f f' l l' Hb _ IH]; constructor; [|exact IH].
  now destruct Hb as (_ & _ & _ & Hplug).
Qed.

Lemma closeHandles_finishes E cur :
  handlesBound cur -> snd (closeHandles E cur) = true.
Proof.
  unfold handlesBound, closeHandles.
  induction (Filters cur) as [|f rest IH]; intros Hb; [reflexivity|].
  apply Forall_cons in Hb. destruct Hb as [Hf Hrest]. cbn [closeHandles_loop].
  destruct (actionType f); try (now apply IH).
  destruct (Hf eq_refl) as [p ->]. specialize (IH Hrest).
  now destruct (closeHandles_loop E rest).
Qed.

Lemma handleSIGUSR2_finishes (plugin_SigUsr2 : ActionPlugin -> option error) st :
  serving st -> fst (handleSIGUSR2 plugin_SigUsr2 st) = Done tt.
Proof.
  intros (cur & Hte & _ & Hb). unfold handleSIGUSR2. rewrite Hte.
  assert (snd (handleSIGUSR2_loop plugin_SigUsr2 (Filters cur)) = true) as Hfin.
  { unfold handlesBound in Hb.
    induction (Filters cur) as [|f rest IH]; [reflexivity|].
    apply Forall_cons in Hb. destruct Hb as [Hf Hrest]. cbn [handleSIGUSR2_loop].
    destruct (actionType f); try (now apply IH).
    destruct (Hf eq_refl) as [p ->]. specialize (IH Hrest).
    now destruct (handleSIGUSR2_loop plugin_SigUsr2 rest). }
  destruct (handleSIGUSR2_loop plugin_SigUsr2 (Filters cur)) as [evs finished].
  cbn [snd] in Hfin. now subst finished.
Qed.

Lemma addReportingPlugins_loop_no_panic E cur (reporting : list reporterConfig) :
  forall i, addReportingPlugins_loop E (Some cur) i reporting <> Panicked.
Proof.
  induction reporting as [|config rest IH]; intros i; cbn [addReportingPlugins_loop];
    [discriminate|].
  destruct (LoadMetricPlugin E _ _); [|discriminate].
  destruct (ConfigureMetric E _ _); [discriminate|].
  specialize (IH (S i)).
  destruct (addReportingPlugins_loop E (Some cur) (S i) rest); congruence.
Qed.

Lemma getConfig_serving_no_panic E st :
  serving st -> fst (getConfig E st) <> Panicked.
Proof.
  intros (cur & Hte & Hconf & Hb). unfold getConfig.
  destruct (loadConfig E _); [|discriminate].
  destruct (validateIgnoreVersions _); [|discriminate].
  destruct (validateSnmpV3Args E _); [|discriminate].
  destruct (addIpSets _); [|discriminate].
  destruct (addFilters E _); [|discriminate].
  destruct (addPluginErrorActions E _) as [c5|]; [|discriminate].
  cbn [emit teConfig]. rewrite Hte. unfold addReportingPlugins.
  pose proof (addReportingPlugins_loop_no_panic E cur (Reporting c5) 0) as Hloop.
  destruct (addReportingPlugins_loop E (Some cur) 0 (Reporting c5));
    try discriminate; [|contradiction].
  rewrite Hconf. pose proof (closeHandles_finishes E cur Hb) as Hfin.
  destruct (closeHandles E cur) as [closed finished]. cbn [snd] in Hfin. subst finished.
  discriminate.
Qed.

Lemma getConfig_serving E st : serving st -> serving (snd (getConfig E st)).
Proof.
  intros Hs. destruct (getConfig E st) as [r st'] eqn:Hg. cbn [snd].
  destruct r as [[]|e|e|].
  - now apply (getConfig_Done_serving E st).
  - destruct (getConfig_not_Done _ _ _ _ Hg) as [Hte _]; [discriminate|].
    destruct Hs as (cur & Hcur & Hrest). exists cur. now rewrite Hte.
  - destruct (getConfig_not_Done _ _ _ _ Hg) as [Hte _]; [discriminate|].
    destruct Hs as (cur & Hcur & Hrest). exists cur. now rewrite Hte.
  - destruct (getConfig_not_Done _ _ _ _ Hg) as [Hte _]; [discriminate|].
    destruct Hs as (cur & Hcur & Hrest). exists cur. now rewrite Hte.
Qed.

Lemma handleSIGHUP_teConfig E st :
  teConfig (snd (handleSIGHUP E st)) = teConfig (snd (getConfig E st)) /\
  (fst (handleSIGHUP E st) = Panicked -> fst (getConfig E st) = Panicked).
Proof.
  unfold handleSIGHUP. destruct (getConfig E st) as [r st'].
  destruct r; cbn [fst snd]; split; try reflexivity; try discriminate; auto.
Qed.

Lemma trapHandler_teConfig isFilterMatch processAction cur p addr st :
  teConfig (trapHandler isFilterMatch processAction cur p addr st) = teConfig st.
Proof.
  unfold trapHandler.
  destruct (isIgnoredVersion cur (g.Version p)); [reflexivity|].
  now destruct (String.eqb (Logging_Level cur) "debug").
Qed.

Lemma daemonStep_serving st st' : daemonStep st st' -> serving st -> serving st'.
Proof.
  intros Hstep Hs. destruct Hstep as [E st st' Hhup | isFM pA cur p addr st Hcur].
  - destruct (handleSIGHUP_teConfig E st) as [Hte _]. rewrite Hhup in Hte. cbn [snd] in Hte.
    destruct (getConfig_serving E st Hs) as (cur & Hcur & Hrest).
    exists cur. now rewrite Hte.
  - destruct Hs as (cur' & Hcur' & Hrest). exists cur'.
    now rewrite trapHandler_teConfig.
Qed.

(** X20. Once [getConfig] has returned nil for the first time, and whatever
    reloads that come back to [handleSIGHUP] and whatever traps follow,
    [teConfig] is not nil and designates a configuration that [getConfig]
    published, in which every plugin filter of the filter list holds a
    handle; the next [getConfig] is a reload. *)
Theorem daemon_keeps_a_configuration (E0 : Env) (st0 st : Process) :
  getConfig E0 startOfProcess = (Done tt, st0) ->
  rtc daemonStep st0 st ->
  isReconfigure st = true /\
  exists cur,
    teConfig st = Some cur /\ teConfigured cur = true /\
    Forall (fun f => actionType f = actionPlugin -> is_Some (plugin f)) (Filters cur).
Proof.
  intros Hload Hrun.
  assert (serving st) as Hs.
  { apply getConfig_Done_serving in Hload.
    induction Hrun as [|x y z Hstep _ IH]; [assumption|].
    apply IH. now apply (daemonStep_serving x y). }
  destruct Hs as (cur & Hcur & Hconf & Hbound).
  split.
  - unfold isReconfigure. now rewrite Hcur.
  - exists cur. split; [exact Hcur|]. split; [exact Hconf | exact Hbound].
Qed.

Lemma daemon_keeps_a_configuration_witness :
  getConfig sampleEnv startOfProcess = (Done tt, running) /\
  rtc daemonStep running
    (trapHandler alwaysMatch forwardFails runningConfig
       (fst (samplePacket g.Version2c)) (snd (samplePacket g.Version2c)) running) /\
  serving
    (trapHandler alwaysMatch forwardFails runningConfig
       (fst (samplePacket g.Version2c)) (snd (samplePacket g.Version2c)) running).
Proof.
  assert (getConfig sampleEnv startOfProcess = (Done tt, running)) as Hrun
    by (vm_compute; reflexivity).
  assert (rtc daemonStep running
            (trapHandler alwaysMatch forwardFails runningConfig
               (fst (samplePacket g.Version2c)) (snd (samplePacket g.Version2c)) running))
    as Hsteps.
  { apply rtc_once. apply daemon_trap. vm_compute. reflexivity. }
  split; [exact Hrun|]. split; [exact Hsteps|].
  destruct (daemon_keeps_a_configuration _ _ _ Hrun Hsteps)
    as (_ & cur & Hcur & Hconf & Hbound).
  exists cur. split; [exact Hcur|]. split; [exact Hconf | exact Hbound].
Defined.

(** ** The order in which [processTrap] consults the filters *)

Lemma evaluatedOn_app evs1 evs2 :
  evaluatedOn (evs1 ++ evs2) = evaluatedOn evs1 ++ evaluatedOn evs2.
Proof. apply omap_app. Qed.

Lemma actedOn_app evs1 evs2 : actedOn (evs1 ++ evs2) = actedOn evs1 ++ actedOn evs2.
Proof. apply omap_app. Qed.

Lemma counterInc_silent cur counter :
  evaluatedOn (counterInc cur counter) = [] /\ actedOn (counterInc cur counter) = [].
Proof.
  unfold counterInc. now induction (seq 0 (length (Reporting cur))) as [|k l IH].
Qed.

Lemma spawnErrorActions_silent cur :
  evaluatedOn (spawnErrorActions cur) = [] /\ actedOn (spawnErrorActions cur) = [].
Proof.
  unfold spawnErrorActions.
  now induction (seq 0 (length (PluginErrorActions cur))) as [|k l IH].
Qed.

Section OrderFacts.

Variable isFilterMatch : trapmuxFilter -> pluginMeta.Trap -> bool.
Variable processAction :
  trapmuxFilter -> pluginMeta.Trap -> pluginMeta.Trap * option error.
Variable cur : trapmuxConfig.

(** One turn evaluates the matchers of its filter at most once, and only when
    the filter is no match-all; it invokes the action at most once, and only
    when the filter matched and is no break. *)
Lemma processTrap_turn_order i filterDef trap :
  let evs := snd (processTrap_turn isFilterMatch processAction cur i filterDef trap) in
  (evaluatedOn evs = [] \/ (evaluatedOn evs = [i] /\ matchAll filterDef = false)) /\
  (actedOn evs = [] \/
   (actedOn evs = [i] /\ actionType filterDef <> actionBreak /\
    pluginMeta.Dropped trap = false /\
    matchAll filterDef || isFilterMatch filterDef trap = true)).
Proof.
  cbn zeta. unfold processTrap_turn.
  destruct (pluginMeta.Dropped trap) eqn:Hd; [cbn; auto|].
  destruct (counterInc_silent cur pluginMeta.DroppedTraps) as [C1 C2].
  destruct (spawnErrorActions_silent cur) as [S1 S2].
  set (evalMatch := if matchAll filterDef then [] else [EvIsFilterMatch i]).
  assert (actedOn evalMatch = [] /\
          (evaluatedOn evalMatch = [] \/
           (evaluatedOn evalMatch = [i] /\ matchAll filterDef = false))) as [M1 M2].
  { unfold evalMatch. destruct (matchAll filterDef); cbn; auto. }
  assert (forall err : option error,
             evaluatedOn (EvProcessAction i (bool_decide (is_Some err)) ::
                          match err with
                          | Some _ => spawnErrorActions cur
                          | None => []
                          end) = [] /\
             actedOn (EvProcessAction i (bool_decide (is_Some err)) ::
                      match err with
                      | Some _ => spawnErrorActions cur
                      | None => []
                      end) = [i]) as Hact.
  { intros [e|].
    - change (evaluatedOn (spawnErrorActions cur) = [] /\
              i :: actedOn (spawnErrorActions cur) = [i]). now rewrite S1, S2.
    - split; reflexivity. }
  destruct (matchAll filterDef || isFilterMatch filterDef trap) eqn:Hm;
    [|cbn [snd]; rewrite M1; auto].
  destruct (actionType filterDef) eqn:Hk.
  - cbn [snd]. rewrite evaluatedOn_app, actedOn_app, C1, C2, M1, app_nil_r. auto.
  - destruct (processAction filterDef trap) as [trap' err]. destruct (Hact err) as [A1 A2].
    destruct (BreakAfter filterDef); cbn [snd];
      rewrite ?evaluatedOn_app, ?actedOn_app, ?C1, ?C2, A1, A2, M1, ?app_nil_r; cbn [app];
      (split; [exact M2 | right; repeat split; discriminate]).
  - destruct (processAction filterDef trap) as [trap' err]. destruct (Hact err) as [A1 A2].
    destruct (BreakAfter filterDef); cbn [snd];
      rewrite ?evaluatedOn_app, ?actedOn_app, ?C1, ?C2, A1, A2, M1, ?app_nil_r; cbn [app];
      (split; [exact M2 | right; repeat split; discriminate]).
Qed.

Lemma processTrap_loop_order filters :
  forall i trap,
    let evs := snd (processTrap_loop isFilterMatch processAction cur i filters trap) in
    StronglySorted lt (evaluatedOn evs) /\ StronglySorted lt (actedOn evs) /\
    (forall k, In k (evaluatedOn evs) ->
       i <= k /\ exists f, filters !! (k - i) = Some f /\ matchAll f = false) /\
    (forall k, In k (actedOn evs) ->
       i <= k /\ exists f, filters !! (k - i) = Some f /\ actionType f <> actionBreak).
Proof.
  induction filters as [|f rest IH]; intros i trap; cbn zeta; cbn [processTrap_loop].
  - change (StronglySorted lt [] /\ StronglySorted lt [] /\
            (forall k, In k [] ->
               i <= k /\ exists f, @nil trapmuxFilter !! (k - i) = Some f /\ matchAll f = false) /\
            (forall k, In k [] ->
               i <= k /\ exists f, @nil trapmuxFilter !! (k - i) = Some f /\
                                   actionType f <> actionBreak)).
    split; [constructor|]. split; [constructor|]. split; intros k [].
  - pose proof (processTrap_turn_order i f trap) as Hturn. cbn zeta in Hturn.
    destruct (processTrap_turn isFilterMatch processAction cur i f trap) as [t1 e1].
    cbn [snd] in Hturn. specialize (IH (S i) t1). cbn zeta in IH.
    destruct (processTrap_loop isFilterMatch processAction cur (S i) rest t1) as [t2 e2].
    cbn [snd] in *. destruct IH as (I1 & I2 & I3 & I4). destruct Hturn as [He Ha].
    rewrite evaluatedOn_app, actedOn_app.
    assert (forall (l : list nat) (P : trapmuxFilter -> Prop),
               StronglySorted lt l ->
               (forall k, In k l -> S i <= k /\ exists f0, rest !! (k - S i) = Some f0 /\ P f0) ->
               forall first,
                 first = [] \/ (first = [i] /\ P f) ->
                 StronglySorted lt (first ++ l) /\
                 (forall k, In k (first ++ l) ->
                    i <= k /\ exists f0, (f :: rest) !! (k - i) = Some f0 /\ P f0)) as Hgen.
    { intros l P Hs Hin first [-> | [-> HP]]; cbn [app].
      - split; [exact Hs|]. intros k Hk. destruct (Hin k Hk) as (Hle & f0 & Hf0 & HP0).
        split; [lia|]. exists f0. split; [|exact HP0].
        replace (k - i) with (S (k - S i)) by lia. exact Hf0.
      - split.
        + constructor; [exact Hs|]. apply Forall_forall. intros k Hk.
          apply list_elem_of_In in Hk. destruct (Hin k Hk) as [Hle _]. lia.
        + intros k [<-|Hk].
          * split; [lia|]. exists f. rewrite Nat.sub_diag. auto.
          * destruct (Hin k Hk) as (Hle & f0 & Hf0 & HP0).
            split; [lia|]. exists f0. split; [|exact HP0].
            replace (k - i) with (S (k - S i)) by lia. exact Hf0. }
    destruct (Hgen _ (fun f0 => matchAll f0 = false) I1 I3 (evaluatedOn e1)) as [G1 G2];
      [tauto|].
    destruct (Hgen _ (fun f0 => actionType f0 <> actionBreak) I2 I4 (actedOn e1))
      as [G3 G4]; [tauto|].
    auto.
Qed.

End OrderFacts.

(** X21. [processTrap] consults the filters in the order of the list and each
    at most once: the positions of the filters whose matchers it evaluates,
    and of those whose action it invokes, increase strictly along the trace.
    It evaluates matchers only for filters that are no match-all, and invokes
    the action only of filters that are no break. *)
Theorem processTrap_consults_in_order
  (isFilterMatch : trapmuxFilter -> pluginMeta.Trap -> bool)
  (processAction : trapmuxFilter -> pluginMeta.Trap -> pluginMeta.Trap * option error)
  (cur : trapmuxConfig) (trap : pluginMeta.Trap) :
  let evs := snd (processTrap isFilterMatch processAction cur trap) in
  StronglySorted lt (evaluatedOn evs) /\
  StronglySorted lt (actedOn evs) /\
  (forall k, In k (evaluatedOn evs) ->
     exists f, Filters cur !! k = Some f /\ matchAll f = false) /\
  (forall k, In k (actedOn evs) ->
     exists f, Filters cur !! k = Some f /\ actionType f <> actionBreak).
Proof.
  cbn zeta. unfold processTrap.
  destruct (processTrap_loop_order isFilterMatch processAction cur (Filters cur) 0 trap)
    as (H1 & H2 & H3 & H4).
  split; [exact H1|]. split; [exact H2|]. split.
  - intros k Hk. destruct (H3 k Hk) as (_ & f & Hf & Hm).
    rewrite Nat.sub_0_r in Hf. now exists f.
  - intros k Hk. destruct (H4 k Hk) as (_ & f & Hf & Hm).
    rewrite Nat.sub_0_r in Hf. now exists f.
Qed.

(** ** Filter lines of the line-oriented configuration *)

Lemma prefix_cons (a b : ascii) (p s : string) :
  String.prefix (String a p) (String b s) = true <-> a = b /\ String.prefix p s = true.
Proof.
  cbn [String.prefix]. destruct (ascii_dec a b) as [->|Hne].
  - tauto.
  - split; [discriminate | intros [Heq _]; contradiction].
Qed.

Lemma strings_Join_cons (a b : string) (l : list string) (sep : string) :
  strings_Join (a :: b :: l) sep = a +:+ sep +:+ strings_Join (b :: l) sep.
Proof. reflexivity. Qed.

Lemma prefix_empty (s : string) : String.prefix "" s = true.
Proof. now destruct s. Qed.

Lemma blankFree_cons (c : ascii) (s : string) :
  blankFree (String c s) <-> c <> " "%char /\ blankFree s.
Proof.
  unfold blankFree. cbn [GoStrings.Contains String.prefix].
  destruct (ascii_dec " " c) as [<-|Hne].
  - rewrite prefix_empty. cbn [orb].
    split; [discriminate | intros [H _]; contradiction].
  - cbn [orb]. split; [intros H; split; [congruence | exact H] | tauto].
Qed.

Lemma join_prefix_star (a b : string) (l : list string) (p : string) :
  blankFree a ->
  String.prefix (String "*" (String " " p)) (strings_Join (a :: b :: l) " ") = true <->
  a = "*"%string /\ String.prefix p (strings_Join (b :: l) " ") = true.
Proof.
  intros Ha. rewrite strings_Join_cons.
  destruct a as [|c a]; [cbn; split; [discriminate | intros [H _]; discriminate]|].
  change (String c a +:+ " " +:+ strings_Join (b :: l) " ")
    with (String c (a +:+ " " +:+ strings_Join (b :: l) " ")).
  rewrite prefix_cons. apply blankFree_cons in Ha. destruct Ha as [_ Ha].
  destruct a as [|d a].
  - change ("" +:+ " " +:+ strings_Join (b :: l) " ")
      with (String " " (strings_Join (b :: l) " ")).
    rewrite prefix_cons. split.
    + intros (<- & _ & H). auto.
    + intros ([= <-] & H). auto.
  - change (String d a +:+ " " +:+ strings_Join (b :: l) " ")
      with (String d (a +:+ " " +:+ strings_Join (b :: l) " ")).
    rewrite prefix_cons. apply blankFree_cons in Ha. destruct Ha as [Hd _].
    split; [intros (_ & <- & _); contradiction | intros (Habs & _); discriminate].
Qed.

Lemma join_prefix_last (a b : string) (l : list string) :
  String.prefix "*" (strings_Join (a :: b :: l) " ") = true <->
  exists rest, a = String "*" rest.
Proof.
  rewrite strings_Join_cons. destruct a as [|c a].
  - cbn. split; [discriminate | intros (rest & H); discriminate].
  - change (String c a +:+ " " +:+ strings_Join (b :: l) " ")
      with (String c (a +:+ " " +:+ strings_Join (b :: l) " ")).
    rewrite prefix_cons. split.
    + intros (<- & _). now exists a.
    + intros (rest & [= -> _]). split; [reflexivity|]. now destruct (_ +:+ _).
Qed.

Section ParserFacts.

Variable E : Env.
Variable NumError : string -> string -> string.
Variable forwarder_initAction : string -> option error.
Variable logger_initAction : string -> trapex.trapexConfig -> option error.
Variable csvLogger_initAction : string -> trapex.trapexConfig -> option error.

(** What a successful [processFilterLine] did, step by step. *)
Lemma processFilterLine_Ok f newConfig lineNumber built :
  trapex.processFilterLine E NumError forwarder_initAction logger_initAction
    csvLogger_initAction f newConfig lineNumber = Ok built ->
  7 <= length f /\
  exists criteria chosen,
    (if GoStrings.HasPrefix (strings_Join f " ") "* * * * * *"
     then criteria = (true, [])
     else exists items,
         trapex.filterColumns E NumError 0 (take 6 f) trapex.zeroObj [] lineNumber =
           Ok items /\
         criteria = (false, items)) /\
    trapex.filterAction forwarder_initAction logger_initAction csvLogger_initAction
      (nth 6 f EmptyString)
      (if (7 <? length f)%nat then nth 7 f EmptyString else EmptyString)
      ((8 <? length f)%nat && String.eqb (nth 8 f EmptyString) "break")
      newConfig lineNumber = Ok chosen /\
    built =
      trapex.set_filters
        (trapex.filters newConfig ++
         [{| trapex.matchAll := fst criteria; trapex.filterItems := snd criteria;
             trapex.actionType := fst (fst chosen); trapex.actionArg := snd (fst chosen);
             trapex.action := snd chosen |}]) newConfig.
Proof.
  unfold trapex.processFilterLine. intros H.
  destruct (length f <? 7)%nat eqn:Hlen; [discriminate|].
  apply Nat.ltb_ge in Hlen. split; [exact Hlen|].
  apply bind_Ok in H. destruct H as (criteria & Hc & H).
  apply bind_Ok in H. destruct H as (chosen & Ha & H).
  injection H as <-. exists criteria, chosen.
  split; [|split; [exact Ha | reflexivity]].
  destruct (GoStrings.HasPrefix (strings_Join f " ") "* * * * * *").
  - now injection Hc as <-.
  - apply bind_Ok in Hc. destruct Hc as (items & Hi & Hc). injection Hc as <-.
    now exists items.
Qed.

End ParserFacts.

(** X22. [processFilterLine] takes a line for a match-all when the fields,
    joined by blanks, begin with six stars.  For fields without blanks that is
    the case exactly when the first five columns are [*] and the sixth begins
    with a star: a line whose OID column is [*.1.3.6] is a match-all too, and
    the filter is built without a matcher for it. *)
Theorem processFilterLine_match_all (E : Env) (NumError : string -> string -> string)
  (forwarder_initAction : string -> option error)
  (logger_initAction csvLogger_initAction : string -> trapex.trapexConfig -> option error)
  (f : list string) (newConfig built : trapex.trapexConfig) (lineNumber : Z) :
  trapex.processFilterLine E NumError forwarder_initAction logger_initAction
    csvLogger_initAction f newConfig lineNumber = Ok built ->
  exists filter,
    trapex.filters built = trapex.filters newConfig ++ [filter] /\
    trapex.matchAll filter = GoStrings.HasPrefix (strings_Join f " ") "* * * * * *" /\
    (trapex.matchAll filter = true -> trapex.filterItems filter = []) /\
    (Forall blankFree (take 5 f) ->
     (trapex.matchAll filter = true <->
      exists sixth rest,
        f = "*"%string :: "*"%string :: "*"%string :: "*"%string :: "*"%string ::
            String "*" sixth :: rest)).
Proof.
  intros H. apply processFilterLine_Ok in H.
  destruct H as (Hlen & criteria & chosen & Hc & _ & ->).
  eexists. split; [reflexivity|]. cbn [trapex.matchAll trapex.filterItems].
  assert (fst criteria = GoStrings.HasPrefix (strings_Join f " ") "* * * * * *" /\
          (fst criteria = true -> snd criteria = [])) as [Hm Hnone].
  { destruct (GoStrings.HasPrefix (strings_Join f " ") "* * * * * *").
    - subst criteria. auto.
    - destruct Hc as (items & _ & ->). split; [reflexivity | discriminate]. }
  split; [exact Hm|]. split; [exact Hnone|].
  intros Hblank. rewrite Hm. unfold GoStrings.HasPrefix.
  destruct f as [|f0 [|f1 [|f2 [|f3 [|f4 [|f5 [|f6 rest]]]]]]]; cbn [length] in Hlen; try lia.
  cbn [take] in Hblank.
  repeat match goal with
         | H : Forall _ (_ :: _) |- _ =>
             let Hx := fresh "Hb" in apply Forall_cons in H; destruct H as [Hx H]
         end.
  rewrite (join_prefix_star f0) by assumption.
  rewrite (join_prefix_star f1) by assumption.
  rewrite (join_prefix_star f2) by assumption.
  rewrite (join_prefix_star f3) by assumption.
  rewrite (join_prefix_star f4) by assumption.
  rewrite join_prefix_last. split.
  - intros (-> & -> & -> & -> & -> & sixth & ->). now exists sixth, (f6 :: rest).
  - intros (sixth & rest' & [= -> -> -> -> -> -> _]).
    repeat (split; [reflexivity|]). now exists sixth.
Qed.

Lemma processFilterLine_match_all_witness :
  trapex.processFilterLine sampleEnv plainNumError initialises initialisesWith
    initialisesWith starredOidLine trapex.zeroConfig 12 =
    Ok (trapex.set_filters
          [{| trapex.matchAll := true; trapex.filterItems := [];
              trapex.actionType := trapex.actionForward; trapex.actionArg := "";
              trapex.action := Some (trapex.forwarderOf "192.168.7.7:162") |}]
          trapex.zeroConfig) /\
  exists filter,
    trapex.filters
      (trapex.set_filters
          [{| trapex.matchAll := true; trapex.filterItems := [];
              trapex.actionType := trapex.actionForward; trapex.actionArg := "";
              trapex.action := Some (trapex.forwarderOf "192.168.7.7:162") |}]
          trapex.zeroConfig) = trapex.filters trapex.zeroConfig ++ [filter] /\
    trapex.matchAll filter = true /\ trapex.filterItems filter = [].
Proof.
  assert (trapex.processFilterLine sampleEnv plainNumError initialises initialisesWith
    initialisesWith starredOidLine trapex.zeroConfig 12 =
    Ok (trapex.set_filters
          [{| trapex.matchAll := true; trapex.filterItems := [];
              trapex.actionType := trapex.actionForward; trapex.actionArg := "";
              trapex.action := Some (trapex.forwarderOf "192.168.7.7:162") |}]
          trapex.zeroConfig)) as Hline by (vm_compute; reflexivity).
  split; [exact Hline|].
  destruct (processFilterLine_match_all _ _ _ _ _ _ _ _ _ Hline)
    as (filter & Hf & Hm & Hnone & _).
  assert (trapex.matchAll filter = true) as Hall by (rewrite Hm; vm_compute; reflexivity).
  exists filter. split; [exact Hf|]. split; [exact Hall | exact (Hnone Hall)].
Defined.

Section ColumnFacts.

Variable E : Env.
Variable NumError : string -> string -> string.

Lemma filterColumn_Ok i fi fObj lineNumber m :
  trapex.filterColumn E NumError i fi fObj lineNumber = Ok m ->
  filterItem_ m = trapex.columnItem i /\
  (filterType m = parseTypeIPSet -> filterValue_ m = filterValue_ fObj) /\
  (filterType m = parseTypeIPSet <->
   (i = 1 \/ i = 2) /\ GoStrings.HasPrefix fi "ipset:" = true).
Proof.
  unfold trapex.filterColumn. intros H.
  destruct (i =? 0)%nat eqn:H0.
  { apply Nat.eqb_eq in H0. subst i.
    destruct (versionOfToken _); [|discriminate]. injection H as <-. cbn.
    repeat split; try discriminate. intros [[?|?] _]; discriminate. }
  apply Nat.eqb_neq in H0.
  destruct ((i =? 1)%nat || (i =? 2)%nat) eqn:H12.
  { assert (i = 1 \/ i = 2) as Hi.
    { apply orb_true_iff in H12. rewrite !Nat.eqb_eq in H12. exact H12. }
    destruct (GoStrings.HasPrefix fi "ipset:") eqn:Hset.
    { injection H as <-. cbn. tauto. }
    destruct (GoStrings.HasPrefix fi "/").
    { destruct (regexp_Compile E _); [discriminate|]. injection H as <-. cbn.
      repeat split; try discriminate. intros [_ ?]; discriminate. }
    destruct (GoStrings.Contains fi "/").
    { destruct (newNetwork E _); [discriminate|]. injection H as <-. cbn.
      repeat split; try discriminate. intros [_ ?]; discriminate. }
    injection H as <-. cbn.
    repeat split; try discriminate. intros [_ ?]; discriminate. }
  assert (~ (i = 1 \/ i = 2)) as Hi.
  { apply orb_false_iff in H12. rewrite !Nat.eqb_neq in H12. lia. }
  destruct ((2 <? i)%nat && (i <? 5)%nat).
  { destruct (strconv.Atoi fi); [|discriminate]. injection H as <-. cbn.
    repeat split; try discriminate. tauto. }
  destruct (regexp_Compile E fi); [discriminate|]. injection H as <-. cbn.
  repeat split; try discriminate. tauto.
Qed.

(** What the loop over the six columns appends. *)
Lemma filterColumns_Ok fields :
  forall i fObj items lineNumber result,
    trapex.filterColumns E NumError i fields fObj items lineNumber = Ok result ->
    exists added,
      result = items ++ added /\
      map filterItem_ added = map trapex.columnItem (wantedColumns i fields) /\
      carriesOver fObj added.
Proof.
  induction fields as [|fi rest IH]; intros i fObj items lineNumber result H.
  - injection H as <-. exists []. rewrite app_nil_r. repeat split.
  - cbn [trapex.filterColumns wantedColumns] in *.
    destruct (String.eqb fi "*").
    + apply IH in H. exact H.
    + apply bind_Ok in H. destruct H as (m & Hm & H).
      apply IH in H. destruct H as (added & -> & Hitems & Hcarry).
      apply filterColumn_Ok in Hm. destruct Hm as (Hitem & Hstale & _).
      exists (m :: added). rewrite <- app_assoc. split; [reflexivity|].
      split.
      * cbn. now rewrite Hitem, Hitems.
      * split; [exact Hstale | exact Hcarry].
Qed.

End ColumnFacts.

(** X23. For a line that is no match-all, [processFilterLine] builds one
    matcher for each of the first six columns that is not [*], in the order of
    the columns.  The matcher of an [ipset:] column is never given the name of
    the set: it keeps the value the matcher before it was given, and none when
    it is the first, since the matcher under construction is declared before
    the loop and the assignment of the name is commented out. *)
Theorem processFilterLine_matchers (E : Env) (NumError : string -> string -> string)
  (forwarder_initAction : string -> option error)
  (logger_initAction csvLogger_initAction : string -> trapex.trapexConfig -> option error)
  (f : list string) (newConfig built : trapex.trapexConfig) (lineNumber : Z) :
  trapex.processFilterLine E NumError forwarder_initAction logger_initAction
    csvLogger_initAction f newConfig lineNumber = Ok built ->
  GoStrings.HasPrefix (strings_Join f " ") "* * * * * *" = false ->
  exists filter,
    trapex.filters built = trapex.filters newConfig ++ [filter] /\
    trapex.matchAll filter = false /\
    map filterItem_ (trapex.filterItems filter) =
      map trapex.columnItem (wantedColumns 0 (take 6 f)) /\
    carriesOver trapex.zeroObj (trapex.filterItems filter).
Proof.
  intros H Hnot. apply processFilterLine_Ok in H.
  destruct H as (_ & criteria & chosen & Hc & _ & ->).
  rewrite Hnot in Hc. destruct Hc as (items & Hitems & ->).
  eexists. split; [reflexivity|]. cbn [trapex.matchAll trapex.filterItems fst snd].
  split; [reflexivity|].
  apply filterColumns_Ok in Hitems. destruct Hitems as (added & -> & Hmap & Hcarry).
  cbn [app]. split; [exact Hmap | exact Hcarry].
Qed.

Lemma processFilterLine_matchers_witness :
  trapex.processFilterLine sampleEnv plainNumError initialises initialisesWith
    initialisesWith ipsetLine trapex.zeroConfig 7 =
    Ok (trapex.set_filters
          [{| trapex.matchAll := false;
              trapex.filterItems :=
                [{| filterItem_ := filterByVersion; filterType := parseTypeInt;
                    filterValue_ := valVersion g.Version2c |};
                 {| filterItem_ := filterBySrcIP; filterType := parseTypeIPSet;
                    filterValue_ := valVersion g.Version2c |}];
              trapex.actionType := trapex.actionLogBreak; trapex.actionArg := "";
              trapex.action := Some (trapex.loggerOf "/var/log/lab.log") |}]
          trapex.zeroConfig) /\
  exists filter,
    trapex.filters
      (trapex.set_filters
          [{| trapex.matchAll := false;
              trapex.filterItems :=
                [{| filterItem_ := filterByVersion; filterType := parseTypeInt;
                    filterValue_ := valVersion g.Version2c |};
                 {| filterItem_ := filterBySrcIP; filterType := parseTypeIPSet;
                    filterValue_ := valVersion g.Version2c |}];
              trapex.actionType := trapex.actionLogBreak; trapex.actionArg := "";
              trapex.action := Some (trapex.loggerOf "/var/log/lab.log") |}]
          trapex.zeroConfig) = trapex.filters trapex.zeroConfig ++ [filter] /\
    map filterItem_ (trapex.filterItems filter) =
      map trapex.columnItem (wantedColumns 0 (take 6 ipsetLine)) /\
    carriesOver trapex.zeroObj (trapex.filterItems filter).
Proof.
  assert (trapex.processFilterLine sampleEnv plainNumError initialises initialisesWith
    initialisesWith ipsetLine trapex.zeroConfig 7 =
    Ok (trapex.set_filters
          [{| trapex.matchAll := false;
              trapex.filterItems :=
                [{| filterItem_ := filterByVersion; filterType := parseTypeInt;
                    filterValue_ := valVersion g.Version2c |};
                 {| filterItem_ := filterBySrcIP; filterType := parseTypeIPSet;
                    filterValue_ := valVersion g.Version2c |}];
              trapex.actionType := trapex.actionLogBreak; trapex.actionArg := "";
              trapex.action := Some (trapex.loggerOf "/var/log/lab.log") |}]
          trapex.zeroConfig)) as Hline by (vm_compute; reflexivity).
  split; [exact Hline|].
  destruct (processFilterLine_matchers _ _ _ _ _ _ _ _ _ Hline)
    as (filter & Hf & _ & Hitems & Hcarry); [vm_compute; reflexivity|].
  exists filter. split; [exact Hf|]. split; [exact Hitems | exact Hcarry].
Defined.

Section ActionFacts.

Variable forwarder_initAction : string -> option error.
Variable logger_initAction : string -> trapex.trapexConfig -> option error.
Variable csvLogger_initAction : string -> trapex.trapexConfig -> option error.

(** The action a line chooses, by the word in its seventh field. *)
Lemma filterAction_Ok action_ actionArg_ breakAfter newConfig lineNumber kind arg handle :
  trapex.filterAction forwarder_initAction logger_initAction csvLogger_initAction
    action_ actionArg_ breakAfter newConfig lineNumber = Ok (kind, arg, handle) ->
  (In action_ ["break"; "drop"]%string /\ kind = trapex.actionBreak /\
   arg = EmptyString /\ handle = None) \/
  (action_ = "nat"%string /\ kind = trapex.actionNat /\ arg = actionArg_ /\
   actionArg_ <> EmptyString /\ handle = None) \/
  (action_ = "forward"%string /\
   kind = (if breakAfter then trapex.actionForwardBreak else trapex.actionForward) /\
   arg = EmptyString /\ handle = Some (trapex.forwarderOf actionArg_)) \/
  (action_ = "log"%string /\
   kind = (if breakAfter then trapex.actionLogBreak else trapex.actionLog) /\
   arg = EmptyString /\ handle = Some (trapex.loggerOf actionArg_)) \/
  (action_ = "csv"%string /\
   kind = (if breakAfter then trapex.actionCsvBreak else trapex.actionCsv) /\
   arg = EmptyString /\ handle = Some (trapex.csvLoggerOf actionArg_)).
Proof.
  unfold trapex.filterAction. intros H.
  destruct (oneOf action_ ["break"; "drop"]%string) eqn:Hb.
  { apply oneOf_In in Hb. injection H as <- <- <-. left. auto. }
  destruct (String.eqb_spec action_ "nat") as [->|_].
  { destruct (String.eqb_spec actionArg_ EmptyString) as [->|Harg]; [discriminate|].
    injection H as <- <- <-. right. left. auto. }
  destruct (String.eqb_spec action_ "forward") as [->|_].
  { destruct (forwarder_initAction actionArg_); [discriminate|].
    injection H as <- <- <-. right. right. left. auto. }
  destruct (String.eqb_spec action_ "log") as [->|_].
  { destruct (logger_initAction actionArg_ newConfig); [discriminate|].
    injection H as <- <- <-. right. right. right. left. auto. }
  destruct (String.eqb_spec action_ "csv") as [->|_]; [|discriminate].
  destruct (csvLogger_initAction actionArg_ newConfig); [discriminate|].
  injection H as <- <- <-. right. right. right. right. auto.
Qed.

End ActionFacts.

(** X24. The word [break] of a filter line counts only as the ninth field of
    a [forward], [log] or [csv] line: the filter built gets one of the three
    breaking action types exactly then.  A [nat] line never breaks, whatever
    follows its argument, and keeps its non-empty argument; a [break] or
    [drop] line is a plain break with neither argument nor action. *)
Theorem processFilterLine_break_flag (E : Env) (NumError : string -> string -> string)
  (forwarder_initAction : string -> option error)
  (logger_initAction csvLogger_initAction : string -> trapex.trapexConfig -> option error)
  (f : list string) (newConfig built : trapex.trapexConfig) (lineNumber : Z) :
  trapex.processFilterLine E NumError forwarder_initAction logger_initAction
    csvLogger_initAction f newConfig lineNumber = Ok built ->
  exists filter,
    built = trapex.set_filters (trapex.filters newConfig ++ [filter]) newConfig /\
    (In (trapex.actionType filter)
       [trapex.actionForwardBreak; trapex.actionLogBreak; trapex.actionCsvBreak] <->
     In (nth 6 f EmptyString) ["forward"; "log"; "csv"]%string /\
     8 < length f /\ nth 8 f EmptyString = "break"%string) /\
    (trapex.actionType filter = trapex.actionNat <-> nth 6 f EmptyString = "nat"%string) /\
    (trapex.actionType filter = trapex.actionNat ->
     7 < length f /\ trapex.actionArg filter = nth 7 f EmptyString /\
     trapex.actionArg filter <> EmptyString /\ trapex.action filter = None) /\
    (trapex.actionType filter = trapex.actionBreak <->
     In (nth 6 f EmptyString) ["break"; "drop"]%string) /\
    (trapex.actionType filter = trapex.actionBreak ->
     trapex.actionArg filter = EmptyString /\ trapex.action filter = None).
Proof.
  intros H. apply processFilterLine_Ok in H.
  destruct H as (Hlen & criteria & [[kind arg] handle] & _ & Ha & ->).
  eexists. split; [reflexivity|].
  cbn [trapex.actionType trapex.actionArg trapex.action fst snd].
  apply filterAction_Ok in Ha.
  assert (((8 <? length f)%nat && String.eqb (nth 8 f EmptyString) "break" = true) <->
          (8 < length f /\ nth 8 f EmptyString = "break"%string)) as Hbreak.
  { rewrite andb_true_iff, Nat.ltb_lt, String.eqb_eq. reflexivity. }
  assert (forall text, (if (7 <? length f)%nat then nth 7 f EmptyString else EmptyString) =
                         text -> text <> EmptyString ->
                       7 < length f /\ text = nth 7 f EmptyString) as Harg.
  { intros text Ht Hne. destruct (7 <? length f)%nat eqn:H7.
    - apply Nat.ltb_lt in H7. auto.
    - congruence. }
  revert Ha Hbreak Harg.
  generalize (if (7 <? length f)%nat then nth 7 f EmptyString else EmptyString).
  generalize ((8 <? length f)%nat && String.eqb (nth 8 f EmptyString) "break").
  generalize (nth 6 f EmptyString).
  intros action_ breakAfter actionArg_ Ha Hbreak Harg.
  assert (breakAfter = true <-> 8 < length f /\ nth 8 f EmptyString = "break"%string)
    as Hb by exact Hbreak.
  clear Hbreak.
  destruct Ha as [(Hin & -> & -> & ->)|[(-> & -> & -> & Hne & ->)|
                 [(-> & -> & -> & ->)|[(-> & -> & -> & ->)|(-> & -> & -> & ->)]]]].
  - cbn [In] in *.
    split; [split; [intros [?|[?|[?|[]]]]; discriminate|]|].
    { intros [[<-|[<-|[<-|[]]]] _]; destruct Hin as [?|[?|[]]]; discriminate. }
    split; [split; [discriminate | intros ->; destruct Hin as [?|[?|[]]]; discriminate]|].
    split; [discriminate|]. split; [tauto|]. auto.
  - cbn [In].
    split; [split; [intros [?|[?|[?|[]]]]; discriminate|]|].
    { intros [[?|[?|[?|[]]]] _]; discriminate. }
    split; [tauto|].
    split; [intros _; destruct (Harg actionArg_ eq_refl Hne); auto|].
    split; [split; [discriminate | intros [?|[?|[]]]; discriminate]|]. discriminate.
  - cbn [In].
    split.
    { rewrite <- Hb. destruct breakAfter; split; try tauto.
      - intros [?|[?|[?|[]]]]; discriminate.
      - intros [_ ?]; discriminate. }
    split; [split; [destruct breakAfter|]; discriminate|].
    split; [destruct breakAfter; discriminate|].
    split; [split; [destruct breakAfter; discriminate|intros [?|[?|[]]]; discriminate]|].
    destruct breakAfter; discriminate.
  - cbn [In].
    split.
    { rewrite <- Hb. destruct breakAfter; split; try tauto.
      - intros [?|[?|[?|[]]]]; discriminate.
      - intros [_ ?]; discriminate. }
    split; [split; [destruct breakAfter|]; discriminate|].
    split; [destruct breakAfter; discriminate|].
    split; [split; [destruct breakAfter; discriminate|intros [?|[?|[]]]; discriminate]|].
    destruct breakAfter; discriminate.
  - cbn [In].
    split.
    { rewrite <- Hb. destruct breakAfter; split; try tauto.
      - intros [?|[?|[?|[]]]]; discriminate.
      - intros [_ ?]; discriminate. }
    split; [split; [destruct breakAfter|]; discriminate|].
    split; [destruct breakAfter; discriminate|].
    split; [split; [destruct breakAfter; discriminate|intros [?|[?|[]]]; discriminate]|].
    destruct breakAfter; discriminate.
Qed.

Lemma processFilterLine_break_flag_witness :
  trapex.processFilterLine sampleEnv plainNumError initialises initialisesWith
    initialisesWith natLine trapex.zeroConfig 3 =
    Ok (trapex.set_filters
          [{| trapex.matchAll := false;
              trapex.filterItems :=
                [{| filterItem_ := filterBySrcIP; filterType := parseTypeCIDR;
                    filterValue_ := valNetwork "10.1.0.0/16" |}];
              trapex.actionType := trapex.actionNat; trapex.actionArg := "10.9.9.9";
              trapex.action := None |}]
          trapex.zeroConfig) /\
  exists filter,
    trapex.set_filters
          [{| trapex.matchAll := false;
              trapex.filterItems :=
                [{| filterItem_ := filterBySrcIP; filterType := parseTypeCIDR;
                    filterValue_ := valNetwork "10.1.0.0/16" |}];
              trapex.actionType := trapex.actionNat; trapex.actionArg := "10.9.9.9";
              trapex.action := None |}]
          trapex.zeroConfig =
      trapex.set_filters (trapex.filters trapex.zeroConfig ++ [filter]) trapex.zeroConfig /\
    (trapex.actionType filter = trapex.actionNat <->
     nth 6 natLine EmptyString = "nat"%string).
Proof.
  assert (trapex.processFilterLine sampleEnv plainNumError initialises initialisesWith
    initialisesWith natLine trapex.zeroConfig 3 =
    Ok (trapex.set_filters
          [{| trapex.matchAll := false;
              trapex.filterItems :=
                [{| filterItem_ := filterBySrcIP; filterType := parseTypeCIDR;
                    filterValue_ := valNetwork "10.1.0.0/16" |}];
              trapex.actionType := trapex.actionNat; trapex.actionArg := "10.9.9.9";
              trapex.action := None |}]
          trapex.zeroConfig)) as Hline by (vm_compute; reflexivity).
  split; [exact Hline|].
  destruct (processFilterLine_break_flag _ _ _ _ _ _ _ _ _ Hline)
    as (filter & Hf & _ & Hnat & _).
  exists filter. split; [exact Hf | exact Hnat].
Defined.

(** ** Closing the handles of the line-oriented configuration *)

Lemma closeTrapexHandles_loop_typed (filters_ : list trapex.trapexFilter) :
  Forall actionTyped filters_ ->
  trapex.closeTrapexHandles_loop filters_ = (closableActions filters_, true).
Proof.
  induction 1 as [|f rest Hf _ IH]; [reflexivity|].
  cbn [trapex.closeTrapexHandles_loop]. unfold closableActions, omap in *.
  cbn [list_omap].
  unfold actionTyped in Hf.
  destruct (trapex.actionType f); try exact IH;
    destruct Hf as (arg & ->); cbn; rewrite IH; reflexivity.
Qed.

Section ReadingFacts.

Variable E : Env.
Variable NumError : string -> string -> string.
Variable forwarder_initAction : string -> option error.
Variable logger_initAction : string -> trapex.trapexConfig -> option error.
Variable csvLogger_initAction : string -> trapex.trapexConfig -> option error.

Lemma filterLineRead_typed before after :
  filterLineRead E NumError forwarder_initAction logger_initAction csvLogger_initAction
    before after ->
  Forall actionTyped (trapex.filters before) ->
  Forall actionTyped (trapex.filters after).
Proof.
  intros (f & lineNumber & H) Hbefore. apply processFilterLine_Ok in H.
  destruct H as (_ & criteria & [[kind arg] handle] & _ & Ha & ->).
  cbn [trapex.filters trapex.set_filters fst snd].
  apply Forall_app. split; [exact Hbefore|]. constructor; [|constructor].
  apply filterAction_Ok in Ha. unfold actionTyped.
  cbn [trapex.actionType trapex.action].
  destruct Ha as [(_ & -> & _ & _)|[(_ & -> & _)|
                 [(_ & -> & _ & ->)|[(_ & -> & _ & ->)|(_ & -> & _ & ->)]]]];
    try exact I; match goal with |- context [if ?b then _ else _] => destruct b end;
    eexists; reflexivity.
Qed.

Lemma filterLinesRead_typed before after :
  rtc (filterLineRead E NumError forwarder_initAction logger_initAction
         csvLogger_initAction) before after ->
  Forall actionTyped (trapex.filters before) ->
  Forall actionTyped (trapex.filters after).
Proof.
  induction 1 as [|x y z Hstep _ IH]; [auto|].
  intros Hx. apply IH. exact (filterLineRead_typed _ _ Hstep Hx).
Qed.

End ReadingFacts.

(** X25. [closeTrapexHandles] asserts the type of each action from the action
    type of its filter.  On the filters that any number of successful
    [processFilterLine] calls have appended to a configuration without filters,
    no assertion fails: the loop comes to its end and closes the forwarder,
    logger or CSV logger of each such filter once, in the order of the
    lines, and nothing for a break or nat filter. *)
Theorem closeTrapexHandles_after_filter_lines (E : Env)
  (NumError : string -> string -> string)
  (forwarder_initAction : string -> option error)
  (logger_initAction csvLogger_initAction : string -> trapex.trapexConfig -> option error)
  (start read : trapex.trapexConfig) :
  trapex.filters start = [] ->
  rtc (filterLineRead E NumError forwarder_initAction logger_initAction
         csvLogger_initAction) start read ->
  trapex.closeTrapexHandles read = (closableActions (trapex.filters read), true) /\
  Forall actionTyped (trapex.filters read).
Proof.
  intros Hstart Hread.
  assert (Forall actionTyped (trapex.filters read)) as Htyped.
  { apply (filterLinesRead_typed _ _ _ _ _ _ _ Hread). rewrite Hstart. constructor. }
  split; [|exact Htyped].
  unfold trapex.closeTrapexHandles. apply closeTrapexHandles_loop_typed. exact Htyped.
Qed.

Lemma closeTrapexHandles_after_filter_lines_witness :
  trapex.filters trapex.zeroConfig = [] /\
  rtc (filterLineRead sampleEnv plainNumError initialises initialisesWith
         initialisesWith) trapex.zeroConfig twoFilterLines /\
  trapex.closeTrapexHandles twoFilterLines =
    (closableActions (trapex.filters twoFilterLines), true) /\
  closableActions (trapex.filters twoFilterLines) =
    [trapex.forwarderOf "192.168.7.7:162"; trapex.loggerOf "/var/log/lab.log"].
Proof.
  assert (rtc (filterLineRead sampleEnv plainNumError initialises initialisesWith
                 initialisesWith) trapex.zeroConfig twoFilterLines) as Hread.
  { eapply rtc_l.
    - exists forwardLine, 1%Z. vm_compute. reflexivity.
    - apply rtc_once. exists ipsetLine, 2%Z. vm_compute. reflexivity. }
  split; [reflexivity|]. split; [exact Hread|].
  split; [|vm_compute; reflexivity].
  exact (proj1 (closeTrapexHandles_after_filter_lines _ _ _ _ _ trapex.zeroConfig _
                  eq_refl Hread)).
Defined.

(** ** Configuration lines *)

Lemma set_General_ignoreVersions_same (c : trapex.trapexConfig) :
  trapex.set_General_ignoreVersions (trapex.General_ignoreVersions c) c = c.
Proof. now destruct c. Qed.

Lemma set_General_ignoreVersions_twice (v w : list Z) (c : trapex.trapexConfig) :
  trapex.set_General_ignoreVersions v (trapex.set_General_ignoreVersions w c) =
  trapex.set_General_ignoreVersions v c.
Proof. reflexivity. Qed.

(** The loop over the versions of a line appends those it could read. *)
Lemma ignoreVersions_loop_appends tokens :
  forall c lineNumber,
  exists added,
    snd (trapex.ignoreVersions_loop tokens c lineNumber) =
      trapex.set_General_ignoreVersions (trapex.General_ignoreVersions c ++ added) c /\
    (forall versions, versionsOfTokens tokens = Some versions ->
       added = versions /\
       fst (trapex.ignoreVersions_loop tokens c lineNumber) = Done tt) /\
    (versionsOfTokens tokens = None ->
     exists err, fst (trapex.ignoreVersions_loop tokens c lineNumber) = Failed err).
Proof.
  induction tokens as [|v rest IH]; intros c lineNumber.
  - exists []. cbn. rewrite app_nil_r, set_General_ignoreVersions_same.
    split; [reflexivity|]. split; [|discriminate].
    intros versions [= <-]. auto.
  - cbn [trapex.ignoreVersions_loop]. unfold versionsOfTokens in *.
    cbn [mapM]. destruct (versionOfToken (GoStrings.ToLower v)) as [version|].
    + destruct (IH (trapex.set_General_ignoreVersions
                      (trapex.General_ignoreVersions c ++ [version]) c) lineNumber)
        as (added & Hsnd & Hall & Hnone).
      exists (version :: added). rewrite Hsnd.
      split.
      { cbn [trapex.General_ignoreVersions trapex.set_General_ignoreVersions].
        rewrite <- app_assoc. reflexivity. }
      split.
      * intros versions Hv. cbn in Hv.
        destruct (mapM _ rest) as [others|] eqn:Hrest; [|discriminate].
        injection Hv as <-. destruct (Hall others eq_refl) as [-> Hdone]. auto.
      * intros Hv. cbn in Hv.
        destruct (mapM _ rest) as [others|] eqn:Hrest; [discriminate|].
        apply Hnone. reflexivity.
    + exists []. cbn [snd fst]. rewrite app_nil_r, set_General_ignoreVersions_same.
      split; [reflexivity|]. split; [discriminate|]. intros _. eexists. reflexivity.
Qed.

Lemma strings_Split_nonempty (s : string) (sep : ascii) : strings_Split s sep <> [].
Proof.
  destruct s as [|c rest]; cbn; [discriminate|].
  destruct (Ascii.eqb c sep); [discriminate|].
  destruct (strings_Split rest sep); discriminate.
Qed.

Lemma versionsOfTokens_length tokens versions :
  versionsOfTokens tokens = Some versions -> length versions = length tokens.
Proof.
  unfold versionsOfTokens. intros H. apply length_mapM in H. symmetry. exact H.
Qed.

(** An [ignoreVersions] line, step by step. *)
Lemma processConfigLine_ignoreVersions NumError value more c lineNumber :
  trapex.processConfigLine NumError ("ignoreVersions"%string :: value :: more) c lineNumber =
  match trapex.ignoreVersions_loop (strings_Split value ","%char) c lineNumber with
  | (Done _, updated) =>
      if (2 <? length (trapex.General_IgnoreVersions updated))%nat then
        (Failed ("All 3 SNMP versions are ignored at line " +:+ fmt_int lineNumber +:+
                 ". There will be no traps to process"), updated)
      else (Done tt, updated)
  | failed => failed
  end.
Proof. reflexivity. Qed.

(** X26. On an [ignoreVersions] line whose versions can all be read,
    [processConfigLine] appends every one of them to the versions to ignore,
    repeated ones too.  Its guard against ignoring all three versions does not
    look at them: the line is refused exactly when the list
    [General.IgnoreVersions], which no line changes, holds more than two
    entries, so that a line naming all three versions is accepted. *)
Theorem processConfigLine_ignoreVersions_guard (NumError : string -> string -> string)
  (value : string) (more : list string) (c : trapex.trapexConfig) (lineNumber : Z)
  (versions : list Z) :
  versionsOfTokens (strings_Split value ","%char) = Some versions ->
  let ended :=
    trapex.processConfigLine NumError ("ignoreVersions"%string :: value :: more) c
      lineNumber in
  snd ended =
    trapex.set_General_ignoreVersions (trapex.General_ignoreVersions c ++ versions) c /\
  length versions = length (strings_Split value ","%char) /\
  (fst ended = Done tt <-> length (trapex.General_IgnoreVersions c) <= 2).
Proof.
  intros Hv ended. subst ended. rewrite processConfigLine_ignoreVersions.
  destruct (ignoreVersions_loop_appends (strings_Split value ","%char) c lineNumber)
    as (added & Hsnd & Hall & _).
  destruct (Hall versions Hv) as [-> Hdone].
  destruct (trapex.ignoreVersions_loop _ c lineNumber) as [ended updated].
  cbn [fst snd] in *. subst ended updated.
  cbn [trapex.General_IgnoreVersions trapex.set_General_ignoreVersions].
  split; [|split; [exact (versionsOfTokens_length _ _ Hv)|]].
  - now destruct (2 <? _)%nat.
  - destruct (2 <? length (trapex.General_IgnoreVersions c))%nat eqn:Hlen; cbn [fst].
    + apply Nat.ltb_lt in Hlen. split; [discriminate | lia].
    + apply Nat.ltb_ge in Hlen. split; [intros _; exact Hlen | reflexivity].
Qed.

Lemma processConfigLine_ignoreVersions_guard_witness :
  versionsOfTokens (strings_Split "v1,2c,V3,v1" ","%char) =
    Some [g.Version1; g.Version2c; g.Version3; g.Version1] /\
  snd (trapex.processConfigLine plainNumError allVersionsLine trapex.zeroConfig 4) =
    trapex.set_General_ignoreVersions
      (trapex.General_ignoreVersions trapex.zeroConfig ++
       [g.Version1; g.Version2c; g.Version3; g.Version1]) trapex.zeroConfig /\
  fst (trapex.processConfigLine plainNumError allVersionsLine trapex.zeroConfig 4) =
    Done tt.
Proof.
  assert (versionsOfTokens (strings_Split "v1,2c,V3,v1" ","%char) =
            Some [g.Version1; g.Version2c; g.Version3; g.Version1]) as Hv
      by (vm_compute; reflexivity).
  split; [exact Hv|].
  destruct (processConfigLine_ignoreVersions_guard plainNumError _ [] trapex.zeroConfig 4 _ Hv)
    as (Hsnd & _ & Hfst).
  split; [exact Hsnd|]. apply Hfst. cbn. lia.
Defined.

Ltac config_leaf H :=
  repeat match type of H with
         | context [if ?b then _ else _] => destruct b
         | context [match ?o with Some _ => _ | None => _ end] => destruct o
         end;
  injection H as <- <-; first [reflexivity | congruence].

(** X27. A configuration line that [processConfigLine] refuses leaves the
    configuration as it was, with one exception: an [ignoreVersions] line
    keeps the versions read before the one it refuses, and all of them when
    the guard refuses the line. *)
Theorem processConfigLine_refused (NumError : string -> string -> string)
  (f : list string) (c updated : trapex.trapexConfig) (lineNumber : Z)
  (ended : outcome unit) :
  trapex.processConfigLine NumError f c lineNumber = (ended, updated) ->
  ended <> Done tt ->
  updated = c \/
  (exists value more added,
     f = "ignoreVersions"%string :: value :: more /\ added <> [] /\
     updated =
       trapex.set_General_ignoreVersions (trapex.General_ignoreVersions c ++ added) c).
Proof.
  intros H Hne. destruct f as [|option_ rest].
  { injection H as <- <-. now left. }
  destruct (String.eqb_spec option_ "ignoreVersions") as [->|Hother].
  - destruct rest as [|value more].
    { injection H as <- <-. now left. }
    rewrite processConfigLine_ignoreVersions in H.
    destruct (ignoreVersions_loop_appends (strings_Split value ","%char) c lineNumber)
      as (added & Hsnd & Hall & Hnone).
    destruct (trapex.ignoreVersions_loop _ c lineNumber) as [ended' updated'].
    cbn [fst snd] in *.
    assert (updated = updated') as ->.
    { destruct ended' as [[]| | |]; [destruct (2 <? _)%nat|..]; now injection H. }
    destruct added as [|version added].
    + left. rewrite Hsnd, app_nil_r. apply set_General_ignoreVersions_same.
    + right. exists value, more, (version :: added).
      split; [reflexivity|]. split; [discriminate | exact Hsnd].
  - left. unfold trapex.processConfigLine in H.
    apply String.eqb_neq in Hother. rewrite Hother in H.
    destruct (String.eqb option_ "debug"); [config_leaf H|].
    destruct (String.eqb option_ "hostname"); [config_leaf H|].
    destruct (String.eqb option_ "listenAddress"); [config_leaf H|].
    destruct (String.eqb option_ "listenPort"); [config_leaf H|].
    destruct (String.eqb option_ "v3msgFlags"); [config_leaf H|].
    destruct (String.eqb option_ "v3user"); [config_leaf H|].
    destruct (String.eqb option_ "v3authProtocol"); [config_leaf H|].
    destruct (String.eqb option_ "v3authPassword"); [config_leaf H|].
    destruct (String.eqb option_ "v3privacyProtocol"); [config_leaf H|].
    destruct (String.eqb option_ "v3privacyPassword"); [config_leaf H|].
    destruct (String.eqb option_ "logfileMaxSize"); [config_leaf H|].
    destruct (String.eqb option_ "logfileMaxBackups"); [config_leaf H|].
    destruct (String.eqb option_ "compressRotatedLogs"); [config_leaf H|].
    destruct (String.eqb option_ "prometheus_ip"); [config_leaf H|].
    destruct (String.eqb option_ "prometheus_port"); [config_leaf H|].
    destruct (String.eqb option_ "prometheus_endpoint"); config_leaf H.
Qed.

Lemma processConfigLine_refused_witness :
  exists err,
    trapex.processConfigLine plainNumError halfReadLine trapex.zeroConfig 9 =
      (Failed err,
       trapex.set_General_ignoreVersions [g.Version1] trapex.zeroConfig) /\
    (trapex.set_General_ignoreVersions [g.Version1] trapex.zeroConfig =
       trapex.zeroConfig \/
     exists value more added,
       halfReadLine = "ignoreVersions"%string :: value :: more /\ added <> [] /\
       trapex.set_General_ignoreVersions [g.Version1] trapex.zeroConfig =
         trapex.set_General_ignoreVersions
           (trapex.General_ignoreVersions trapex.zeroConfig ++ added)
           trapex.zeroConfig).
Proof.
  exists "unsupported or invalid value (v4) for ignoreVersion at line 9"%string.
  split; [vm_compute; reflexivity|].
  apply (processConfigLine_refused plainNumError halfReadLine trapex.zeroConfig _ 9
           (Failed "unsupported or invalid value (v4) for ignoreVersion at line 9")).
  - vm_compute. reflexivity.
  - discriminate.
Defined.
